(** * kvstore: a versioned in-memory store, its durable wrapper and the
      JSON file persistence, embedded from [internal/store/*.go].

    Conventions of the embedding.
    - A Go [string] is a sequence of bytes: [String.string], one [ascii]
      per byte; [len] is [String.length].
    - [int64] and [int] are [Z] with the two's-complement wrap-around of
      64-bit arithmetic written out ([wrap64]).
    - [time.Time] is an instant in [Z] (nanoseconds on the monotonic
      clock); every [time.Now()] of the source is an explicit argument
      [now] of the embedded operation.
    - A method with a pointer receiver takes the receiver's state and
      returns the new state first, then the Go results; [error] results
      are [option error], [None] standing for [nil].
    - A mutex-protected method body is one atomic state transformer; the
      background goroutine and the timer of the durable store are
      separate transformers ([saveProcessor_recv], [timer_fire]) that an
      interleaving may run between two calls. *)

From Stdlib Require Import ZArith Lia Ascii String List DecimalString.
From stdpp Require Import gmap strings list fin_maps.

Local Open Scope Z_scope.

(* ===================================================================== *)
(** ** Go runtime notions used by the package                             *)
(* ===================================================================== *)

Module Go.

(** Sentinel errors of [store.go] and [persistence.go], the two errors a
    [context.Context] reports, and the two ways the package builds new
    errors. [SysError] stands for an error value produced by [os],
    [crypto/rand] or [encoding/json]. *)
Inductive error : Type :=
| ErrKeyNotFound
| ErrInvalidKey
| ErrInvalidValue
| ErrStoreClosed
| ErrTimeout
| ErrConcurrentModification
| ErrPersistenceNotConfigured
| ErrSnapshotCorrupted
| ErrUnsupportedVersion
| ErrSaveOperationFailed
| ErrLoadOperationFailed
| ErrNoSnapshotFound
| Canceled
| DeadlineExceeded
| SysError (msg : string)
| ErrorNew (msg : string)
| Errorf (format : string) (wrapped : error).

#[global] Instance error_eq_dec : EqDecision error.
Proof. solve_decision. Defined.


(** What an operation can observe of its [context.Context]. *)
Inductive Context : Type :=
| Background
| CtxCanceled
| CtxDeadlineExceeded.

(** [ctx.Err()]; the [select] on [ctx.Done()] with a [default] branch
    returns it exactly when it is not [nil]. *)
Definition ctx_Err (ctx : Context) : option error :=
  match ctx with
  | Background => None
  | CtxCanceled => Some Canceled
  | CtxDeadlineExceeded => Some DeadlineExceeded
  end.

Definition min_int64 : Z := - 2 ^ 63.
Definition max_int64 : Z := 2 ^ 63 - 1.

(** Two's-complement reduction of an integer to 64 bits. *)
Definition wrap64 (z : Z) : Z := (z + 2 ^ 63) mod 2 ^ 64 - 2 ^ 63.

(** A buffered [chan struct{}]: the elements carry no data, so the
    buffer is the number of pending elements. *)
Record chan : Type := mkChan {
  chan_len : nat;
  chan_cap : nat;
  chan_closed : bool
}.

Definition make_chan (capacity : nat) : chan :=
  {| chan_len := 0; chan_cap := capacity; chan_closed := false |}.

(** Outcome of [select { case ch <- struct{}{}: ... default: ... }]. *)
Inductive send_outcome : Type :=
| Sent
| TookDefault
| PanicClosed.

Definition select_send (ch : chan) : chan * send_outcome :=
  if chan_closed ch then (ch, PanicClosed)
  else if (chan_len ch <? chan_cap ch)%nat
       then ({| chan_len := S (chan_len ch);
                chan_cap := chan_cap ch;
                chan_closed := false |}, Sent)
       else (ch, TookDefault).


(** One iteration head of [for range ch]: an element if one is
    buffered, the end of the loop if the channel is closed and empty,
    and otherwise the receiver waits. *)
Inductive recv_outcome : Type :=
| Received
| RangeDone
| WouldWait.

Definition range_recv (ch : chan) : chan * recv_outcome :=
  match chan_len ch with
  | S n => ({| chan_len := n;
               chan_cap := chan_cap ch;
               chan_closed := chan_closed ch |}, Received)
  | O => (ch, if chan_closed ch then RangeDone else WouldWait)
  end.

Definition close_chan (ch : chan) : chan :=
  {| chan_len := chan_len ch; chan_cap := chan_cap ch; chan_closed := true |}.

End Go.
Export Go.

(* ===================================================================== *)
(** ** store.go and interface.go: keys, values, statistics                *)
(* ===================================================================== *)

(** [type Key string]; instants of [time.Time]. *)
Abbreviation Key := string (only parsing).
Abbreviation Time := Z (only parsing).

Record Value : Type := mkValue {
  Data : string;
  CreatedAt : Time;
  UpdatedAt : Time;
  Version : Z
}.

(** [Value{}] *)
Definition zeroValue : Value :=
  {| Data := EmptyString; CreatedAt := 0; UpdatedAt := 0; Version := 0 |}.

Record Entry : Type := mkEntry {
  EKey : Key;
  EValue : Value
}.

Record StoreStats : Type := mkStats {
  TotalKeys : Z;
  TotalRequests : Z;
  GetRequests : Z;
  SetRequests : Z;
  DeleteRequests : Z
}.

(** [StoreStats{}] *)
Definition zeroStats : StoreStats :=
  {| TotalKeys := 0; TotalRequests := 0; GetRequests := 0;
     SetRequests := 0; DeleteRequests := 0 |}.

#[global] Instance Value_eq_dec : EqDecision Value.
Proof. solve_decision. Defined.

(** The loop [for _, b := range []byte(k)] of [Key.Validate]. *)
Fixpoint null_byte_scan (k : string) : option error :=
  match k with
  | EmptyString => None
  | String b rest =>
      if Ascii.eqb b Ascii.zero then Some ErrInvalidKey
      else null_byte_scan rest
  end.

(** [Key.Validate] *)
Definition Validate (k : Key) : option error :=
  if (String.length k =? 0)%nat then Some ErrInvalidKey
  else if (255 <? String.length k)%nat then Some ErrInvalidKey
  else null_byte_scan k.

(** [Value.IsEmpty] *)
Definition IsEmpty (v : Value) : bool :=
  String.eqb (Data v) EmptyString && (CreatedAt v =? 0) && (UpdatedAt v =? 0)
  && (Version v =? 0).

(* ===================================================================== *)
(** ** The [Store] interface                                              *)
(* ===================================================================== *)

(** The ten methods of the Go interface [Store]. [S] is the state behind
    the receiver; [SetKey] is the method [Set] (a reserved word here). A
    method takes a clock reading when one of its implementations calls
    [time.Now()]. *)
Class Store (S : Type) : Type := {
  Get : S -> Context -> Key -> S * Value * option error;
  SetKey : S -> Context -> Time -> Key -> string -> S * option error;
  Delete : S -> Context -> Key -> S * Value * option error;
  List : S -> Context -> S * option (list Key) * option error;
  ListEntries : S -> Context -> S * option (list Entry) * option error;
  Size : S -> Context -> S * Z * option error;
  Clear : S -> Context -> S * option error;
  Exists : S -> Context -> Key -> S * bool * option error;
  CompareAndSwap :
    S -> Context -> Time -> Key -> Z -> string -> S * Value * option error;
  Close : S -> Time -> S * option error
}.

(* ===================================================================== *)
(** ** memory_store.go                                                    *)
(* ===================================================================== *)

Module MemoryStore.

Record t : Type := mk {
  data : gmap string Value;
  stats : StoreStats;
  closed : bool
}.

(** [NewMemoryStore] *)
Definition NewMemoryStore : t :=
  {| data := ∅; stats := zeroStats; closed := false |}.

(** [NewMemoryStoreWithCapacity]: the capacity is only an allocation
    hint of [make]. *)
Definition NewMemoryStoreWithCapacity (capacity : Z) : t :=
  {| data := ∅; stats := zeroStats; closed := false |}.

(** [GetStats] *)
Definition GetStats (ms : t) : StoreStats :=
  {| TotalKeys := TotalKeys (stats ms);
     TotalRequests := TotalRequests (stats ms);
     GetRequests := GetRequests (stats ms);
     SetRequests := SetRequests (stats ms);
     DeleteRequests := DeleteRequests (stats ms) |}.

Inductive StatType : Type := StatGet | StatSet | StatDelete.

(** [incrementStat] *)
Definition incrementStat (ms : t) (statType : StatType) : t :=
  let st := stats ms in
  let total := wrap64 (TotalRequests st + 1) in
  let st' :=
    match statType with
    | StatGet =>
        {| TotalKeys := TotalKeys st; TotalRequests := total;
           GetRequests := wrap64 (GetRequests st + 1);
           SetRequests := SetRequests st;
           DeleteRequests := DeleteRequests st |}
    | StatSet =>
        {| TotalKeys := TotalKeys st; TotalRequests := total;
           GetRequests := GetRequests st;
           SetRequests := wrap64 (SetRequests st + 1);
           DeleteRequests := DeleteRequests st |}
    | StatDelete =>
        {| TotalKeys := TotalKeys st; TotalRequests := total;
           GetRequests := GetRequests st;
           SetRequests := SetRequests st;
           DeleteRequests := wrap64 (DeleteRequests st + 1) |}
    end in
  {| data := data ms; stats := st'; closed := closed ms |}.

(** [updateKeyCount] *)
Definition updateKeyCount (ms : t) : t :=
  let st := stats ms in
  {| data := data ms;
     stats := {| TotalKeys := Z.of_nat (size (data ms));
                 TotalRequests := TotalRequests st;
                 GetRequests := GetRequests st;
                 SetRequests := SetRequests st;
                 DeleteRequests := DeleteRequests st |};
     closed := closed ms |}.

(** [ms.data[key] = v] *)
Definition store_key (ms : t) (key : Key) (v : Value) : t :=
  {| data := <[key := v]> (data ms); stats := stats ms; closed := closed ms |}.

(** [Get] *)
Definition Get (ms : t) (ctx : Context) (key : Key)
  : t * Value * option error :=
  match Validate key with
  | Some err => (ms, zeroValue, Some err)
  | None =>
  match ctx_Err ctx with
  | Some err => (ms, zeroValue, Some err)
  | None =>
  if closed ms then (ms, zeroValue, Some ErrStoreClosed)
  else
    let ms := incrementStat ms StatGet in
    match data ms !! key with
    | None => (ms, zeroValue, Some ErrKeyNotFound)
    | Some value => (ms, value, None)
    end
  end end.

(** [Set] *)
Definition SetKey (ms : t) (ctx : Context) (now : Time) (key : Key)
    (value : string) : t * option error :=
  match Validate key with
  | Some err => (ms, Some err)
  | None =>
  match ctx_Err ctx with
  | Some err => (ms, Some err)
  | None =>
  if closed ms then (ms, Some ErrStoreClosed)
  else
    let ms := incrementStat ms StatSet in
    let newValue :=
      match data ms !! key with
      | Some existingValue =>
          {| Data := value;
             CreatedAt := CreatedAt existingValue;
             UpdatedAt := now;
             Version := wrap64 (Version existingValue + 1) |}
      | None =>
          {| Data := value; CreatedAt := now; UpdatedAt := now;
             Version := 1 |}
      end in
    let ms := store_key ms key newValue in
    let ms := updateKeyCount ms in
    (ms, None)
  end end.

(** [Delete] *)
Definition Delete (ms : t) (ctx : Context) (key : Key)
  : t * Value * option error :=
  match Validate key with
  | Some err => (ms, zeroValue, Some err)
  | None =>
  match ctx_Err ctx with
  | Some err => (ms, zeroValue, Some err)
  | None =>
  if closed ms then (ms, zeroValue, Some ErrStoreClosed)
  else
    let ms := incrementStat ms StatDelete in
    match data ms !! key with
    | None => (ms, zeroValue, Some ErrKeyNotFound)
    | Some value =>
        let ms := {| data := delete key (data ms); stats := stats ms;
                     closed := closed ms |} in
        let ms := updateKeyCount ms in
        (ms, value, None)
    end
  end end.

(** [List]; the order of a Go map iteration is unspecified, the
    embedding enumerates in the order of [map_to_list]. *)
Definition List (ms : t) (ctx : Context)
  : t * option (list Key) * option error :=
  match ctx_Err ctx with
  | Some err => (ms, None, Some err)
  | None =>
  if closed ms then (ms, None, Some ErrStoreClosed)
  else (ms, Some ((map_to_list (data ms)).*1), None)
  end.

(** [ListEntries] *)
Definition ListEntries (ms : t) (ctx : Context)
  : t * option (list Entry) * option error :=
  match ctx_Err ctx with
  | Some err => (ms, None, Some err)
  | None =>
  if closed ms then (ms, None, Some ErrStoreClosed)
  else (ms,
        Some (map (fun kv => {| EKey := kv.1; EValue := kv.2 |})
                  (map_to_list (data ms))),
        None)
  end.

(** [Size] *)
Definition Size (ms : t) (ctx : Context) : t * Z * option error :=
  match ctx_Err ctx with
  | Some err => (ms, 0, Some err)
  | None =>
  if closed ms then (ms, 0, Some ErrStoreClosed)
  else (ms, Z.of_nat (size (data ms)), None)
  end.

(** [Clear] *)
Definition Clear (ms : t) (ctx : Context) : t * option error :=
  match ctx_Err ctx with
  | Some err => (ms, Some err)
  | None =>
  if closed ms then (ms, Some ErrStoreClosed)
  else
    let ms := {| data := ∅; stats := stats ms; closed := closed ms |} in
    let ms := updateKeyCount ms in
    (ms, None)
  end.

(** [Exists] *)
Definition Exists (ms : t) (ctx : Context) (key : Key)
  : t * bool * option error :=
  match Validate key with
  | Some err => (ms, false, Some err)
  | None =>
  match ctx_Err ctx with
  | Some err => (ms, false, Some err)
  | None =>
  if closed ms then (ms, false, Some ErrStoreClosed)
  else (ms, bool_decide (is_Some (data ms !! key)), None)
  end end.

(** [CompareAndSwap] *)
Definition CompareAndSwap (ms : t) (ctx : Context) (now : Time) (key : Key)
    (expectedVersion : Z) (newValue : string) : t * Value * option error :=
  match Validate key with
  | Some err => (ms, zeroValue, Some err)
  | None =>
  match ctx_Err ctx with
  | Some err => (ms, zeroValue, Some err)
  | None =>
  if closed ms then (ms, zeroValue, Some ErrStoreClosed)
  else
    match data ms !! key with
    | None => (ms, zeroValue, Some ErrKeyNotFound)
    | Some currentValue =>
        if negb (Version currentValue =? expectedVersion)
        then (ms, currentValue, Some ErrConcurrentModification)
        else
          let updatedValue :=
            {| Data := newValue;
               CreatedAt := CreatedAt currentValue;
               UpdatedAt := now;
               Version := wrap64 (Version currentValue + 1) |} in
          (store_key ms key updatedValue, updatedValue, None)
    end
  end end.

(** [Close] *)
Definition Close (ms : t) : t * option error :=
  ({| data := data ms; stats := stats ms; closed := true |}, None).


End MemoryStore.

#[global] Instance MemoryStore_Store : Store MemoryStore.t := {|
  Get := MemoryStore.Get;
  SetKey := MemoryStore.SetKey;
  Delete := MemoryStore.Delete;
  List := MemoryStore.List;
  ListEntries := MemoryStore.ListEntries;
  Size := MemoryStore.Size;
  Clear := MemoryStore.Clear;
  Exists := MemoryStore.Exists;
  CompareAndSwap := MemoryStore.CompareAndSwap;
  Close := fun ms _ => MemoryStore.Close ms
|}.


(* ===================================================================== *)
(** ** persistence.go                                                     *)
(* ===================================================================== *)

(** [StoreSnapshot]; a Go map may be [nil], hence the [option]. The
    fields carry the prefix [Snap] to keep them apart from those of
    [Value]. *)
Record StoreSnapshot : Type := mkSnapshot {
  SnapData : option (gmap string string);
  SnapStats : StoreStats;
  SnapVersion : string;
  SnapTimestamp : Z
}.

(** The interface [Persistence]. [Load] returns either a snapshot with a
    [nil] error or a [nil] snapshot with an error, as its documentation
    says: a sum. *)
Class Persistence (P : Type) : Type := {
  Save : P -> Context -> option StoreSnapshot -> P * option error;
  Load : P -> Context -> P * (error + StoreSnapshot)
}.

(** [NewPersistenceError] *)
Definition NewPersistenceError (operation : string) (err : error) : error :=
  Errorf ("persistence " +:+ operation +:+ " error: %w") err.

(** [ValidateSnapshot] *)
Definition ValidateSnapshot (snapshot : option StoreSnapshot) : option error :=
  match snapshot with
  | None => Some (ErrorNew "snapshot is nil")
  | Some snapshot =>
      match SnapData snapshot with
      | None => Some (ErrorNew "snapshot data is nil")
      | Some _ =>
          if String.eqb (SnapVersion snapshot) EmptyString
          then Some (ErrorNew "snapshot version is empty")
          else if SnapTimestamp snapshot <=? 0
               then Some (ErrorNew "snapshot timestamp is invalid")
               else None
      end
  end.

(** [SnapshotSize] *)
Definition SnapshotSize (s : StoreSnapshot) : Z :=
  match SnapData s with
  | None => 0
  | Some m => Z.of_nat (size m)
  end.

(** [StoreSnapshot.IsEmpty] *)
Definition SnapshotIsEmpty (s : StoreSnapshot) : bool := SnapshotSize s =? 0.

(** [encoding/json] is not part of the package: the two functions the
    package calls are an interface of the model. *)
Class JSON : Type := {
  MarshalIndent : StoreSnapshot -> error + string;
  Unmarshal : string -> error + StoreSnapshot
}.

(** What [Save] and [Load] see of the operating system besides the files:
    the outcome of each call that can fail. [WriteFile_fault] is
    [Some (err, partial)] when the write fails with [err], leaving
    [partial] (if any) in the file it was writing. *)
Record OSEnv : Type := mkOSEnv {
  filepath_Dir : string -> string;
  MkdirAll_err : option error;
  rand_Read : error + string;
  WriteFile_fault : option (error * option string);
  Rename_err : option error;
  Remove_err : option error;
  ReadFile_err : option error
}.

(** [hex.EncodeToString] *)
Definition hex_digit (n : N) : ascii :=
  match n with
  | 0%N => "0" | 1%N => "1" | 2%N => "2" | 3%N => "3" | 4%N => "4"
  | 5%N => "5" | 6%N => "6" | 7%N => "7" | 8%N => "8" | 9%N => "9"
  | 10%N => "a" | 11%N => "b" | 12%N => "c" | 13%N => "d" | 14%N => "e"
  | _ => "f"
  end%char.

Fixpoint hex_EncodeToString (bytes : string) : string :=
  match bytes with
  | EmptyString => EmptyString
  | String b rest =>
      let n := N_of_ascii b in
      String (hex_digit (n / 16)) (String (hex_digit (n mod 16))
        (hex_EncodeToString rest))
  end.

Module JSONFilePersistence.

(** The receiver holds the path; [disk] is the content of the regular
    files of the file system and [os] the outcome of the fallible calls. *)
Record t : Type := mk {
  filePath : string;
  disk : gmap string string;
  os : OSEnv
}.

Definition with_disk (j : t) (d : gmap string string) : t :=
  {| filePath := filePath j; disk := d; os := os j |}.

(** [NewJSONFilePersistence], on a given file system. *)
Definition NewJSONFilePersistence (path : string)
    (d : gmap string string) (env : OSEnv) : t :=
  {| filePath := path; disk := d; os := env |}.

(** [generateTempFileName] *)
Definition generateTempFileName (j : t) : error + string :=
  match rand_Read (os j) with
  | inl err => inl (Errorf "failed to generate random bytes: %w" err)
  | inr randomBytes =>
      inr (filePath j +:+ ".tmp." +:+ hex_EncodeToString randomBytes)
  end.

(** The deferred function of [Save]: remove the temporary file if
    [os.Stat] finds it; the result of [os.Remove] is dropped. *)
Definition cleanup (env : OSEnv) (tempFile : string)
    (d : gmap string string) : gmap string string :=
  match d !! tempFile with
  | Some _ =>
      match Remove_err env with
      | None => delete tempFile d
      | Some _ => d
      end
  | None => d
  end.

Section WithJSON.
Context `{JSON}.

(** [Save] *)
Definition Save (j : t) (ctx : Context) (snapshot : option StoreSnapshot)
  : t * option error :=
  match snapshot with
  | None => (j, Some (ErrorNew "snapshot is nil"))
  | Some snap =>
  match ValidateSnapshot snapshot with
  | Some err => (j, Some (NewPersistenceError "save" err))
  | None =>
  match MarshalIndent snap with
  | inl err =>
      (j, Some (NewPersistenceError "save"
                  (Errorf "failed to marshal snapshot: %w" err)))
  | inr data =>
  let dir := filepath_Dir (os j) (filePath j) in
  match (if negb (String.eqb dir ".") && negb (String.eqb dir "/")
         then MkdirAll_err (os j) else None) with
  | Some err =>
      (j, Some (NewPersistenceError "save"
                  (Errorf "failed to create directory: %w" err)))
  | None =>
  match generateTempFileName j with
  | inl err =>
      (j, Some (NewPersistenceError "save"
                  (Errorf "failed to generate temp filename: %w" err)))
  | inr tempFile =>
  match WriteFile_fault (os j) with
  | Some (err, partial) =>
      let d := match partial with
               | Some p => <[tempFile := p]> (disk j)
               | None => disk j
               end in
      (with_disk j (cleanup (os j) tempFile d),
       Some (NewPersistenceError "save"
               (Errorf "failed to write temp file: %w" err)))
  | None =>
  let d := <[tempFile := data]> (disk j) in
  match Rename_err (os j) with
  | Some err =>
      (with_disk j (cleanup (os j) tempFile d),
       Some (NewPersistenceError "save"
               (Errorf "failed to rename temp file: %w" err)))
  | None =>
      let d := <[filePath j := data]> (delete tempFile d) in
      (with_disk j (cleanup (os j) tempFile d), None)
  end end end end end end end.

(** [Load] *)
Definition Load (j : t) (ctx : Context) : t * (error + StoreSnapshot) :=
  match disk j !! filePath j with
  | None => (j, inl (NewPersistenceError "load" ErrNoSnapshotFound))
  | Some content =>
  match ReadFile_err (os j) with
  | Some err =>
      (j, inl (NewPersistenceError "load"
                 (Errorf "failed to read file: %w" err)))
  | None =>
  if (String.length content =? 0)%nat
  then (j, inl (NewPersistenceError "load" (ErrorNew "file is empty")))
  else
  match Unmarshal content with
  | inl err =>
      (j, inl (NewPersistenceError "load"
                 (Errorf "failed to unmarshal snapshot: %w" err)))
  | inr snapshot =>
  match ValidateSnapshot (Some snapshot) with
  | Some _ => (j, inl (NewPersistenceError "load" ErrSnapshotCorrupted))
  | None => (j, inr snapshot)
  end end end end.

End WithJSON.

End JSONFilePersistence.

#[global] Instance JSONFilePersistence_Persistence `{JSON}
  : Persistence JSONFilePersistence.t := {|
  Save := JSONFilePersistence.Save;
  Load := JSONFilePersistence.Load
|}.

(** The test double of [persistent_store_test.go]; the wall-clock stamp
    of a [SaveCall] is not kept. *)
Module mockPersistence.

Record t : Type := mk {
  saveCount : Z;
  loadCount : Z;
  shouldFailSave : bool;
  shouldFailLoad : bool;
  snapshot : option StoreSnapshot;
  saveCalls : list (option StoreSnapshot)
}.

(** [newMockPersistence] *)
Definition newMockPersistence : t :=
  {| saveCount := 0; loadCount := 0; shouldFailSave := false;
     shouldFailLoad := false; snapshot := None; saveCalls := [] |}.

Definition Save (m : t) (ctx : Context) (snap : option StoreSnapshot)
  : t * option error :=
  let count := wrap64 (saveCount m + 1) in
  let calls := saveCalls m ++ [snap] in
  if shouldFailSave m
  then ({| saveCount := count; loadCount := loadCount m;
           shouldFailSave := shouldFailSave m;
           shouldFailLoad := shouldFailLoad m;
           snapshot := snapshot m; saveCalls := calls |},
        Some (ErrorNew "mock save error"))
  else ({| saveCount := count; loadCount := loadCount m;
           shouldFailSave := shouldFailSave m;
           shouldFailLoad := shouldFailLoad m;
           snapshot := snap; saveCalls := calls |},
        None).

Definition Load (m : t) (ctx : Context) : t * (error + StoreSnapshot) :=
  let m := {| saveCount := saveCount m;
              loadCount := wrap64 (loadCount m + 1);
              shouldFailSave := shouldFailSave m;
              shouldFailLoad := shouldFailLoad m;
              snapshot := snapshot m; saveCalls := saveCalls m |} in
  if shouldFailLoad m then (m, inl (ErrorNew "mock load error"))
  else match snapshot m with
       | None => (m, inl ErrNoSnapshotFound)
       | Some s => (m, inr s)
       end.

Definition setFailSave (m : t) (fail : bool) : t :=
  {| saveCount := saveCount m; loadCount := loadCount m;
     shouldFailSave := fail; shouldFailLoad := shouldFailLoad m;
     snapshot := snapshot m; saveCalls := saveCalls m |}.

End mockPersistence.

#[global] Instance mockPersistence_Persistence
  : Persistence mockPersistence.t := {|
  Save := mockPersistence.Save;
  Load := mockPersistence.Load
|}.


(* ===================================================================== *)
(** ** persistent_store.go                                                *)
(* ===================================================================== *)

Record PersistentStoreConfig : Type := mkConfig {
  AutoSave : bool;
  SaveInterval : Z;
  SaveOnShutdown : bool;
  RetryAttempts : Z;
  RetryDelay : Z
}.

Definition second : Z := 1000000000.

(** [DefaultPersistentStoreConfig] *)
Definition DefaultPersistentStoreConfig : PersistentStoreConfig :=
  {| AutoSave := true; SaveInterval := 30 * second; SaveOnShutdown := true;
     RetryAttempts := 3; RetryDelay := 1 * second |}.

Module PersistentStore.

(** The struct [PersistentStore] over a store state [S] and a persistence
    state [P]. [periodicSaveTimer] is [None] for the [nil] timer and
    [Some armed] otherwise; [shutdownOnce] is whether the [sync.Once] has
    run; [worker] is whether the [saveProcessor] goroutine counted by
    [wg] is still running. Log calls have no effect on the state. *)
Record t (S P : Type) : Type := mk {
  store : S;
  persistence : P;
  config : PersistentStoreConfig;
  saveChannel : chan;
  periodicSaveTimer : option bool;
  shutdownOnce : bool;
  closed : bool;
  worker : bool
}.
Arguments mk {S P}.
Arguments store {S P}.
Arguments persistence {S P}.
Arguments config {S P}.
Arguments saveChannel {S P}.
Arguments periodicSaveTimer {S P}.
Arguments shutdownOnce {S P}.
Arguments closed {S P}.
Arguments worker {S P}.

Section WithBackends.
Context {S P : Type} `{Store S} `{Persistence P}.

Definition with_store (ps : t S P) (s : S) : t S P :=
  mk s (persistence ps) (config ps) (saveChannel ps) (periodicSaveTimer ps)
     (shutdownOnce ps) (closed ps) (worker ps).

Definition with_persistence (ps : t S P) (p : P) : t S P :=
  mk (store ps) p (config ps) (saveChannel ps) (periodicSaveTimer ps)
     (shutdownOnce ps) (closed ps) (worker ps).

Definition with_saveChannel (ps : t S P) (ch : chan) : t S P :=
  mk (store ps) (persistence ps) (config ps) ch (periodicSaveTimer ps)
     (shutdownOnce ps) (closed ps) (worker ps).

Definition with_timer (ps : t S P) (tm : option bool) : t S P :=
  mk (store ps) (persistence ps) (config ps) (saveChannel ps) tm
     (shutdownOnce ps) (closed ps) (worker ps).

Definition with_worker (ps : t S P) (w : bool) : t S P :=
  mk (store ps) (persistence ps) (config ps) (saveChannel ps)
     (periodicSaveTimer ps) (shutdownOnce ps) (closed ps) w.

(** [time.Now().Unix()] *)
Definition Unix (now : Time) : Z := now / second.

(** [loadData]; [nows k] is the clock reading of the [Set] of key [k]. *)
Definition loadData (ps : t S P) (nows : string -> Time)
  : t S P * option error :=
  let '(p, r) := Load (persistence ps) Background in
  let ps := with_persistence ps p in
  match r with
  | inl err =>
      if decide (err = ErrNoSnapshotFound) then (ps, None)
      else (ps, Some (Errorf "failed to load snapshot: %w" err))
  | inr snapshot =>
      let entries := default ∅ (SnapData snapshot) in
      let s :=
        map_fold (fun key value s => (SetKey s Background (nows key) key value).1)
                 (store ps) entries in
      (with_store ps s, None)
  end.

(** [createSnapshot] *)
Definition createSnapshot (ps : t S P) (now : Time)
  : t S P * (error + StoreSnapshot) :=
  let '(s, entries, err) := ListEntries (store ps) Background in
  let ps := with_store ps s in
  match err with
  | Some err => (ps, inl (Errorf "failed to list entries: %w" err))
  | None =>
      let data :=
        foldl (fun (d : gmap string string) entry =>
                 <[EKey entry := Data (EValue entry)]> d)
              ∅ (default [] entries) in
      (ps, inr {| SnapData := Some data;
                  SnapStats :=
                    {| TotalKeys := Z.of_nat (size data); TotalRequests := 0;
                       GetRequests := 0; SetRequests := 0;
                       DeleteRequests := 0 |};
                  SnapVersion := "1.0";
                  SnapTimestamp := Unix now |})
  end.

(** The loop of [saveWithRetry] with [n] attempts left: [None] when an
    attempt succeeded, [Some lastErr] when the attempts are used up.
    [time.Sleep] between two attempts changes no state. *)
Fixpoint save_attempts (n : nat) (p : P) (snapshot : StoreSnapshot)
    (lastErr : option error) : P * option (option error) :=
  match n with
  | O => (p, Some lastErr)
  | Datatypes.S n' =>
      let '(p, err) := Save p Background (Some snapshot) in
      match err with
      | None => (p, None)
      | Some e => save_attempts n' p snapshot (Some e)
      end
  end.

(** [saveWithRetry]: attempts [0 .. RetryAttempts]. *)
Definition saveWithRetry (ps : t S P) (snapshot : StoreSnapshot)
  : t S P * option error :=
  let n := Z.to_nat (RetryAttempts (config ps) + 1) in
  let '(p, r) := save_attempts n (persistence ps) snapshot None in
  let ps := with_persistence ps p in
  match r with
  | None => (ps, None)
  | Some (Some e) =>
      (ps, Some (Errorf "failed to save after %d attempts: %w" e))
  | Some None => (ps, Some (ErrorNew "failed to save after %d attempts: %w"))
  end.

(** What [triggerSave] did with its signal. *)
Inductive trigger_outcome : Type :=
| StoreIsClosed
| Signal (o : send_outcome).

(** [triggerSave] *)
Definition triggerSave (ps : t S P) : t S P * trigger_outcome :=
  if closed ps then (ps, StoreIsClosed)
  else
    let '(ch, o) := select_send (saveChannel ps) in
    (with_saveChannel ps ch, Signal o).

(** What one turn of the loop of [saveProcessor] did. *)
Inductive worker_outcome : Type :=
| Idle
| Flushed (result : option error)
| SnapshotFailed (err : error)
| Returned.

(** One turn of [for range ps.saveChannel] in [saveProcessor]. *)
Definition saveProcessor_recv (ps : t S P) (now : Time)
  : t S P * worker_outcome :=
  if negb (worker ps) then (ps, Idle)
  else
    let '(ch, o) := range_recv (saveChannel ps) in
    let ps := with_saveChannel ps ch in
    match o with
    | WouldWait => (ps, Idle)
    | RangeDone => (with_worker ps false, Returned)
    | Received =>
        if closed ps then (with_worker ps false, Returned)
        else
          let '(ps, r) := createSnapshot ps now in
          match r with
          | inl err => (ps, SnapshotFailed err)
          | inr snapshot =>
              let '(ps, err) := saveWithRetry ps snapshot in
              (ps, Flushed err)
          end
    end.

(** [startPeriodicSave] *)
Definition startPeriodicSave (ps : t S P) : t S P :=
  if closed ps then ps else with_timer ps (Some true).

(** The function given to [time.AfterFunc], run when the timer fires. *)
Definition timer_fire (ps : t S P) : t S P :=
  match periodicSaveTimer ps with
  | Some true =>
      let ps := with_timer ps (Some false) in
      let ps := (triggerSave ps).1 in
      if negb (closed ps) then startPeriodicSave ps else ps
  | _ => ps
  end.

(** The part of [NewPersistentStore] after the [nil] checks. *)
Definition initialise (s : S) (p : P) (cfg : PersistentStoreConfig)
    (nows : string -> Time) : t S P :=
  let cfg :=
    {| AutoSave := AutoSave cfg;
       SaveInterval :=
         if SaveInterval cfg =? 0 then 30 * second else SaveInterval cfg;
       SaveOnShutdown := SaveOnShutdown cfg;
       RetryAttempts :=
         if RetryAttempts cfg =? 0 then 3 else RetryAttempts cfg;
       RetryDelay :=
         if RetryDelay cfg =? 0 then 1 * second else RetryDelay cfg |} in
  let ps := mk s p cfg (make_chan 100) None false false false in
  let ps := (loadData ps nows).1 in
  let ps := with_worker ps true in
  if 0 <? SaveInterval cfg then startPeriodicSave ps else ps.

(** [NewPersistentStore]; [None] arguments are the [nil] interfaces. *)
Definition NewPersistentStore (s : option S) (p : option P)
    (cfg : PersistentStoreConfig) (nows : string -> Time)
  : option (t S P) * option error :=
  match s with
  | None => (None, Some (ErrorNew "store cannot be nil"))
  | Some s =>
  match p with
  | None => (None, Some (ErrorNew "persistence cannot be nil"))
  | Some p => (Some (initialise s p cfg nows), None)
  end end.


(** The methods of the interface [Store]. *)

(** [Get] *)
Definition Get (ps : t S P) (ctx : Context) (key : Key)
  : t S P * Value * option error :=
  if closed ps then (ps, zeroValue, Some ErrStoreClosed)
  else
    let '(s, v, err) := Get (store ps) ctx key in
    (with_store ps s, v, err).

(** [Set] *)
Definition SetKey (ps : t S P) (ctx : Context) (now : Time) (key : Key)
    (value : string) : t S P * option error :=
  if closed ps then (ps, Some ErrStoreClosed)
  else
    let '(s, err) := SetKey (store ps) ctx now key value in
    let ps := with_store ps s in
    match err with
    | Some err => (ps, Some err)
    | None =>
        let ps := if AutoSave (config ps) then (triggerSave ps).1 else ps in
        (ps, None)
    end.

(** [Delete] *)
Definition Delete (ps : t S P) (ctx : Context) (key : Key)
  : t S P * Value * option error :=
  if closed ps then (ps, zeroValue, Some ErrStoreClosed)
  else
    let '(s, value, err) := Delete (store ps) ctx key in
    let ps := with_store ps s in
    match err with
    | Some err => (ps, value, Some err)
    | None =>
        let ps := if AutoSave (config ps) then (triggerSave ps).1 else ps in
        (ps, value, None)
    end.

(** [List] *)
Definition List (ps : t S P) (ctx : Context)
  : t S P * option (list Key) * option error :=
  if closed ps then (ps, None, Some ErrStoreClosed)
  else
    let '(s, keys, err) := List (store ps) ctx in
    (with_store ps s, keys, err).

(** [ListEntries] *)
Definition ListEntries (ps : t S P) (ctx : Context)
  : t S P * option (list Entry) * option error :=
  if closed ps then (ps, None, Some ErrStoreClosed)
  else
    let '(s, entries, err) := ListEntries (store ps) ctx in
    (with_store ps s, entries, err).

(** [Size] *)
Definition Size (ps : t S P) (ctx : Context) : t S P * Z * option error :=
  if closed ps then (ps, 0, Some ErrStoreClosed)
  else
    let '(s, n, err) := Size (store ps) ctx in
    (with_store ps s, n, err).

(** [Clear] *)
Definition Clear (ps : t S P) (ctx : Context) : t S P * option error :=
  if closed ps then (ps, Some ErrStoreClosed)
  else
    let '(s, err) := Clear (store ps) ctx in
    let ps := with_store ps s in
    match err with
    | Some err => (ps, Some err)
    | None =>
        let ps := if AutoSave (config ps) then (triggerSave ps).1 else ps in
        (ps, None)
    end.

(** [Exists] *)
Definition Exists (ps : t S P) (ctx : Context) (key : Key)
  : t S P * bool * option error :=
  if closed ps then (ps, false, Some ErrStoreClosed)
  else
    let '(s, b, err) := Exists (store ps) ctx key in
    (with_store ps s, b, err).

(** [CompareAndSwap] *)
Definition CompareAndSwap (ps : t S P) (ctx : Context) (now : Time)
    (key : Key) (expectedVersion : Z) (newValue : string)
  : t S P * Value * option error :=
  if closed ps then (ps, zeroValue, Some ErrStoreClosed)
  else
    let '(s, value, err) :=
      CompareAndSwap (store ps) ctx now key expectedVersion newValue in
    let ps := with_store ps s in
    match err with
    | Some err => (ps, value, Some err)
    | None =>
        let ps := if AutoSave (config ps) then (triggerSave ps).1 else ps in
        (ps, value, None)
    end.

(** The body run by [shutdownOnce.Do] in [Close], in its steps. First
    the store is marked closed and the timer stopped. *)
Definition mark_closed (ps : t S P) : t S P :=
  mk (store ps) (persistence ps) (config ps) (saveChannel ps)
     (match periodicSaveTimer ps with
      | Some _ => Some false
      | None => None
      end)
     true true (worker ps).

(** Then the final save, if configured: its error is the [closeErr] of
    [Close]; a failure to build the snapshot is only logged. *)
Definition final_save (ps : t S P) (now : Time) : t S P * option error :=
  if SaveOnShutdown (config ps) then
    let '(ps, r) := createSnapshot ps now in
    match r with
    | inl _ => (ps, None)
    | inr snapshot => saveWithRetry ps snapshot
    end
  else (ps, None).

(** Then the channel is closed, [wg.Wait()] returns once [saveProcessor]
    has left its loop (on a closed store and a closed channel its next
    turn does), and the store underneath is closed. *)
Definition shutdown (ps : t S P) (now : Time) : t S P * option error :=
  let ps := mark_closed ps in
  let '(ps, closeErr) := final_save ps now in
  let ps := with_saveChannel ps (close_chan (saveChannel ps)) in
  let ps := (saveProcessor_recv ps now).1 in
  let '(s, err) := Close (store ps) now in
  let ps := with_store ps s in
  (ps, match err with
       | Some err => match closeErr with
                     | None => Some err
                     | Some _ => closeErr
                     end
       | None => closeErr
       end).

(** [Close] *)
Definition Close (ps : t S P) (now : Time) : t S P * option error :=
  if shutdownOnce ps then (ps, None) else shutdown ps now.

End WithBackends.

End PersistentStore.

#[global] Instance PersistentStore_Store {S P : Type} `{Store S} `{Persistence P}
  : Store (PersistentStore.t S P) := {|
  Get := PersistentStore.Get;
  SetKey := PersistentStore.SetKey;
  Delete := PersistentStore.Delete;
  List := PersistentStore.List;
  ListEntries := PersistentStore.ListEntries;
  Size := PersistentStore.Size;
  Clear := PersistentStore.Clear;
  Exists := PersistentStore.Exists;
  CompareAndSwap := PersistentStore.CompareAndSwap;
  Close := PersistentStore.Close
|}.


(* ===================================================================== *)
(** ** An instance of the [JSON] interface                                *)
(* ===================================================================== *)

(** A reader and a writer of JSON documents (RFC 8259) for snapshots,
    used to run [Save] and [Load] on concrete files. The writer lays the
    document out as [json.MarshalIndent(snapshot, EmptyString, "  ")] does; both
    sides are restricted to 7-bit strings and integer numbers and report
    an error outside that fragment. *)
Module AsciiJSON.

Local Unset Elimination Schemes.
Inductive json : Type :=
| JNull
| JBool (b : bool)
| JNum (z : Z)
| JStr (s : string)
| JArr (l : list json)
| JObj (l : list (string * json)).
Local Set Elimination Schemes.

Definition nl : string := String (ascii_of_nat 10) EmptyString.
Definition quote : string := String (ascii_of_nat 34) EmptyString.
Definition backslash : string := String (ascii_of_nat 92) EmptyString.

Definition is_ws (c : ascii) : bool :=
  let n := nat_of_ascii c in
  ((n =? 32) || (n =? 10) || (n =? 13) || (n =? 9))%nat.

Fixpoint skip_ws (s : string) : string :=
  match s with
  | String c r => if is_ws c then skip_ws r else s
  | EmptyString => EmptyString
  end.

Definition hex_value (c : ascii) : option N :=
  let n := N_of_ascii c in
  if ((48 <=? n) && (n <=? 57))%N then Some (n - 48)%N
  else if ((97 <=? n) && (n <=? 102))%N then Some (n - 87)%N
  else if ((65 <=? n) && (n <=? 70))%N then Some (n - 55)%N
  else None.

Definition hex4 (a b c d : ascii) : option N :=
  match hex_value a, hex_value b, hex_value c, hex_value d with
  | Some x, Some y, Some z, Some w =>
      Some (((x * 16 + y) * 16 + z) * 16 + w)%N
  | _, _, _, _ => None
  end.

(** The characters of a string literal after its opening quote, and the
    input after its closing quote. *)
Fixpoint read_chars (s : string) : option (string * string) :=
  match s with
  | EmptyString => None
  | String c r =>
      let n := nat_of_ascii c in
      if (n =? 34)%nat then Some (EmptyString, r)
      else if (n =? 92)%nat then
        match r with
        | EmptyString => None
        | String e r1 =>
            let simple (b : nat) :=
              match read_chars r1 with
              | Some (str, rest) => Some (String (ascii_of_nat b) str, rest)
              | None => None
              end in
            let m := nat_of_ascii e in
            if (m =? 34)%nat then simple 34%nat
            else if (m =? 92)%nat then simple 92%nat
            else if (m =? 47)%nat then simple 47%nat
            else if (m =? 98)%nat then simple 8%nat
            else if (m =? 102)%nat then simple 12%nat
            else if (m =? 110)%nat then simple 10%nat
            else if (m =? 114)%nat then simple 13%nat
            else if (m =? 116)%nat then simple 9%nat
            else if (m =? 117)%nat then
              match r1 with
              | String h1 (String h2 (String h3 (String h4 r2))) =>
                  match hex4 h1 h2 h3 h4 with
                  | Some code =>
                      if (code <? 128)%N then
                        match read_chars r2 with
                        | Some (str, rest) =>
                            Some (String (ascii_of_N code) str, rest)
                        | None => None
                        end
                      else None
                  | None => None
                  end
              | _ => None
              end
            else None
        end
      else if (n <? 32)%nat then None
      else if (127 <? n)%nat then None
      else match read_chars r with
           | Some (str, rest) => Some (String c str, rest)
           | None => None
           end
  end.

Definition is_digit (c : ascii) : bool :=
  let n := nat_of_ascii c in ((48 <=? n) && (n <=? 57))%nat.

Fixpoint read_digits (s : string) (acc : Z) : Z * string :=
  match s with
  | String c r =>
      if is_digit c
      then read_digits r (acc * 10 + (Z.of_nat (nat_of_ascii c) - 48))
      else (acc, s)
  | EmptyString => (acc, s)
  end.

Definition ends_number (s : string) : bool :=
  match s with
  | String c _ =>
      let n := nat_of_ascii c in
      negb ((n =? 46) || (n =? 101) || (n =? 69))%nat
  | EmptyString => true
  end.

(** An integer literal: an optional sign, no leading zero, no fraction
    and no exponent. *)
Definition read_unsigned (s : string) : option (Z * string) :=
  match s with
  | String c r =>
      if is_digit c then
        if (nat_of_ascii c =? 48)%nat then
          match r with
          | String d _ =>
              if is_digit d then None
              else if ends_number r then Some (0, r) else None
          | EmptyString => Some (0, r)
          end
        else
          let '(z, rest) := read_digits s 0 in
          if ends_number rest then Some (z, rest) else None
      else None
  | EmptyString => None
  end.

Definition read_number (s : string) : option (Z * string) :=
  match s with
  | String c r =>
      if (nat_of_ascii c =? 45)%nat then
        match read_unsigned r with
        | Some (z, rest) => Some (- z, rest)
        | None => None
        end
      else read_unsigned s
  | EmptyString => None
  end.

Fixpoint strip_prefix (p s : string) : option string :=
  match p with
  | EmptyString => Some s
  | String a p' =>
      match s with
      | String b s' => if Ascii.eqb a b then strip_prefix p' s' else None
      | EmptyString => None
      end
  end.

(** A JSON value at the head of the input, with the input left. *)
Fixpoint read_value (fuel : nat) (s : string) {struct fuel}
  : option (json * string) :=
  match fuel with
  | O => None
  | Datatypes.S fuel =>
      let s := skip_ws s in
      match s with
      | EmptyString => None
      | String c r =>
          let n := nat_of_ascii c in
          if (n =? 123)%nat then
            match strip_prefix "}" (skip_ws r) with
            | Some rest => Some (JObj [], rest)
            | None => read_members fuel r []
            end
          else if (n =? 91)%nat then
            match strip_prefix "]" (skip_ws r) with
            | Some rest => Some (JArr [], rest)
            | None => read_elements fuel r []
            end
          else if (n =? 34)%nat then
            match read_chars r with
            | Some (str, rest) => Some (JStr str, rest)
            | None => None
            end
          else
            match strip_prefix "true" s with
            | Some rest => Some (JBool true, rest)
            | None =>
            match strip_prefix "false" s with
            | Some rest => Some (JBool false, rest)
            | None =>
            match strip_prefix "null" s with
            | Some rest => Some (JNull, rest)
            | None =>
            match read_number s with
            | Some (z, rest) => Some (JNum z, rest)
            | None => None
            end end end end
      end
  end
with read_members (fuel : nat) (s : string) (acc : list (string * json))
    {struct fuel} : option (json * string) :=
  match fuel with
  | O => None
  | Datatypes.S fuel =>
      match strip_prefix quote (skip_ws s) with
      | None => None
      | Some r =>
      match read_chars r with
      | None => None
      | Some (k, r1) =>
      match strip_prefix ":" (skip_ws r1) with
      | None => None
      | Some r2 =>
      match read_value fuel r2 with
      | None => None
      | Some (v, r3) =>
          let acc := acc ++ [(k, v)] in
          match strip_prefix "," (skip_ws r3) with
          | Some r4 => read_members fuel r4 acc
          | None =>
              match strip_prefix "}" (skip_ws r3) with
              | Some r4 => Some (JObj acc, r4)
              | None => None
              end
          end
      end end end end
  end
with read_elements (fuel : nat) (s : string) (acc : list json)
    {struct fuel} : option (json * string) :=
  match fuel with
  | O => None
  | Datatypes.S fuel =>
      match read_value fuel s with
      | None => None
      | Some (v, r1) =>
          let acc := acc ++ [v] in
          match strip_prefix "," (skip_ws r1) with
          | Some r2 => read_elements fuel r2 acc
          | None =>
              match strip_prefix "]" (skip_ws r1) with
              | Some r2 => Some (JArr acc, r2)
              | None => None
              end
          end
      end
  end.

(** A whole document: one value and nothing but white space after it. *)
Definition read_document (s : string) : option json :=
  match read_value (Datatypes.S (String.length s)) s with
  | Some (v, rest) =>
      match skip_ws rest with
      | EmptyString => Some v
      | _ => None
      end
  | None => None
  end.

Definition lower (c : ascii) : ascii :=
  let n := nat_of_ascii c in
  if ((65 <=? n) && (n <=? 90))%nat then ascii_of_nat (n + 32) else c.

Fixpoint lower_string (s : string) : string :=
  match s with
  | EmptyString => EmptyString
  | String c r => String (lower c) (lower_string r)
  end.

(** A member names a struct field when it equals the field's tag up to
    the case of its letters. *)
Definition names (key tag : string) : bool :=
  String.eqb (lower_string key) tag.

Definition fits_int64 (z : Z) : bool := (min_int64 <=? z) && (z <=? max_int64).

(** A JSON value into an integer field: [null] leaves the field as it is. *)
Definition into_int (j : json) (cur : Z) : option Z :=
  match j with
  | JNum z => if fits_int64 z then Some z else None
  | JNull => Some cur
  | _ => None
  end.

Definition into_string (j : json) (cur : string) : option string :=
  match j with
  | JStr s => Some s
  | JNull => Some cur
  | _ => None
  end.

Fixpoint into_entries (l : list (string * json)) (m : gmap string string)
  : option (gmap string string) :=
  match l with
  | [] => Some m
  | (k, v) :: rest =>
      match into_string v EmptyString with
      | Some s => into_entries rest (<[k := s]> m)
      | None => None
      end
  end.

Definition into_map (j : json) (cur : option (gmap string string))
  : option (option (gmap string string)) :=
  match j with
  | JObj l =>
      match into_entries l (default ∅ cur) with
      | Some m => Some (Some m)
      | None => None
      end
  | JNull => Some None
  | _ => None
  end.

Fixpoint into_stats_fields (l : list (string * json)) (st : StoreStats)
  : option StoreStats :=
  match l with
  | [] => Some st
  | (k, v) :: rest =>
      let next (st : option StoreStats) :=
        match st with
        | Some st => into_stats_fields rest st
        | None => None
        end in
      if names k "total_keys" then
        next (z ← into_int v (TotalKeys st);
              Some (mkStats z (TotalRequests st) (GetRequests st)
                            (SetRequests st) (DeleteRequests st)))
      else if names k "total_requests" then
        next (z ← into_int v (TotalRequests st);
              Some (mkStats (TotalKeys st) z (GetRequests st)
                            (SetRequests st) (DeleteRequests st)))
      else if names k "get_requests" then
        next (z ← into_int v (GetRequests st);
              Some (mkStats (TotalKeys st) (TotalRequests st) z
                            (SetRequests st) (DeleteRequests st)))
      else if names k "set_requests" then
        next (z ← into_int v (SetRequests st);
              Some (mkStats (TotalKeys st) (TotalRequests st)
                            (GetRequests st) z (DeleteRequests st)))
      else if names k "delete_requests" then
        next (z ← into_int v (DeleteRequests st);
              Some (mkStats (TotalKeys st) (TotalRequests st)
                            (GetRequests st) (SetRequests st) z))
      else into_stats_fields rest st
  end.

Definition into_stats (j : json) (cur : StoreStats) : option StoreStats :=
  match j with
  | JObj l => into_stats_fields l cur
  | JNull => Some cur
  | _ => None
  end.

Fixpoint into_snapshot_fields (l : list (string * json)) (s : StoreSnapshot)
  : option StoreSnapshot :=
  match l with
  | [] => Some s
  | (k, v) :: rest =>
      let next (s : option StoreSnapshot) :=
        match s with
        | Some s => into_snapshot_fields rest s
        | None => None
        end in
      if names k "data" then
        next (m ← into_map v (SnapData s);
              Some (mkSnapshot m (SnapStats s) (SnapVersion s)
                               (SnapTimestamp s)))
      else if names k "stats" then
        next (st ← into_stats v (SnapStats s);
              Some (mkSnapshot (SnapData s) st (SnapVersion s)
                               (SnapTimestamp s)))
      else if names k "version" then
        next (str ← into_string v (SnapVersion s);
              Some (mkSnapshot (SnapData s) (SnapStats s) str
                               (SnapTimestamp s)))
      else if names k "timestamp" then
        next (z ← into_int v (SnapTimestamp s);
              Some (mkSnapshot (SnapData s) (SnapStats s) (SnapVersion s) z))
      else into_snapshot_fields rest s
  end.

(** [var snapshot StoreSnapshot] *)
Definition zeroSnapshot : StoreSnapshot :=
  {| SnapData := None; SnapStats := zeroStats; SnapVersion := EmptyString;
     SnapTimestamp := 0 |}.

Definition Unmarshal (content : string) : error + StoreSnapshot :=
  match read_document content with
  | None => inl (SysError "json: syntax error")
  | Some JNull => inr zeroSnapshot
  | Some (JObj l) =>
      match into_snapshot_fields l zeroSnapshot with
      | Some s => inr s
      | None => inl (SysError "json: cannot unmarshal value into Go struct field")
      end
  | Some _ => inl (SysError "json: cannot unmarshal value into Go value of type store.StoreSnapshot")
  end.

(** The writer. *)

Definition write_char (c : ascii) : option string :=
  let n := nat_of_ascii c in
  if (127 <? n)%nat then None
  else if (n =? 34)%nat then Some (backslash +:+ quote)
  else if (n =? 92)%nat then Some (backslash +:+ backslash)
  else if (n =? 10)%nat then Some (backslash +:+ "n")
  else if (n =? 13)%nat then Some (backslash +:+ "r")
  else if (n =? 9)%nat then Some (backslash +:+ "t")
  else if ((n <? 32) || (n =? 60) || (n =? 62) || (n =? 38))%nat then
    Some (backslash +:+ "u00" +:+ hex_EncodeToString (String c EmptyString))
  else Some (String c EmptyString).

Fixpoint write_chars (s : string) : option string :=
  match s with
  | EmptyString => Some EmptyString
  | String c r =>
      match write_char c, write_chars r with
      | Some a, Some b => Some (a +:+ b)
      | _, _ => None
      end
  end.

Definition write_string (s : string) : option string :=
  match write_chars s with
  | Some body => Some (quote +:+ body +:+ quote)
  | None => None
  end.

Definition write_int (z : Z) : string := NilZero.string_of_int (Z.to_int z).

Fixpoint insert_sorted (kv : string * string) (l : list (string * string))
  : list (string * string) :=
  match l with
  | [] => [kv]
  | kv' :: rest =>
      if String.leb kv.1 kv'.1 then kv :: l
      else kv' :: insert_sorted kv rest
  end.

Definition sort_keys (l : list (string * string)) : list (string * string) :=
  foldr insert_sorted [] l.

Fixpoint write_entries (l : list (string * string)) : option string :=
  match l with
  | [] => Some EmptyString
  | (k, v) :: rest =>
      match write_string k, write_string v, write_entries rest with
      | Some k', Some v', Some tail =>
          Some (nl +:+ "    " +:+ k' +:+ ": " +:+ v'
                +:+ (match rest with [] => EmptyString | _ => "," end) +:+ tail)
      | _, _, _ => None
      end
  end.

Definition write_map (m : option (gmap string string)) : option string :=
  match m with
  | None => Some "null"
  | Some m =>
      match sort_keys (map_to_list m) with
      | [] => Some "{}"
      | l =>
          match write_entries l with
          | Some body => Some ("{" +:+ body +:+ nl +:+ "  }")
          | None => None
          end
      end
  end.

Definition write_stats (st : StoreStats) : string :=
  "{" +:+ nl
  +:+ "    " +:+ quote +:+ "total_keys" +:+ quote +:+ ": "
  +:+ write_int (TotalKeys st) +:+ "," +:+ nl
  +:+ "    " +:+ quote +:+ "total_requests" +:+ quote +:+ ": "
  +:+ write_int (TotalRequests st) +:+ "," +:+ nl
  +:+ "    " +:+ quote +:+ "get_requests" +:+ quote +:+ ": "
  +:+ write_int (GetRequests st) +:+ "," +:+ nl
  +:+ "    " +:+ quote +:+ "set_requests" +:+ quote +:+ ": "
  +:+ write_int (SetRequests st) +:+ "," +:+ nl
  +:+ "    " +:+ quote +:+ "delete_requests" +:+ quote +:+ ": "
  +:+ write_int (DeleteRequests st) +:+ nl
  +:+ "  }".

Definition MarshalIndent (s : StoreSnapshot) : error + string :=
  match write_map (SnapData s), write_string (SnapVersion s) with
  | Some data, Some version =>
      inr ("{" +:+ nl
           +:+ "  " +:+ quote +:+ "data" +:+ quote +:+ ": " +:+ data
           +:+ "," +:+ nl
           +:+ "  " +:+ quote +:+ "stats" +:+ quote +:+ ": "
           +:+ write_stats (SnapStats s) +:+ "," +:+ nl
           +:+ "  " +:+ quote +:+ "version" +:+ quote +:+ ": " +:+ version
           +:+ "," +:+ nl
           +:+ "  " +:+ quote +:+ "timestamp" +:+ quote +:+ ": "
           +:+ write_int (SnapTimestamp s) +:+ nl
           +:+ "}")
  | _, _ => inl (SysError "json: string outside the 7-bit fragment")
  end.

End AsciiJSON.

Definition AsciiJSON_JSON : JSON := {|
  MarshalIndent := AsciiJSON.MarshalIndent;
  Unmarshal := AsciiJSON.Unmarshal
|}.


(* ===================================================================== *)
(** ** Runs: sequences of calls against a store                           *)
(* ===================================================================== *)

(** A call of one method of the [Store] interface with its arguments. *)
Inductive op : Type :=
| OpGet (ctx : Context) (key : Key)
| OpSet (ctx : Context) (key : Key) (value : string)
| OpDelete (ctx : Context) (key : Key)
| OpList (ctx : Context)
| OpListEntries (ctx : Context)
| OpSize (ctx : Context)
| OpClear (ctx : Context)
| OpExists (ctx : Context) (key : Key)
| OpCAS (ctx : Context) (key : Key) (expectedVersion : Z) (newValue : string)
| OpClose.

(** What the caller gets back. *)
Inductive result : Type :=
| RValue (v : Value) (err : option error)
| RError (err : option error)
| RKeys (keys : option (list Key)) (err : option error)
| REntries (entries : option (list Entry)) (err : option error)
| RSize (n : Z) (err : option error)
| RBool (b : bool) (err : option error).

Definition result_err (r : result) : option error :=
  match r with
  | RValue _ e | RError e | RKeys _ e | REntries _ e | RSize _ e | RBool _ e => e
  end.

(** One call at clock reading [now], on any implementation of [Store]. *)
Definition call {S : Type} `{Store S} (s : S) (now : Time) (o : op)
  : S * result :=
  match o with
  | OpGet ctx key => let '(s, v, e) := Get s ctx key in (s, RValue v e)
  | OpSet ctx key value =>
      let '(s, e) := SetKey s ctx now key value in (s, RError e)
  | OpDelete ctx key => let '(s, v, e) := Delete s ctx key in (s, RValue v e)
  | OpList ctx => let '(s, ks, e) := List s ctx in (s, RKeys ks e)
  | OpListEntries ctx =>
      let '(s, es, e) := ListEntries s ctx in (s, REntries es e)
  | OpSize ctx => let '(s, n, e) := Size s ctx in (s, RSize n e)
  | OpClear ctx => let '(s, e) := Clear s ctx in (s, RError e)
  | OpExists ctx key => let '(s, b, e) := Exists s ctx key in (s, RBool b e)
  | OpCAS ctx key expectedVersion newValue =>
      let '(s, v, e) := CompareAndSwap s ctx now key expectedVersion newValue in
      (s, RValue v e)
  | OpClose => let '(s, e) := Close s now in (s, RError e)
  end.

(** A run: the calls in order, each with the clock reading it makes. *)
Fixpoint run {S : Type} `{Store S} (s : S) (calls : list (Time * op))
  : S * list result :=
  match calls with
  | [] => (s, [])
  | (now, o) :: rest =>
      let '(s, r) := call s now o in
      let '(s, rs) := run s rest in
      (s, r :: rs)
  end.

(** The clock never goes back: the readings of a run, from [t0] on. *)
Fixpoint clock_monotone (t0 : Time) (calls : list (Time * op)) : Prop :=
  match calls with
  | [] => True
  | (now, _) :: rest => t0 <= now /\ clock_monotone now rest
  end.

(** A successful [Set] or [CompareAndSwap] of [key]. *)
Definition mutates (o : op) (key : Key) : Prop :=
  match o with
  | OpSet _ k _ | OpCAS _ k _ _ => k = key
  | _ => False
  end.

(** What happens around a durable store: a call of the interface, a turn
    of the [saveProcessor] goroutine, or the periodic timer firing. *)
Inductive event : Type :=
| Call (now : Time) (o : op)
| WorkerTurn (now : Time)
| TimerFires.

Definition durable_step {S P : Type} `{Store S} `{Persistence P}
    (ps : PersistentStore.t S P) (e : event)
  : PersistentStore.t S P * option result :=
  match e with
  | Call now o => let '(ps, r) := call ps now o in (ps, Some r)
  | WorkerTurn now => ((PersistentStore.saveProcessor_recv ps now).1, None)
  | TimerFires => (PersistentStore.timer_fire ps, None)
  end.

Fixpoint durable_run {S P : Type} `{Store S} `{Persistence P}
    (ps : PersistentStore.t S P) (es : list event)
  : PersistentStore.t S P * list result :=
  match es with
  | [] => (ps, [])
  | e :: rest =>
      let '(ps, r) := durable_step ps e in
      let '(ps, rs) := durable_run ps rest in
      (ps, match r with Some r => r :: rs | None => rs end)
  end.

(** The calls among the events. *)
Fixpoint calls_of (es : list event) : list (Time * op) :=
  match es with
  | [] => []
  | Call now o :: rest => (now, o) :: calls_of rest
  | _ :: rest => calls_of rest
  end.

Definition is_close (o : op) : bool :=
  match o with OpClose => true | _ => false end.

Fixpoint no_close (es : list event) : bool :=
  match es with
  | [] => true
  | Call _ o :: rest => negb (is_close o) && no_close rest
  | _ :: rest => no_close rest
  end.

(** The three ways a key fails [Key.Validate]. *)
Definition invalid_key (k : Key) : Prop :=
  k = EmptyString \/ (255 < String.length k)%nat
  \/ In Ascii.zero (list_ascii_of_string k).

(** The snapshots [Save] accepts. *)
Definition accepted (snap : StoreSnapshot) : Prop :=
  (exists m, SnapData snap = Some m)
  /\ SnapVersion snap <> EmptyString
  /\ 0 < SnapTimestamp snap.



(** Concrete objects of the scenarios. *)


(** Scenario C of the specification. *)
Definition scenarioC : StoreSnapshot :=
  {| SnapData := Some {[ "a" := "1"; "b" := "2" ]};
     SnapStats := zeroStats; SnapVersion := "1.0";
     SnapTimestamp := 1700000000 |}.


(** An operating system on which nothing fails. *)
Definition quiet_os : OSEnv :=
  {| filepath_Dir := fun _ => "."; MkdirAll_err := None;
     rand_Read := inr "abcdefgh"; WriteFile_fault := None;
     Rename_err := None; Remove_err := None; ReadFile_err := None |}.

(** A durable store as the tests build it: a fresh [MemoryStore] behind
    a [mockPersistence]. *)
Definition durable_over (p : mockPersistence.t) (cfg : PersistentStoreConfig)
  : PersistentStore.t MemoryStore.t mockPersistence.t :=
  PersistentStore.initialise MemoryStore.NewMemoryStore p cfg (fun _ => 0).

Definition fresh_durable (cfg : PersistentStoreConfig)
  : PersistentStore.t MemoryStore.t mockPersistence.t :=
  durable_over mockPersistence.newMockPersistence cfg.

(** The flags and the channel of a durable store that a step leaves
    alone. *)
Definition same_control {S P : Type} (ps ps' : PersistentStore.t S P) : Prop :=
  PersistentStore.config ps' = PersistentStore.config ps
  /\ PersistentStore.saveChannel ps' = PersistentStore.saveChannel ps
  /\ PersistentStore.periodicSaveTimer ps' = PersistentStore.periodicSaveTimer ps
  /\ PersistentStore.shutdownOnce ps' = PersistentStore.shutdownOnce ps
  /\ PersistentStore.closed ps' = PersistentStore.closed ps
  /\ PersistentStore.worker ps' = PersistentStore.worker ps.

(** The data a snapshot of a [MemoryStore] holds: the [Data] of each
    stored value. *)
Definition snapshot_data (ms : MemoryStore.t) : gmap string string :=
  Data <$> MemoryStore.data ms.

(** The value [Set] stores at clock reading [now], given what is stored. *)
Definition set_value (now : Time) (value : string) (existing : option Value)
  : Value :=
  match existing with
  | Some existingValue =>
      {| Data := value; CreatedAt := CreatedAt existingValue;
         UpdatedAt := now; Version := wrap64 (Version existingValue + 1) |}
  | None =>
      {| Data := value; CreatedAt := now; UpdatedAt := now; Version := 1 |}
  end.

(** The value a successful [CompareAndSwap] stores over [cur]. *)
Definition cas_value (now : Time) (newValue : string) (cur : Value) : Value :=
  {| Data := newValue; CreatedAt := CreatedAt cur; UpdatedAt := now;
     Version := wrap64 (Version cur + 1) |}.

(** How one call changes the map of a [MemoryStore]. *)
Inductive data_change (now : Time) (o : op) (r : result)
    (d d' : gmap string Value) : Prop :=
| change_none : d' = d -> data_change now o r d d'
| change_set ctx k value :
    o = OpSet ctx k value -> result_err r = None -> Validate k = None ->
    d' = <[k := set_value now value (d !! k)]> d ->
    data_change now o r d d'
| change_cas ctx k expectedVersion newValue cur :
    o = OpCAS ctx k expectedVersion newValue -> result_err r = None ->
    d !! k = Some cur -> Version cur = expectedVersion ->
    d' = <[k := cas_value now newValue cur]> d ->
    data_change now o r d d'
| change_delete ctx k :
    o = OpDelete ctx k -> d' = delete k d -> data_change now o r d d'
| change_clear ctx :
    o = OpClear ctx -> d' = ∅ -> data_change now o r d d'.


(** The invariant of the stored values: at clock reading [t], after at
    most [n] calls. *)
Definition values_ok (t : Time) (n : Z) (d : gmap string Value) : Prop :=
  forall k v, d !! k = Some v ->
    CreatedAt v <= UpdatedAt v /\ UpdatedAt v <= t /\ 1 <= Version v <= n.

(** The reading of the last call of a run that starts at [t0]. *)
Fixpoint last_reading (t0 : Time) (calls : list (Time * op)) : Time :=
  match calls with
  | [] => t0
  | (now, _) :: rest => last_reading now rest
  end.


(** What a method of [MemoryStore] checks before it looks at the closed
    flag: the key, then the context. *)
Definition op_precheck (o : op) : option error :=
  match o with
  | OpGet ctx k | OpSet ctx k _ | OpDelete ctx k | OpExists ctx k
  | OpCAS ctx k _ _ =>
      match Validate k with
      | Some e => Some e
      | None => ctx_Err ctx
      end
  | OpList ctx | OpListEntries ctx | OpSize ctx | OpClear ctx => ctx_Err ctx
  | OpClose => None
  end.

(** What the counters of a [MemoryStore] satisfy after at most [n]
    calls. *)
Definition stats_ok (n : Z) (ms : MemoryStore.t) : Prop :=
  let st := MemoryStore.stats ms in
  TotalKeys st = Z.of_nat (size (MemoryStore.data ms))
  /\ 0 <= GetRequests st /\ 0 <= SetRequests st /\ 0 <= DeleteRequests st
  /\ TotalRequests st = GetRequests st + SetRequests st + DeleteRequests st
  /\ TotalRequests st <= n.

(** Every stored key passes [Key.Validate]. *)
Definition keys_valid (d : gmap string Value) : Prop :=
  forall k v, d !! k = Some v -> Validate k = None.

(** An operating system on which [os.Rename] fails. *)
Definition rename_fails_os : OSEnv :=
  {| filepath_Dir := fun _ => "."; MkdirAll_err := None;
     rand_Read := inr "abcdefgh"; WriteFile_fault := None;
     Rename_err := Some (SysError "rename: permission denied");
     Remove_err := None; ReadFile_err := None |}.

(** A second snapshot for the scenarios. *)
Definition scenarioD : StoreSnapshot :=
  {| SnapData := Some {[ "c" := "3" ]};
     SnapStats := zeroStats; SnapVersion := "1.0";
     SnapTimestamp := 1700000100 |}.

(** What [loadData] leaves under key [k] of a store that held [old],
    given the loaded map [m]: the [Set] of a valid key of [m]. *)
Definition loaded_value (nows : string -> Time) (m : gmap string string)
    (old : gmap string Value) (k : string) : option Value :=
  match m !! k with
  | Some v =>
      match Validate k with
      | None => Some (set_value (nows k) v (old !! k))
      | Some _ => old !! k
      end
  | None => old !! k
  end.

(** What holds of the control state of a durable store in every state it
    reaches: the queue is within its capacity of 100, the channel is
    closed only on a closed store, and the store is closed exactly when
    its [Once] has run. *)
Definition control_ok {S P : Type} (ps : PersistentStore.t S P) : Prop :=
  chan_cap (PersistentStore.saveChannel ps) = 100%nat
  /\ (chan_len (PersistentStore.saveChannel ps) <= 100)%nat
  /\ (chan_closed (PersistentStore.saveChannel ps) = true ->
      PersistentStore.closed ps = true)
  /\ PersistentStore.closed ps = PersistentStore.shutdownOnce ps.

(* ===================================================================== *)
(** ** The HTTP API: [handlers.go], [router.go], [middleware.go]          *)
(* ===================================================================== *)

(** [strings.HasPrefix] *)
Fixpoint strings_HasPrefix (s prefix : string) {struct prefix} : bool :=
  match prefix with
  | EmptyString => true
  | String c prefix' =>
      match s with
      | String d s' => Ascii.eqb d c && strings_HasPrefix s' prefix'
      | EmptyString => false
      end
  end.

(** The slice [s[n:]]. *)
Fixpoint slice_from (s : string) (n : nat) {struct n} : string :=
  match n, s with
  | O, _ => s
  | Datatypes.S n', String _ s' => slice_from s' n'
  | Datatypes.S _, EmptyString => EmptyString
  end.

(** [strings.TrimPrefix] *)
Definition strings_TrimPrefix (s prefix : string) : string :=
  if strings_HasPrefix s prefix then slice_from s (String.length prefix)
  else s.

Module api.

(** The status codes of [net/http] the package uses. *)
Definition StatusOK : Z := 200.
Definition StatusCreated : Z := 201.
Definition StatusBadRequest : Z := 400.
Definition StatusNotFound : Z := 404.
Definition StatusMethodNotAllowed : Z := 405.
Definition StatusInternalServerError : Z := 500.

(** The methods of [net/http] the package names. *)
Definition MethodGet : string := "GET".
Definition MethodPost : string := "POST".
Definition MethodPut : string := "PUT".
Definition MethodDelete : string := "DELETE".
Definition MethodOptions : string := "OPTIONS".

(** The values the handlers give [writeJSON] to encode: the response
    types of [handlers.go] and the map literal of [HealthCheck]. *)
Inductive payload : Type :=
| ErrorResponse (Message Code : string)
| GetResponse (key : string) (value : Value)
| ListResponse (keys : list string)
| SetResponse (key : string) (value : Value) (created : bool)
| DeleteResponse (key : string) (value : Value) (deleted : bool)
| MapResponse (fields : gmap string string).

Record SetRequest : Type := mkSetRequest {
  ReqValue : string
}.

(** What the handlers read of an [*http.Request]. [ctx_at n] is the
    context made by [context.WithTimeout(r.Context(), 5*time.Second)] as
    the store call number [n] of the handler finds it: the deadline can
    pass, or the client go away, between two calls. *)
Record Request : Type := mkRequest {
  Method : string;
  URLPath : string;
  Body : string;
  ctx_at : nat -> Context
}.

(** What the handlers do to their [http.ResponseWriter]: the headers
    set, the status written, and the values encoded to the body. *)
Record ResponseWriter : Type := mkWriter {
  Header : gmap string string;
  Code : Z;
  Written : list payload
}.

(** [httptest.NewRecorder()], the writer of the tests. *)
Definition NewRecorder : ResponseWriter :=
  {| Header := ∅; Code := 200; Written := [] |}.

(** [w.Header().Set(key, value)] *)
Definition Header_Set (w : ResponseWriter) (key value : string)
  : ResponseWriter :=
  {| Header := <[key := value]> (Header w); Code := Code w;
     Written := Written w |}.

(** [w.WriteHeader(status)] *)
Definition WriteHeader (w : ResponseWriter) (status : Z) : ResponseWriter :=
  {| Header := Header w; Code := status; Written := Written w |}.

(** [json.NewEncoder(w).Encode(data)] *)
Definition Encode (w : ResponseWriter) (data : payload) : ResponseWriter :=
  {| Header := Header w; Code := Code w; Written := Written w ++ [data] |}.

(** [extractKey] *)
Definition extractKey (path : string) : string :=
  let prefix := "/api/kv/" in
  if strings_HasPrefix path prefix then strings_TrimPrefix path prefix
  else EmptyString.

(** [writeJSON] *)
Definition writeJSON (w : ResponseWriter) (status : Z) (data : payload)
  : ResponseWriter :=
  let w := Header_Set w "Content-Type" "application/json" in
  let w := WriteHeader w status in
  Encode w data.

(** [writeError] *)
Definition writeError (w : ResponseWriter) (status : Z) (message : string)
  : ResponseWriter :=
  writeJSON w status (ErrorResponse message EmptyString).

Section WithStore.
Context {S : Type} `{Store S}.

(** [json.NewDecoder(r.Body).Decode(&req)] on the body of a request;
    [encoding/json] is not part of the package. *)
Variable Decode : string -> error + SetRequest.

(** [Handler.GetKey] *)
Definition GetKey (s : S) (w : ResponseWriter) (r : Request)
  : S * ResponseWriter :=
  let key := extractKey (URLPath r) in
  if String.eqb key EmptyString
  then (s, writeError w StatusBadRequest "invalid key")
  else
  match Validate key with
  | Some _ => (s, writeError w StatusBadRequest "invalid key")
  | None =>
      let '(s, value, err) := Get s (ctx_at r 0) key in
      match err with
      | Some err =>
          if decide (err = ErrKeyNotFound)
          then (s, writeError w StatusNotFound "key not found")
          else (s, writeError w StatusInternalServerError
                     "internal server error")
      | None => (s, writeJSON w StatusOK (GetResponse key value))
      end
  end.

(** [Handler.SetKey] *)
Definition SetKey (s : S) (w : ResponseWriter) (r : Request) (now : Time)
  : S * ResponseWriter :=
  let key := extractKey (URLPath r) in
  if String.eqb key EmptyString
  then (s, writeError w StatusBadRequest "invalid key")
  else
  match Validate key with
  | Some _ => (s, writeError w StatusBadRequest "invalid key")
  | None =>
  match Decode (Body r) with
  | inl _ => (s, writeError w StatusBadRequest "invalid JSON body")
  | inr req =>
  if String.eqb (ReqValue req) EmptyString
  then (s, writeError w StatusBadRequest "value cannot be empty")
  else
    let '(s, exists_, err) := Exists s (ctx_at r 0) key in
    match err with
    | Some _ =>
        (s, writeError w StatusInternalServerError "internal server error")
    | None =>
    let '(s, err) := SetKey s (ctx_at r 1) now key (ReqValue req) in
    match err with
    | Some _ =>
        (s, writeError w StatusInternalServerError "internal server error")
    | None =>
    let '(s, value, err) := Get s (ctx_at r 2) key in
    match err with
    | Some _ =>
        (s, writeError w StatusInternalServerError "internal server error")
    | None =>
        let status := if negb exists_ then StatusCreated else StatusOK in
        let created := negb exists_ in
        (s, writeJSON w status (SetResponse key value created))
    end end end
  end end.

(** [Handler.DeleteKey] *)
Definition DeleteKey (s : S) (w : ResponseWriter) (r : Request)
  : S * ResponseWriter :=
  let key := extractKey (URLPath r) in
  if String.eqb key EmptyString
  then (s, writeError w StatusBadRequest "invalid key")
  else
  match Validate key with
  | Some _ => (s, writeError w StatusBadRequest "invalid key")
  | None =>
      let '(s, value, err) := Delete s (ctx_at r 0) key in
      match err with
      | Some err =>
          if decide (err = ErrKeyNotFound)
          then (s, writeError w StatusNotFound "key not found")
          else (s, writeError w StatusInternalServerError
                     "internal server error")
      | None => (s, writeJSON w StatusOK (DeleteResponse key value true))
      end
  end.

(** [Handler.ListKeys]; a [nil] slice of keys has length 0. *)
Definition ListKeys (s : S) (w : ResponseWriter) (r : Request)
  : S * ResponseWriter :=
  let '(s, keys, err) := List s (ctx_at r 0) in
  match err with
  | Some _ =>
      (s, writeError w StatusInternalServerError "internal server error")
  | None =>
      let stringKeys := default [] keys in
      (s, writeJSON w StatusOK (ListResponse stringKeys))
  end.

(** [Router.HealthCheck] *)
Definition HealthCheck (w : ResponseWriter) (r : Request) : ResponseWriter :=
  if negb (String.eqb (Method r) MethodGet)
  then writeError w StatusMethodNotAllowed "method not allowed"
  else writeJSON w StatusOK
         (MapResponse {[ "status" := "healthy";
                         "service" := "key-value-store" ]}).

(** An [http.Handler] over the store; the clock is read by [Set]. *)
Definition handler : Type :=
  S -> ResponseWriter -> Request -> Time -> S * ResponseWriter.

(** [Router.handleKVRoutes] *)
Definition handleKVRoutes : handler := fun s w r now =>
  let path := URLPath r in
  if String.eqb path "/api/kv" then
    if String.eqb (Method r) MethodGet then ListKeys s w r
    else (s, writeError w StatusMethodNotAllowed "method not allowed")
  else if String.eqb path "/api/kv/" then
    if String.eqb (Method r) MethodGet then ListKeys s w r
    else (s, writeError w StatusMethodNotAllowed "method not allowed")
  else if strings_HasPrefix path "/api/kv/" then
    let key := extractKey path in
    if String.eqb key EmptyString
    then (s, writeError w StatusBadRequest "invalid key")
    else
      if String.eqb (Method r) MethodGet then GetKey s w r
      else if String.eqb (Method r) MethodPost
              || String.eqb (Method r) MethodPut then SetKey s w r now
      else if String.eqb (Method r) MethodDelete then DeleteKey s w r
      else (s, writeError w StatusMethodNotAllowed "method not allowed")
  else (s, writeError w StatusNotFound "endpoint not found").

(** [Router.routeRequest] *)
Definition routeRequest : handler := fun s w r now =>
  if strings_HasPrefix (URLPath r) "/api/kv" then handleKVRoutes s w r now
  else (s, writeError w StatusNotFound "endpoint not found").

(** [CORSMiddleware] *)
Definition CORSMiddleware (next : handler) : handler := fun s w r now =>
  let w := Header_Set w "Access-Control-Allow-Origin" "*" in
  let w := Header_Set w "Access-Control-Allow-Methods"
             "GET, POST, PUT, DELETE, OPTIONS" in
  let w := Header_Set w "Access-Control-Allow-Headers"
             "Content-Type, Authorization" in
  if String.eqb (Method r) MethodOptions then (s, WriteHeader w StatusOK)
  else next s w r now.

(** [LoggingMiddleware]: it writes to the log, and hands the request to
    [next] with a writer that records the status and passes every call
    on. *)
Definition LoggingMiddleware (next : handler) : handler := fun s w r now =>
  next s w r now.

(** [RecoveryMiddleware]: it acts on a panic of [next] only, and no
    handler here panics. *)
Definition RecoveryMiddleware (next : handler) : handler := fun s w r now =>
  next s w r now.

(** [Router.applyMiddleware] *)
Definition applyMiddleware (h : handler) : handler :=
  let h := RecoveryMiddleware h in
  let h := LoggingMiddleware h in
  let h := CORSMiddleware h in
  h.

(** [Router.ServeHTTP] *)
Definition ServeHTTP : handler := fun s w r now =>
  applyMiddleware routeRequest s w r now.

End WithStore.

End api.

(** The writer after [CORSMiddleware] has set its three headers. *)
Definition cors_headers (w : api.ResponseWriter) : api.ResponseWriter :=
  api.Header_Set
    (api.Header_Set
       (api.Header_Set w "Access-Control-Allow-Origin" "*")
       "Access-Control-Allow-Methods" "GET, POST, PUT, DELETE, OPTIONS")
    "Access-Control-Allow-Headers" "Content-Type, Authorization".

(** The status codes the API answers with. *)
Definition api_statuses : list Z := [200; 201; 400; 404; 405; 500].

(** What one [writeJSON] makes of a writer [w]: a status of the API, the
    JSON content type, one more value in the body, and the other
    headers as they were. *)
Definition written_once (w w' : api.ResponseWriter) : Prop :=
  api.Code w' ∈ api_statuses
  /\ api.Header w' !! "Content-Type" = Some "application/json"
  /\ (forall h, h <> "Content-Type" -> api.Header w' !! h = api.Header w !! h)
  /\ exists data, api.Written w' = api.Written w ++ [data].

(** A stand-in for the JSON decoder in the examples: the body is the
    value itself, and an empty body is an unexpected end of input. *)
Definition plain_decoder (body : string) : error + api.SetRequest :=
  if String.eqb body EmptyString then inl (SysError "EOF")
  else inr {| api.ReqValue := body |}.

(* ===================================================================== *)
(** * Properties                                                          *)
(* ===================================================================== *)

(** ** Arithmetic and key validation *)

Lemma wrap64_small (z : Z) : min_int64 <= z <= max_int64 -> wrap64 z = z.
Proof.
  unfold wrap64, min_int64, max_int64. intros Hz.
  rewrite Z.mod_small; lia.
Qed.

Lemma wrap64_succ (z : Z) :
  min_int64 <= z < max_int64 -> wrap64 (z + 1) = z + 1.
Proof. intros Hz. apply wrap64_small. unfold min_int64, max_int64 in *. lia. Qed.

Lemma null_byte_scan_spec (k : string) :
  null_byte_scan k = Some ErrInvalidKey
  <-> In Ascii.zero (list_ascii_of_string k).
Proof.
  induction k as [|b rest IH]; simpl.
  - split; [discriminate | tauto].
  - destruct (Ascii.eqb_spec b Ascii.zero) as [->|Hne].
    + split; auto.
    + rewrite IH. split; [auto | intros [Heq | Hin]; [congruence | exact Hin]].
Qed.

Lemma null_byte_scan_cases (k : string) :
  null_byte_scan k = None \/ null_byte_scan k = Some ErrInvalidKey.
Proof.
  induction k as [|b rest IH]; simpl; [by left|].
  destruct (Ascii.eqb b Ascii.zero); [by right | exact IH].
Qed.

(** [Validate] rejects exactly the empty keys, the keys of more than 255
    bytes and the keys with a null byte. *)
Lemma Validate_invalid (k : Key) :
  invalid_key k <-> Validate k = Some ErrInvalidKey.
Proof.
  unfold invalid_key, Validate.
  destruct (Nat.eqb_spec (String.length k) 0) as [Hlen|Hlen].
  - split; [done|]. intros _. left. by destruct k.
  - destruct (Nat.ltb_spec 255 (String.length k)) as [Hlong|Hshort].
    + split; [done | intros _; right; left; exact Hlong].
    + rewrite null_byte_scan_spec. split.
      * intros [-> | [Hl | Hin]]; [done | lia | exact Hin].
      * intros Hin. right. right. exact Hin.
Qed.

Lemma Validate_cases (k : Key) :
  Validate k = None \/ Validate k = Some ErrInvalidKey.
Proof.
  unfold Validate.
  destruct (Nat.eqb_spec (String.length k) 0); [by right|].
  destruct (Nat.ltb_spec 255 (String.length k)); [by right|].
  apply null_byte_scan_cases.
Qed.

(** ** The in-memory store *)

(** C10. Key validation comes before the closed check: on any
    [MemoryStore], closed or not, and under any context, an invalid key
    makes [Get], [Set], [Delete], [Exists] and [CompareAndSwap] return
    [ErrInvalidKey] (never [ErrStoreClosed]) and leaves the store as it
    was. *)
Theorem invalid_key_precedes_closed (ms : MemoryStore.t) (ctx : Context)
    (now : Time) (k : Key) (value : string) (expectedVersion : Z) :
  invalid_key k ->
  MemoryStore.Get ms ctx k = (ms, zeroValue, Some ErrInvalidKey)
  /\ MemoryStore.SetKey ms ctx now k value = (ms, Some ErrInvalidKey)
  /\ MemoryStore.Delete ms ctx k = (ms, zeroValue, Some ErrInvalidKey)
  /\ MemoryStore.Exists ms ctx k = (ms, false, Some ErrInvalidKey)
  /\ MemoryStore.CompareAndSwap ms ctx now k expectedVersion value
     = (ms, zeroValue, Some ErrInvalidKey).
Proof.
  intros Hbad. apply Validate_invalid in Hbad.
  unfold MemoryStore.Get, MemoryStore.SetKey, MemoryStore.Delete,
    MemoryStore.Exists, MemoryStore.CompareAndSwap.
  rewrite Hbad. repeat split.
Qed.

(** The empty key on a store that was closed. *)
Lemma invalid_key_precedes_closed_witness :
  let ms := (MemoryStore.Close MemoryStore.NewMemoryStore).1 in
  MemoryStore.closed ms = true
  /\ MemoryStore.Get ms Background EmptyString
     = (ms, zeroValue, Some ErrInvalidKey)
  /\ MemoryStore.SetKey ms Background 7 EmptyString "v"
     = (ms, Some ErrInvalidKey).
Proof.
  split; [reflexivity|].
  destruct (invalid_key_precedes_closed
              (MemoryStore.Close MemoryStore.NewMemoryStore).1
              Background 7 EmptyString "v" 0) as (HGet & HSet & _).
  - left. reflexivity.
  - split; [exact HGet | exact HSet].
Defined.

(** [CompareAndSwap] returns no error only when the key is stored with
    the expected version. *)
Lemma CompareAndSwap_success_inv (ms ms' : MemoryStore.t) (ctx : Context)
    (now : Time) (key : Key) (expectedVersion : Z) (newValue : string)
    (v : Value) :
  MemoryStore.CompareAndSwap ms ctx now key expectedVersion newValue
    = (ms', v, None) ->
  exists cur,
    MemoryStore.data ms !! key = Some cur
    /\ Version cur = expectedVersion
    /\ MemoryStore.data ms' !! key = Some v
    /\ Version v = wrap64 (expectedVersion + 1).
Proof.
  unfold MemoryStore.CompareAndSwap.
  destruct (Validate key); [discriminate|].
  destruct (ctx_Err ctx); [discriminate|].
  destruct (MemoryStore.closed ms); [discriminate|].
  destruct (MemoryStore.data ms !! key) as [cur|] eqn:Hcur; [|discriminate].
  destruct (Z.eqb_spec (Version cur) expectedVersion) as [Heq|Hne];
    simpl; [|discriminate].
  intros [= <- <-]. exists cur. repeat split; try done.
  - simpl. apply lookup_insert_eq.
  - simpl. by rewrite Heq.
Qed.

(** [CompareAndSwap] leaves the store untouched whenever it returns an
    error. *)
Lemma CompareAndSwap_error_unchanged (ms ms' : MemoryStore.t) (ctx : Context)
    (now : Time) (key : Key) (expectedVersion : Z) (newValue : string)
    (v : Value) (e : error) :
  MemoryStore.CompareAndSwap ms ctx now key expectedVersion newValue
    = (ms', v, Some e) ->
  ms' = ms.
Proof.
  unfold MemoryStore.CompareAndSwap.
  destruct (Validate key); [by intros [= <- _ _]|].
  destruct (ctx_Err ctx); [by intros [= <- _ _]|].
  destruct (MemoryStore.closed ms); [by intros [= <- _ _]|].
  destruct (MemoryStore.data ms !! key) as [cur|]; [|by intros [= <- _ _]].
  destruct (negb (Version cur =? expectedVersion));
    [by intros [= <- _ _] | discriminate].
Qed.

(** C1. On an open store, with a valid key and a live context,
    [CompareAndSwap] returns [ErrKeyNotFound] when the key is absent;
    when the stored version differs from [expectedVersion] it returns the
    stored value with [ErrConcurrentModification] and the store is the
    one it was; when the versions agree it stores and returns a value
    whose version is one more. It succeeds only on equal versions, and
    every error leaves the store unchanged. *)
Theorem CompareAndSwap_outcomes (ms : MemoryStore.t) (ctx : Context)
    (now : Time) (key : Key) (expectedVersion : Z) (newValue : string) :
  Validate key = None ->
  ctx_Err ctx = None ->
  MemoryStore.closed ms = false ->
  let r := MemoryStore.CompareAndSwap ms ctx now key expectedVersion newValue in
  match MemoryStore.data ms !! key with
  | None => r = (ms, zeroValue, Some ErrKeyNotFound)
  | Some cur =>
      if decide (Version cur = expectedVersion)
      then exists updated,
             r = (MemoryStore.store_key ms key updated, updated, None)
             /\ Version updated = wrap64 (expectedVersion + 1)
             /\ (min_int64 <= expectedVersion < max_int64 ->
                 Version updated = expectedVersion + 1)
      else r = (ms, cur, Some ErrConcurrentModification)
  end
  /\ (r.2 = None ->
      exists cur, MemoryStore.data ms !! key = Some cur
                  /\ Version cur = expectedVersion)
  /\ (r.2 <> None -> r.1.1 = ms).
Proof.
  intros Hvalid Hctx Hopen r. split; [|split].
  - subst r. unfold MemoryStore.CompareAndSwap.
    rewrite Hvalid, Hctx, Hopen.
    destruct (MemoryStore.data ms !! key) as [cur|]; [|reflexivity].
    destruct (decide (Version cur = expectedVersion)) as [Heq|Hne].
    + apply Z.eqb_eq in Heq as Heqb. rewrite Heqb. simpl.
      eexists. split; [reflexivity|]. simpl. rewrite Heq.
      split; [reflexivity | apply wrap64_succ].
    + apply Z.eqb_neq in Hne. rewrite Hne. reflexivity.
  - destruct r as [[ms' v] err] eqn:Hr. simpl. intros ->.
    destruct (CompareAndSwap_success_inv _ _ _ _ _ _ _ _ Hr)
      as (cur & Hcur & Hver & _).
    by exists cur.
  - destruct r as [[ms' v] [e|]] eqn:Hr; simpl; [|done].
    intros _. exact (CompareAndSwap_error_unchanged _ _ _ _ _ _ _ _ _ Hr).
Qed.

(** Scenario B of the specification: version 1 is stored, version 5 is
    expected. *)
Lemma CompareAndSwap_outcomes_witness :
  let ms := (MemoryStore.SetKey MemoryStore.NewMemoryStore Background 10
               "k" "v1").1 in
  MemoryStore.CompareAndSwap ms Background 20 "k" 5 "v3"
  = (ms, {| Data := "v1"; CreatedAt := 10; UpdatedAt := 10; Version := 1 |},
     Some ErrConcurrentModification).
Proof.
  pose proof (CompareAndSwap_outcomes
                (MemoryStore.SetKey MemoryStore.NewMemoryStore Background 10
                   "k" "v1").1
                Background 20 "k" 5 "v3"
                eq_refl eq_refl eq_refl) as [H _].
  exact H.
Defined.

(** C9. A successful [CompareAndSwap] returns the value it has just
    stored: the new data, the expected version plus one, the creation
    time of the value it replaces, and a [nil] error. *)
Theorem CompareAndSwap_returns_updated (ms : MemoryStore.t) (ctx : Context)
    (now : Time) (key : Key) (expectedVersion : Z) (newValue : string)
    (cur : Value) :
  Validate key = None ->
  ctx_Err ctx = None ->
  MemoryStore.closed ms = false ->
  MemoryStore.data ms !! key = Some cur ->
  Version cur = expectedVersion ->
  min_int64 <= expectedVersion < max_int64 ->
  exists ms' v,
    MemoryStore.CompareAndSwap ms ctx now key expectedVersion newValue
      = (ms', v, None)
    /\ Data v = newValue
    /\ Version v = expectedVersion + 1
    /\ CreatedAt v = CreatedAt cur
    /\ UpdatedAt v = now
    /\ MemoryStore.data ms' !! key = Some v
    /\ (Data cur <> newValue -> v <> cur).
Proof.
  intros Hvalid Hctx Hopen Hcur Hver Hrange.
  unfold MemoryStore.CompareAndSwap. rewrite Hvalid, Hctx, Hopen, Hcur.
  apply Z.eqb_eq in Hver as Hverb. rewrite Hverb. simpl.
  eexists _, _. split; [reflexivity|]. simpl.
  repeat split.
  - rewrite Hver. by apply wrap64_succ.
  - apply lookup_insert_eq.
  - intros Hdiff Heq. apply Hdiff. by rewrite <- Heq.
Qed.

Lemma CompareAndSwap_returns_updated_witness :
  let ms := (MemoryStore.SetKey MemoryStore.NewMemoryStore Background 10
               "k" "v1").1 in
  exists ms' v,
    MemoryStore.CompareAndSwap ms Background 20 "k" 1 "v2" = (ms', v, None)
    /\ Data v = "v2" /\ Version v = 2 /\ CreatedAt v = 10.
Proof.
  destruct (CompareAndSwap_returns_updated
              (MemoryStore.SetKey MemoryStore.NewMemoryStore Background 10
                 "k" "v1").1
              Background 20 "k" 1 "v2"
              {| Data := "v1"; CreatedAt := 10; UpdatedAt := 10; Version := 1 |}
              eq_refl eq_refl eq_refl eq_refl eq_refl)
    as (ms' & v & Hr & Hd & Hv & Hc & _).
  - unfold min_int64, max_int64. lia.
  - exists ms', v. repeat split; assumption.
Defined.

Lemma SetKey_inv (ms ms' : MemoryStore.t) (ctx : Context) (now : Time)
    (key : Key) (value : string) (err : option error) :
  MemoryStore.SetKey ms ctx now key value = (ms', err) ->
  (err <> None /\ ms' = ms)
  \/ (err = None /\ Validate key = None /\ ctx_Err ctx = None
      /\ MemoryStore.closed ms = false
      /\ MemoryStore.closed ms' = false
      /\ MemoryStore.data ms'
         = <[key := set_value now value (MemoryStore.data ms !! key)]>
             (MemoryStore.data ms)).
Proof.
  unfold MemoryStore.SetKey.
  destruct (Validate key); [intros [= <- <-]; by left|].
  destruct (ctx_Err ctx); [intros [= <- <-]; by left|].
  destruct (MemoryStore.closed ms) eqn:Hc; [intros [= <- <-]; by left|].
  intros [= <- <-]. right. simpl. repeat split; try done.
Qed.

(** A call that returned before it touched the map. *)
Ltac untouched := intros [= <- <-]; by apply change_none.

Lemma call_data_change (ms ms' : MemoryStore.t) (now : Time) (o : op)
    (r : result) :
  call ms now o = (ms', r) ->
  data_change now o r (MemoryStore.data ms) (MemoryStore.data ms').
Proof.
  destruct o as [ctx k|ctx k value|ctx k|ctx|ctx|ctx|ctx|ctx k|ctx k ev nv|];
    cbn.
  - unfold MemoryStore.Get.
    destruct (Validate k); [untouched|].
    destruct (ctx_Err ctx); [untouched|].
    destruct (MemoryStore.closed ms); [untouched|].
    cbn. destruct (MemoryStore.data ms !! k);
      untouched.
  - destruct (MemoryStore.SetKey ms ctx now k value) as [ms1 err] eqn:HS.
    intros [= <- <-].
    destruct (SetKey_inv _ _ _ _ _ _ _ HS)
      as [[_ ->] | (-> & Hv & _ & _ & _ & Hd)].
    + by apply change_none.
    + by eapply change_set.
  - unfold MemoryStore.Delete.
    destruct (Validate k); [untouched|].
    destruct (ctx_Err ctx); [untouched|].
    destruct (MemoryStore.closed ms); [untouched|].
    cbn. destruct (MemoryStore.data ms !! k).
    + intros [= <- <-]. by eapply change_delete.
    + untouched.
  - unfold MemoryStore.List.
    destruct (ctx_Err ctx); [untouched|].
    destruct (MemoryStore.closed ms); untouched.
  - unfold MemoryStore.ListEntries.
    destruct (ctx_Err ctx); [untouched|].
    destruct (MemoryStore.closed ms); untouched.
  - unfold MemoryStore.Size.
    destruct (ctx_Err ctx); [untouched|].
    destruct (MemoryStore.closed ms); untouched.
  - unfold MemoryStore.Clear.
    destruct (ctx_Err ctx); [untouched|].
    destruct (MemoryStore.closed ms); intros [= <- <-];
      [by apply change_none | by eapply change_clear].
  - unfold MemoryStore.Exists.
    destruct (Validate k); [untouched|].
    destruct (ctx_Err ctx); [untouched|].
    destruct (MemoryStore.closed ms); untouched.
  - destruct (MemoryStore.CompareAndSwap ms ctx now k ev nv)
      as [[ms1 v] [e|]] eqn:HC; intros [= <- <-].
    + apply CompareAndSwap_error_unchanged in HC as ->. by apply change_none.
    + revert HC. unfold MemoryStore.CompareAndSwap.
      destruct (Validate k); [discriminate|].
      destruct (ctx_Err ctx); [discriminate|].
      destruct (MemoryStore.closed ms); [discriminate|].
      destruct (MemoryStore.data ms !! k) as [cur|] eqn:Hcur; [|discriminate].
      destruct (Z.eqb_spec (Version cur) ev) as [Heq|Hne];
        simpl; [|discriminate].
      intros [= <- _]. by eapply change_cas.
  - untouched.
Qed.

Lemma Get_stored (ms : MemoryStore.t) (key : Key) (v : Value) :
  Validate key = None ->
  MemoryStore.closed ms = false ->
  MemoryStore.data ms !! key = Some v ->
  exists ms', MemoryStore.Get ms Background key = (ms', v, None)
              /\ MemoryStore.data ms' = MemoryStore.data ms.
Proof.
  intros Hvalid Hopen Hv. unfold MemoryStore.Get.
  rewrite Hvalid, Hopen. cbn. rewrite Hv. by eexists.
Qed.


(** A stored version changes only by a successful [Set] or
    [CompareAndSwap] of that key, and then to the next integer. *)
Lemma version_step (ms ms' : MemoryStore.t) (now : Time) (o : op)
    (r : result) (key : Key) (old new : Value) :
  call ms now o = (ms', r) ->
  MemoryStore.data ms !! key = Some old ->
  MemoryStore.data ms' !! key = Some new ->
  new = old
  \/ (mutates o key /\ result_err r = None
      /\ CreatedAt new = CreatedAt old
      /\ UpdatedAt new = now
      /\ Version new = wrap64 (Version old + 1)).
Proof.
  intros Hcall Hold Hnew.
  destruct (call_data_change _ _ _ _ _ Hcall)
    as [Hd | ctx k value -> Hr _ Hd | ctx k ev nv cur -> Hr Hcur _ Hd
        | ctx k -> Hd | ctx -> Hd];
    rewrite Hd in Hnew.
  - left. congruence.
  - destruct (decide (k = key)) as [->|Hne].
    + rewrite lookup_insert_eq in Hnew. rewrite Hold in Hnew.
      injection Hnew as <-. right. by repeat split.
    + rewrite lookup_insert_ne in Hnew by done. left. congruence.
  - destruct (decide (k = key)) as [->|Hne].
    + rewrite lookup_insert_eq in Hnew. injection Hnew as <-.
      assert (cur = old) as -> by congruence.
      right. by repeat split.
    + rewrite lookup_insert_ne in Hnew by done. left. congruence.
  - destruct (decide (k = key)) as [->|Hne].
    + by rewrite lookup_delete_eq in Hnew.
    + rewrite lookup_delete_ne in Hnew by done. left. congruence.
  - by rewrite lookup_empty in Hnew.
Qed.



Lemma values_ok_step (ms ms' : MemoryStore.t) (t now : Time) (n : Z) (o : op)
    (r : result) :
  values_ok t n (MemoryStore.data ms) ->
  t <= now -> 0 <= n < max_int64 ->
  call ms now o = (ms', r) ->
  values_ok now (n + 1) (MemoryStore.data ms').
Proof.
  intros Hok Ht Hn Hcall.
  assert (Hweak : forall k v, MemoryStore.data ms !! k = Some v ->
            CreatedAt v <= UpdatedAt v /\ UpdatedAt v <= now
            /\ 1 <= Version v <= n + 1).
  { intros k v Hv. destruct (Hok k v Hv) as (? & ? & ?). lia. }
  assert (Hnew : forall k v (cur : Value),
            MemoryStore.data ms !! k = Some cur ->
            CreatedAt v = CreatedAt cur -> UpdatedAt v = now ->
            Version v = wrap64 (Version cur + 1) ->
            CreatedAt v <= UpdatedAt v /\ UpdatedAt v <= now
            /\ 1 <= Version v <= n + 1).
  { intros k v cur Hcur Hc Hu Hv. destruct (Hok k cur Hcur) as (? & ? & ?).
    rewrite Hv, Hc, Hu, wrap64_succ; unfold min_int64, max_int64 in *; lia. }
  destruct (call_data_change _ _ _ _ _ Hcall)
    as [Hd | ctx k value -> Hr _ Hd | ctx k ev nv cur -> Hr Hcur _ Hd
        | ctx k -> Hd | ctx -> Hd];
    rewrite Hd; intros k' v Hv.
  - by apply (Hweak k').
  - destruct (decide (k = k')) as [->|Hne].
    + rewrite lookup_insert_eq in Hv. injection Hv as <-.
      destruct (MemoryStore.data ms !! k') as [cur|] eqn:Hcur.
      * by apply (Hnew k' _ cur).
      * simpl. lia.
    + rewrite lookup_insert_ne in Hv by done. by apply (Hweak k').
  - destruct (decide (k = k')) as [->|Hne].
    + rewrite lookup_insert_eq in Hv. injection Hv as <-.
      by apply (Hnew k' _ cur).
    + rewrite lookup_insert_ne in Hv by done. by apply (Hweak k').
  - destruct (decide (k = k')) as [->|Hne].
    + by rewrite lookup_delete_eq in Hv.
    + rewrite lookup_delete_ne in Hv by done. by apply (Hweak k').
  - by rewrite lookup_empty in Hv.
Qed.

Lemma values_ok_run (calls : list (Time * op)) :
  forall (ms : MemoryStore.t) (t : Time) (n : Z),
    values_ok t n (MemoryStore.data ms) ->
    0 <= n -> n + Z.of_nat (length calls) <= max_int64 ->
    clock_monotone t calls ->
    values_ok (last_reading t calls) (n + Z.of_nat (length calls))
              (MemoryStore.data (run ms calls).1).
Proof.
  induction calls as [|[now o] rest IH]; intros ms t n Hok Hn Hlen Hmono.
  - simpl. by rewrite Z.add_0_r.
  - destruct Hmono as [Ht Hrest]. cbn [run last_reading].
    destruct (call ms now o) as [ms1 r] eqn:Hcall.
    destruct (run ms1 rest) as [ms2 rs] eqn:Hrun.
    cbn [fst]. cbn [length] in Hlen |- *.
    replace (n + Z.of_nat (Datatypes.S (length rest)))
      with ((n + 1) + Z.of_nat (length rest)) by lia.
    replace ms2 with (run ms1 rest).1 by (by rewrite Hrun).
    apply IH; [|lia|lia|done].
    eapply values_ok_step; [exact Hok | exact Ht | lia | exact Hcall].
Qed.

(** C8. In every state a [MemoryStore] reaches from its creation by
    calls whose clock readings do not go back (fewer than 2^63 of them),
    each stored value has [UpdatedAt >= CreatedAt] and [Version >= 1].
    Every call preserves this: a key that stays stored keeps its
    [CreatedAt], and a successful [Set] or [CompareAndSwap] of a key
    stores the clock reading of the call as its [UpdatedAt]. *)
Theorem stored_values_invariant (t0 : Time) (calls : list (Time * op)) :
  clock_monotone t0 calls ->
  Z.of_nat (length calls) <= max_int64 ->
  (forall k v,
     MemoryStore.data (run MemoryStore.NewMemoryStore calls).1 !! k = Some v ->
     CreatedAt v <= UpdatedAt v /\ 1 <= Version v)
  /\ (forall (ms ms' : MemoryStore.t) now o r k old new,
        call ms now o = (ms', r) ->
        MemoryStore.data ms !! k = Some old ->
        MemoryStore.data ms' !! k = Some new ->
        CreatedAt new = CreatedAt old)
  /\ (forall (ms ms' : MemoryStore.t) now o r k,
        call ms now o = (ms', r) ->
        mutates o k -> result_err r = None ->
        exists new, MemoryStore.data ms' !! k = Some new
                    /\ UpdatedAt new = now)
  /\ (forall (ms ms' : MemoryStore.t) t n now o r,
        values_ok t n (MemoryStore.data ms) ->
        t <= now -> 0 <= n < max_int64 ->
        call ms now o = (ms', r) ->
        values_ok now (n + 1) (MemoryStore.data ms')).
Proof.
  intros Hmono Hlen. split; [|split; [|split]].
  - intros k v Hv.
    pose proof (values_ok_run calls MemoryStore.NewMemoryStore t0 0) as Hrun.
    destruct (Hrun ltac:(intros k0 v0 Hl; exact (False_ind _ (lookup_empty_Some k0 v0 Hl)))
                   ltac:(lia) ltac:(lia) Hmono k v Hv) as (? & ? & ? & ?).
    split; assumption.
  - intros ms ms' now o r k old new Hcall Hold Hnew.
    destruct (version_step _ _ _ _ _ _ _ _ Hcall Hold Hnew)
      as [-> | (_ & _ & Hc & _)]; [reflexivity | exact Hc].
  - intros ms ms' now o r k Hcall Hm Hr.
    destruct (call_data_change _ _ _ _ _ Hcall)
      as [Hd | ctx k' value -> _ _ Hd | ctx k' ev nv cur -> _ Hcur _ Hd
          | ctx k' -> Hd | ctx -> Hd]; try (simpl in Hm; subst k').
    + destruct o as [| ctx k' value | | | | | | | ctx k' ev nv |];
        simpl in Hm; try done; subst k'; cbn in Hcall.
      * destruct (MemoryStore.SetKey ms ctx now k value) as [m e] eqn:HS.
        injection Hcall as <- <-. simpl in Hr. subst e.
        destruct (SetKey_inv _ _ _ _ _ _ _ HS)
          as [[Herr _] | (_ & _ & _ & _ & _ & Hd')]; [done|].
        rewrite Hd', lookup_insert_eq. eexists. split; [reflexivity|].
        by destruct (MemoryStore.data ms !! k).
      * destruct (MemoryStore.CompareAndSwap ms ctx now k ev nv)
          as [[m v] e] eqn:HC.
        injection Hcall as <- <-. simpl in Hr. subst e.
        revert HC. unfold MemoryStore.CompareAndSwap.
        destruct (Validate k); [discriminate|].
        destruct (ctx_Err ctx); [discriminate|].
        destruct (MemoryStore.closed ms); [discriminate|].
        destruct (MemoryStore.data ms !! k) as [cur|]; [|discriminate].
        destruct (negb (Version cur =? ev)); [discriminate|].
        intros [= <- _]. simpl. rewrite lookup_insert_eq. by eexists.
    + rewrite Hd, lookup_insert_eq. eexists. split; [reflexivity|].
      by destruct (MemoryStore.data ms !! k).
    + rewrite Hd, lookup_insert_eq. by eexists.
    + done.
    + done.
  - intros ms ms' t n now o r. apply values_ok_step.
Qed.

Lemma stored_values_invariant_witness :
  let calls := [(10, OpSet Background "k" "v1");
                (10, OpCAS Background "k" 1 "v2");
                (25, OpSet Background "j" "w");
                (30, OpDelete Background "j")] in
  clock_monotone 0 calls
  /\ MemoryStore.data (run MemoryStore.NewMemoryStore calls).1 !! "k"
     = Some {| Data := "v2"; CreatedAt := 10; UpdatedAt := 10; Version := 2 |}
  /\ 10 <= 10 /\ 1 <= 2.
Proof.
  intros calls.
  assert (Hmono : clock_monotone 0 calls) by (simpl; lia).
  assert (Hlen : Z.of_nat (length calls) <= max_int64)
    by (unfold max_int64; simpl; lia).
  split; [exact Hmono|]. split; [reflexivity|].
  exact (proj1 (stored_values_invariant 0 calls Hmono Hlen) "k"
           {| Data := "v2"; CreatedAt := 10; UpdatedAt := 10; Version := 2 |}
           eq_refl).
Defined.

(** ** The JSON file persistence *)

Lemma append_length (a b : string) :
  String.length (a +:+ b) = (String.length a + String.length b)%nat.
Proof. induction a as [|c a IH]; simpl; [done | by rewrite IH]. Qed.

(** The temporary file is never the target file. *)
Lemma tempFile_fresh (j : JSONFilePersistence.t) (tempFile : string) :
  JSONFilePersistence.generateTempFileName j = inr tempFile ->
  tempFile <> JSONFilePersistence.filePath j.
Proof.
  unfold JSONFilePersistence.generateTempFileName.
  destruct (rand_Read (JSONFilePersistence.os j)) as [e|bytes]; [done|].
  intros [= <-] Heq. apply (f_equal String.length) in Heq.
  rewrite !append_length in Heq. simpl in Heq. lia.
Qed.

Lemma accepted_validates (snap : StoreSnapshot) :
  accepted snap <-> ValidateSnapshot (Some snap) = None.
Proof.
  unfold accepted, ValidateSnapshot.
  destruct (SnapData snap) as [m|].
  - destruct (String.eqb_spec (SnapVersion snap) EmptyString) as [Hv|Hv].
    + split; [intros (_ & Hne & _); done | done].
    + destruct (Z.leb_spec (SnapTimestamp snap) 0) as [Ht|Ht].
      * split; [intros (_ & _ & Hpos); lia | done].
      * split; [done | intros _; eauto].
  - split; [intros ([m Hm] & _); done | done].
Qed.


Section FilePersistence.
Context `{JSON}.




End FilePersistence.







(** ** The durable store *)

Section Durable.
Context {S P : Type} `{Store S} `{Persistence P}.

Lemma triggerSave_fields (ps : PersistentStore.t S P) :
  let ps' := (PersistentStore.triggerSave ps).1 in
  PersistentStore.store ps' = PersistentStore.store ps
  /\ PersistentStore.persistence ps' = PersistentStore.persistence ps
  /\ PersistentStore.config ps' = PersistentStore.config ps
  /\ PersistentStore.closed ps' = PersistentStore.closed ps
  /\ PersistentStore.shutdownOnce ps' = PersistentStore.shutdownOnce ps.
Proof.
  unfold PersistentStore.triggerSave.
  destruct (PersistentStore.closed ps) eqn:Hc; [simpl; by rewrite Hc|].
  destruct (select_send (PersistentStore.saveChannel ps)) as [ch o].
  simpl. by rewrite Hc.
Qed.

(** On an open durable store, a call other than [Close] returns what the
    same call returns on the store underneath, leaves that store in the
    state the direct call leaves it in, and does not touch the
    persistence. *)
Lemma call_open (ps : PersistentStore.t S P) (now : Time) (o : op) :
  PersistentStore.closed ps = false ->
  is_close o = false ->
  (call ps now o).2 = (call (PersistentStore.store ps) now o).2
  /\ PersistentStore.store (call ps now o).1
     = (call (PersistentStore.store ps) now o).1
  /\ PersistentStore.persistence (call ps now o).1
     = PersistentStore.persistence ps
  /\ PersistentStore.closed (call ps now o).1 = false.
Proof.
  intros Hopen Hnc.
  pose proof (triggerSave_fields) as Htrig.
  destruct o as [ctx k|ctx k value|ctx k|ctx|ctx|ctx|ctx|ctx k|ctx k ev nv|];
    try discriminate; cbn;
    unfold PersistentStore.Get, PersistentStore.SetKey, PersistentStore.Delete,
      PersistentStore.List, PersistentStore.ListEntries, PersistentStore.Size,
      PersistentStore.Clear, PersistentStore.Exists,
      PersistentStore.CompareAndSwap;
    rewrite Hopen.
  - by destruct (Get (PersistentStore.store ps) ctx k) as [[s v] e].
  - destruct (SetKey (PersistentStore.store ps) ctx now k value) as [s [e|]];
      [done|].
    destruct (AutoSave _); [|done]. cbn.
    destruct (Htrig (PersistentStore.with_store ps s)) as (-> & -> & _ & -> & _).
    done.
  - destruct (Delete (PersistentStore.store ps) ctx k) as [[s v] [e|]];
      [done|].
    destruct (AutoSave _); [|done]. cbn.
    destruct (Htrig (PersistentStore.with_store ps s)) as (-> & -> & _ & -> & _).
    done.
  - by destruct (List (PersistentStore.store ps) ctx) as [[s v] e].
  - by destruct (ListEntries (PersistentStore.store ps) ctx) as [[s v] e].
  - by destruct (Size (PersistentStore.store ps) ctx) as [[s v] e].
  - destruct (Clear (PersistentStore.store ps) ctx) as [s [e|]]; [done|].
    destruct (AutoSave _); [|done]. cbn.
    destruct (Htrig (PersistentStore.with_store ps s)) as (-> & -> & _ & -> & _).
    done.
  - by destruct (Exists (PersistentStore.store ps) ctx k) as [[s v] e].
  - destruct (CompareAndSwap (PersistentStore.store ps) ctx now k ev nv)
      as [[s v] [e|]]; [done|].
    destruct (AutoSave _); [|done]. cbn.
    destruct (Htrig (PersistentStore.with_store ps s)) as (-> & -> & _ & -> & _).
    done.
Qed.

End Durable.

Section DurableInternals.
Context {S P : Type} `{Store S} `{Persistence P}.

Lemma createSnapshot_fields (ps : PersistentStore.t S P) (now : Time) :
  let ps' := (PersistentStore.createSnapshot ps now).1 in
  same_control ps ps'
  /\ PersistentStore.persistence ps' = PersistentStore.persistence ps
  /\ PersistentStore.store ps'
     = (ListEntries (PersistentStore.store ps) Background).1.1.
Proof.
  unfold PersistentStore.createSnapshot, same_control.
  destruct (ListEntries (PersistentStore.store ps) Background)
    as [[s entries] [e|]]; simpl; repeat split.
Qed.

Lemma saveWithRetry_fields (ps : PersistentStore.t S P)
    (snapshot : StoreSnapshot) :
  let ps' := (PersistentStore.saveWithRetry ps snapshot).1 in
  same_control ps ps'
  /\ PersistentStore.store ps' = PersistentStore.store ps.
Proof.
  unfold PersistentStore.saveWithRetry, same_control.
  destruct (PersistentStore.save_attempts _ _ _ _) as [p [[e|]|]];
    simpl; repeat split.
Qed.

(** A turn of the worker changes the store only through [ListEntries],
    and never the two flags. *)
Lemma saveProcessor_recv_fields (ps : PersistentStore.t S P) (now : Time) :
  let ps' := (PersistentStore.saveProcessor_recv ps now).1 in
  PersistentStore.closed ps' = PersistentStore.closed ps
  /\ PersistentStore.shutdownOnce ps' = PersistentStore.shutdownOnce ps
  /\ PersistentStore.config ps' = PersistentStore.config ps
  /\ (PersistentStore.store ps' = PersistentStore.store ps
      \/ PersistentStore.store ps'
         = (ListEntries (PersistentStore.store ps) Background).1.1)
  /\ (PersistentStore.closed ps = true ->
      PersistentStore.store ps' = PersistentStore.store ps
      /\ PersistentStore.persistence ps' = PersistentStore.persistence ps).
Proof.
  unfold PersistentStore.saveProcessor_recv.
  destruct (PersistentStore.worker ps); simpl; [|by repeat split; auto].
  destruct (range_recv (PersistentStore.saveChannel ps)) as [ch [| |]]; simpl;
    try (by repeat split; auto).
  destruct (PersistentStore.closed ps) eqn:Hc; simpl;
    [by repeat split; auto|].
  set (ps0 := PersistentStore.with_saveChannel ps ch).
  pose proof (createSnapshot_fields ps0 now) as (Hctl & Hp & Hs).
  destruct (PersistentStore.createSnapshot ps0 now) as [ps1 [e|snapshot]];
    simpl in *.
  - destruct Hctl as (Hcfg & _ & _ & Hso & Hcl & _).
    rewrite Hcl, Hso, Hcfg, Hs. repeat split; auto; done.
  - pose proof (saveWithRetry_fields ps1 snapshot) as (Hctl' & Hs').
    destruct (PersistentStore.saveWithRetry ps1 snapshot) as [ps2 err].
    simpl in *.
    destruct Hctl as (Hcfg & _ & _ & Hso & Hcl & _).
    destruct Hctl' as (Hcfg' & _ & _ & Hso' & Hcl' & _).
    rewrite Hcl', Hcl, Hso', Hso, Hcfg', Hcfg, Hs', Hs.
    repeat split; auto; done.
Qed.

Lemma timer_fire_fields (ps : PersistentStore.t S P) :
  let ps' := PersistentStore.timer_fire ps in
  PersistentStore.closed ps' = PersistentStore.closed ps
  /\ PersistentStore.store ps' = PersistentStore.store ps
  /\ PersistentStore.persistence ps' = PersistentStore.persistence ps.
Proof.
  unfold PersistentStore.timer_fire.
  destruct (PersistentStore.periodicSaveTimer ps) as [[|]|]; try done.
  set (ps0 := PersistentStore.with_timer ps (Some false)).
  destruct (triggerSave_fields ps0) as (Hs & Hp & _ & Hc & _).
  cbv zeta. unfold PersistentStore.startPeriodicSave.
  destruct (PersistentStore.closed (PersistentStore.triggerSave ps0).1) eqn:Hc1;
    simpl; rewrite ?Hc1, ?Hs, ?Hp; rewrite Hc in Hc1; done.
Qed.

Lemma final_save_fields (ps : PersistentStore.t S P) (now : Time) :
  let ps' := (PersistentStore.final_save ps now).1 in
  same_control ps ps'
  /\ (PersistentStore.store ps' = PersistentStore.store ps
      \/ PersistentStore.store ps'
         = (ListEntries (PersistentStore.store ps) Background).1.1).
Proof.
  unfold PersistentStore.final_save.
  destruct (SaveOnShutdown _); [|by repeat split; auto].
  pose proof (createSnapshot_fields ps now) as (Hctl & _ & Hs).
  destruct (PersistentStore.createSnapshot ps now) as [ps1 [e|snapshot]];
    cbn [fst] in *; [by split; auto|].
  pose proof (saveWithRetry_fields ps1 snapshot) as (Hctl' & Hs').
  destruct Hctl as (? & ? & ? & ? & ? & ?).
  destruct Hctl' as (? & ? & ? & ? & ? & ?).
  split; [unfold same_control; repeat split; congruence|].
  right. congruence.
Qed.

(** The body of [Close] marks the store closed and the [Once] done. *)
Lemma shutdown_flags (ps : PersistentStore.t S P) (now : Time) :
  let ps' := (PersistentStore.shutdown ps now).1 in
  PersistentStore.closed ps' = true
  /\ PersistentStore.shutdownOnce ps' = true.
Proof.
  unfold PersistentStore.shutdown.
  pose proof (final_save_fields (PersistentStore.mark_closed ps) now)
    as ((_ & _ & _ & Hso & Hcl & _) & _).
  destruct (PersistentStore.final_save (PersistentStore.mark_closed ps) now)
    as [ps2 closeErr]. cbn [fst] in *.
  set (ps3 := PersistentStore.with_saveChannel ps2 _).
  pose proof (saveProcessor_recv_fields ps3 now) as (Hc & Hso' & _).
  destruct (Close (PersistentStore.store
                     (PersistentStore.saveProcessor_recv ps3 now).1) now)
    as [s err].
  cbn [fst]. cbn. rewrite Hc, Hso'. subst ps3. cbn. by rewrite Hso, Hcl.
Qed.

End DurableInternals.

(** ** The durable store over a [MemoryStore] *)

Lemma with_store_same {S P : Type} (ps : PersistentStore.t S P) :
  PersistentStore.with_store ps (PersistentStore.store ps) = ps.
Proof. by destruct ps. Qed.

Lemma with_saveChannel_same {S P : Type} (ps : PersistentStore.t S P) :
  PersistentStore.with_saveChannel ps (PersistentStore.saveChannel ps) = ps.
Proof. by destruct ps. Qed.

(** The map [createSnapshot] builds from the entries of a map. *)
Lemma snapshot_fold_lookup (l : list (string * Value)) :
  forall (acc : gmap string string) (k : string),
    NoDup l.*1 ->
    foldl (fun (d : gmap string string) entry =>
             <[EKey entry := Data (EValue entry)]> d)
          acc (map (fun kv => {| EKey := kv.1; EValue := kv.2 |}) l) !! k
    = match (list_to_map l : gmap string Value) !! k with
      | Some v => Some (Data v)
      | None => acc !! k
      end.
Proof.
  induction l as [|[k0 v0] l IH]; intros acc k Hnd; [done|].
  rewrite fmap_cons in Hnd. apply NoDup_cons in Hnd as [Hk0 Hnd].
  cbn [fst] in Hk0. cbn [map foldl EKey EValue fst snd].
  rewrite IH by done. cbn [list_to_map foldr fst snd uncurry].
  destruct (decide (k0 = k)) as [->|Hne].
  - rewrite !lookup_insert_eq.
    by rewrite (not_elem_of_list_to_map_1 _ _ Hk0).
  - by rewrite !lookup_insert_ne by done.
Qed.

Lemma snapshot_fold (m : gmap string Value) :
  foldl (fun (d : gmap string string) entry =>
           <[EKey entry := Data (EValue entry)]> d)
        ∅ (map (fun kv => {| EKey := kv.1; EValue := kv.2 |}) (map_to_list m))
  = Data <$> m.
Proof.
  apply map_eq. intros k.
  rewrite snapshot_fold_lookup by apply NoDup_fst_map_to_list.
  rewrite list_to_map_to_list, lookup_fmap, lookup_empty.
  by destruct (m !! k).
Qed.

Section DurableMemory.
Context {P : Type} `{Persistence P}.

(** [createSnapshot] on an open [MemoryStore]. *)
Lemma createSnapshot_open (ps : PersistentStore.t MemoryStore.t P)
    (now : Time) :
  MemoryStore.closed (PersistentStore.store ps) = false ->
  PersistentStore.createSnapshot ps now
  = (ps, inr {| SnapData := Some (snapshot_data (PersistentStore.store ps));
                SnapStats :=
                  {| TotalKeys :=
                       Z.of_nat (size (snapshot_data (PersistentStore.store ps)));
                     TotalRequests := 0; GetRequests := 0; SetRequests := 0;
                     DeleteRequests := 0 |};
                SnapVersion := "1.0";
                SnapTimestamp := PersistentStore.Unix now |}).
Proof.
  intros Hopen. unfold PersistentStore.createSnapshot. cbn [ListEntries
    MemoryStore_Store]. unfold MemoryStore.ListEntries.
  cbn [ctx_Err]. rewrite Hopen. cbn [default]. unfold id.
  rewrite snapshot_fold, with_store_same. reflexivity.
Qed.

Lemma ListEntries_same (ms : MemoryStore.t) (ctx : Context) :
  (ListEntries ms ctx).1.1 = ms.
Proof.
  cbn. unfold MemoryStore.ListEntries.
  destruct (ctx_Err ctx); [done|]. by destruct (MemoryStore.closed ms).
Qed.

Lemma durable_step_open (ps : PersistentStore.t MemoryStore.t P) (e : event) :
  PersistentStore.closed ps = false ->
  no_close [e] = true ->
  PersistentStore.closed (durable_step ps e).1 = false
  /\ match e with
     | Call now o =>
         (durable_step ps e).2 = Some (call (PersistentStore.store ps) now o).2
         /\ PersistentStore.store (durable_step ps e).1
            = (call (PersistentStore.store ps) now o).1
     | _ =>
         (durable_step ps e).2 = None
         /\ PersistentStore.store (durable_step ps e).1
            = PersistentStore.store ps
     end.
Proof.
  intros Hopen Hnc. destruct e as [now o|now|]; cbn [durable_step].
  - cbn in Hnc. rewrite andb_true_r in Hnc. apply negb_true_iff in Hnc.
    destruct (call_open ps now o Hopen Hnc) as (Hr & Hs & _ & Hc).
    destruct (call ps now o) as [ps' r]. cbn in *. by rewrite Hr, Hs.
  - destruct (saveProcessor_recv_fields ps now) as (Hc & _ & _ & Hs & _).
    cbn [fst snd]. rewrite Hc. repeat split; [done|].
    destruct Hs as [Hs|Hs]; rewrite Hs; [done | apply ListEntries_same].
  - destruct (timer_fire_fields ps) as (Hc & Hs & _).
    cbn [fst snd]. by rewrite Hc, Hs.
Qed.

(** C4, as the code has it. While a durable store over a [MemoryStore]
    is open, whatever the persistence does and however the turns of the
    flush worker and the firings of the timer fall between the calls:
    the calls (other than [Close]) return exactly what they return on
    the [MemoryStore] alone and leave it in the same state; each call
    runs against the store underneath and does not touch the
    persistence. *)
Theorem durable_refines_while_open (ps : PersistentStore.t MemoryStore.t P)
    (es : list event) :
  PersistentStore.closed ps = false ->
  no_close es = true ->
  (durable_run ps es).2 = (run (PersistentStore.store ps) (calls_of es)).2
  /\ PersistentStore.store (durable_run ps es).1
     = (run (PersistentStore.store ps) (calls_of es)).1
  /\ (forall now o,
        is_close o = false ->
        (call ps now o).2 = (call (PersistentStore.store ps) now o).2
        /\ PersistentStore.store (call ps now o).1
           = (call (PersistentStore.store ps) now o).1
        /\ PersistentStore.persistence (call ps now o).1
           = PersistentStore.persistence ps).
Proof.
  intros Hopen Hnc.
  assert (Hrun : (durable_run ps es).2
                 = (run (PersistentStore.store ps) (calls_of es)).2
                 /\ PersistentStore.store (durable_run ps es).1
                    = (run (PersistentStore.store ps) (calls_of es)).1).
  { revert ps Hopen Hnc.
    induction es as [|e rest IH]; intros ps Hopen Hnc; [done|].
    assert (Hhead : no_close [e] = true /\ no_close rest = true).
    { destruct e as [now o| |]; cbn in *; [|done|done].
      apply andb_true_iff in Hnc as [-> ->]. done. }
    destruct Hhead as [Hne Hrest].
    destruct (durable_step_open ps e Hopen Hne) as (Hc & Hstep).
    cbn [durable_run].
    destruct (durable_step ps e) as [ps1 r1] eqn:Hds. cbn [fst snd] in *.
    destruct (IH ps1 Hc Hrest) as (IHr & IHs).
    destruct (durable_run ps1 rest) as [ps2 rs] eqn:Hdr. cbn [fst snd] in *.
    destruct e as [now o|now|]; destruct Hstep as (-> & Hs1);
      cbn [calls_of run]; rewrite Hs1 in IHr, IHs.
    - destruct (call (PersistentStore.store ps) now o) as [m1 r].
      cbn [fst snd] in *.
      destruct (run m1 (calls_of rest)) as [m2 rs']. cbn [fst snd] in *.
      by subst.
    - done.
    - done. }
  destruct Hrun as (Hr & Hs). split; [exact Hr|]. split; [exact Hs|].
  intros now o Hno.
  destruct (call_open ps now o Hopen Hno) as (H1 & H2 & H3 & _). done.
Qed.

End DurableMemory.

(** ** Save signals *)

Section Signals.
Context {S P : Type} `{Store S} `{Persistence P}.

Lemma loadData_control (ps : PersistentStore.t S P) (nows : string -> Time) :
  same_control ps (PersistentStore.loadData ps nows).1.
Proof.
  unfold PersistentStore.loadData, same_control.
  destruct (Load (PersistentStore.persistence ps) Background) as [p [e|snap]].
  - by destruct (decide (e = ErrNoSnapshotFound)).
  - done.
Qed.





End Signals.



(** ** Closing *)

(** A closed [MemoryStore] answers a call with the error of its checks of
    the key and of the context, and with [ErrStoreClosed] when they
    pass; it stays as it is. *)
Lemma MemoryStore_closed_call (ms : MemoryStore.t) (now : Time) (o : op) :
  MemoryStore.closed ms = true ->
  is_close o = false ->
  (call ms now o).1 = ms
  /\ result_err (call ms now o).2
     = match op_precheck o with
       | Some e => Some e
       | None => Some ErrStoreClosed
       end.
Proof.
  intros Hclosed Hnc.
  destruct o as [ctx k|ctx k value|ctx k|ctx|ctx|ctx|ctx|ctx k|ctx k ev nv|];
    try discriminate; cbn;
    unfold MemoryStore.Get, MemoryStore.SetKey, MemoryStore.Delete,
      MemoryStore.List, MemoryStore.ListEntries, MemoryStore.Size,
      MemoryStore.Clear, MemoryStore.Exists, MemoryStore.CompareAndSwap;
    try destruct (Validate k); try done;
    destruct (ctx_Err ctx); try done; by rewrite Hclosed.
Qed.

Section Closing.
Context {P : Type} `{Persistence P}.

(** A closed durable store answers every call but [Close] with
    [ErrStoreClosed], whatever the key and the context, and stays as it
    is. *)
Lemma durable_closed_call {S : Type} `{Store S}
    (ps : PersistentStore.t S P) (now : Time) (o : op) :
  PersistentStore.closed ps = true ->
  is_close o = false ->
  (call ps now o).1 = ps
  /\ result_err (call ps now o).2 = Some ErrStoreClosed.
Proof.
  intros Hclosed Hnc.
  destruct o; try discriminate; cbn;
    unfold PersistentStore.Get, PersistentStore.SetKey, PersistentStore.Delete,
      PersistentStore.List, PersistentStore.ListEntries, PersistentStore.Size,
      PersistentStore.Clear, PersistentStore.Exists,
      PersistentStore.CompareAndSwap;
    by rewrite Hclosed.
Qed.

Lemma saveWithRetry_persistence {S : Type} `{Store S}
    (ps : PersistentStore.t S P) (snapshot : StoreSnapshot) :
  PersistentStore.persistence (PersistentStore.saveWithRetry ps snapshot).1
  = (PersistentStore.save_attempts
       (Z.to_nat (RetryAttempts (PersistentStore.config ps) + 1))
       (PersistentStore.persistence ps) snapshot None).1.
Proof.
  unfold PersistentStore.saveWithRetry.
  by destruct (PersistentStore.save_attempts _ _ _ _) as [p [[e|]|]].
Qed.

(** What the body of [Close] does to the persistence and to the
    [MemoryStore] underneath. *)
Lemma shutdown_effects (ps : PersistentStore.t MemoryStore.t P) (now : Time) :
  let ps' := (PersistentStore.shutdown ps now).1 in
  MemoryStore.closed (PersistentStore.store ps') = true
  /\ PersistentStore.persistence ps'
     = PersistentStore.persistence
         (PersistentStore.final_save (PersistentStore.mark_closed ps) now).1.
Proof.
  unfold PersistentStore.shutdown.
  pose proof (final_save_fields (PersistentStore.mark_closed ps) now)
    as ((_ & _ & _ & _ & Hcl & _) & _).
  destruct (PersistentStore.final_save (PersistentStore.mark_closed ps) now)
    as [ps2 closeErr]. cbn [fst] in *.
  set (ps3 := PersistentStore.with_saveChannel ps2 _).
  assert (Hc3 : PersistentStore.closed ps3 = true) by (by subst ps3; cbn).
  pose proof (saveProcessor_recv_fields ps3 now) as (_ & _ & _ & _ & Hsame).
  destruct (Hsame Hc3) as (_ & Hp).
  cbn. by rewrite Hp.
Qed.

(** C7, as the code has it. The first [Close] of a durable store over a
    [MemoryStore] runs the shutdown sequence: without [SaveOnShutdown]
    it leaves the persistence alone, with it (the store underneath being
    open) it saves one snapshot of the current data, through one run of
    the retry loop. A second [Close] returns no error and changes
    nothing, so it saves nothing. After [Close] the durable store
    answers every other call with [ErrStoreClosed] and the
    [MemoryStore] underneath is closed. A [MemoryStore] is closed by
    [Close] idempotently, and once closed answers every other call
    with [ErrStoreClosed] unless the key is invalid or the context is
    done, which it reports first. *)
Theorem Close_runs_once (ps : PersistentStore.t MemoryStore.t P)
    (now now' : Time) :
  PersistentStore.shutdownOnce ps = false ->
  let ps1 := (PersistentStore.Close ps now).1 in
  PersistentStore.Close ps1 now' = (ps1, None)
  /\ (SaveOnShutdown (PersistentStore.config ps) = false ->
      PersistentStore.persistence ps1 = PersistentStore.persistence ps)
  /\ (SaveOnShutdown (PersistentStore.config ps) = true ->
      MemoryStore.closed (PersistentStore.store ps) = false ->
      exists snapshot,
        SnapData snapshot = Some (snapshot_data (PersistentStore.store ps))
        /\ PersistentStore.persistence ps1
           = (PersistentStore.save_attempts
                (Z.to_nat (RetryAttempts (PersistentStore.config ps) + 1))
                (PersistentStore.persistence ps) snapshot None).1)
  /\ (forall t o, is_close o = false ->
        (call ps1 t o).1 = ps1
        /\ result_err (call ps1 t o).2 = Some ErrStoreClosed)
  /\ MemoryStore.closed (PersistentStore.store ps1) = true
  /\ (forall ms : MemoryStore.t,
        let ms1 := (MemoryStore.Close ms).1 in
        MemoryStore.Close ms1 = (ms1, None)
        /\ forall t o, is_close o = false ->
             (call ms1 t o).1 = ms1
             /\ result_err (call ms1 t o).2
                = match op_precheck o with
                  | Some e => Some e
                  | None => Some ErrStoreClosed
                  end).
Proof.
  intros Honce ps1.
  assert (Hps1 : ps1 = (PersistentStore.shutdown ps now).1)
    by (subst ps1; unfold PersistentStore.Close; by rewrite Honce).
  destruct (shutdown_flags ps now) as (Hclosed & Hdone).
  destruct (shutdown_effects ps now) as (Hms & Hpers).
  rewrite <- Hps1 in Hclosed, Hdone, Hms, Hpers.
  split; [|split; [|split; [|split; [|split]]]].
  - unfold PersistentStore.Close. by rewrite Hdone.
  - intros Hno. rewrite Hpers. unfold PersistentStore.final_save.
    cbn. by rewrite Hno.
  - intros Hyes Hopen. rewrite Hpers. unfold PersistentStore.final_save.
    cbn [PersistentStore.config PersistentStore.mark_closed]. rewrite Hyes.
    rewrite createSnapshot_open by done.
    eexists. split; [|rewrite saveWithRetry_persistence; reflexivity].
    reflexivity.
  - intros t o Hnc. by apply durable_closed_call.
  - exact Hms.
  - intros ms ms1. split; [by destruct ms|].
    intros t o Hnc. by apply MemoryStore_closed_call.
Qed.

End Closing.

(** Scenario E of the specification: one [Set] not yet saved, then
    [Close] twice; the mock persistence has seen one save, of the data
    of that [Set]. *)
Lemma Close_runs_once_witness :
  let cfg := {| AutoSave := false; SaveInterval := 0; SaveOnShutdown := true;
                RetryAttempts := 0; RetryDelay := 0 |} in
  let ps := (PersistentStore.SetKey (fresh_durable cfg) Background 5
               "k" "v").1 in
  let ps1 := (PersistentStore.Close ps 10).1 in
  let ps2 := (PersistentStore.Close ps1 20).1 in
  PersistentStore.Close ps1 20 = (ps1, None)
  /\ mockPersistence.saveCount (PersistentStore.persistence ps) = 0
  /\ mockPersistence.saveCount (PersistentStore.persistence ps1) = 1
  /\ mockPersistence.saveCount (PersistentStore.persistence ps2) = 1
  /\ (SnapData <$> mockPersistence.snapshot (PersistentStore.persistence ps2))
     = Some (Some {[ "k" := "v" ]}).
Proof.
  intros cfg ps ps1 ps2.
  split; [|vm_compute; repeat split].
  exact (proj1 (Close_runs_once ps 10 20 eq_refl)).
Defined.

(** C7 fails as stated: a [MemoryStore] that was closed answers a call
    with an invalid key with [ErrInvalidKey], and a call under a
    cancelled context with the error of the context, not with
    [ErrStoreClosed]. *)
Lemma closed_MemoryStore_not_StoreClosed :
  let ms := (MemoryStore.Close MemoryStore.NewMemoryStore).1 in
  MemoryStore.Get ms Background EmptyString
  = (ms, zeroValue, Some ErrInvalidKey)
  /\ MemoryStore.Size ms CtxCanceled = (ms, 0, Some Canceled)
  /\ MemoryStore.Get ms Background "k" = (ms, zeroValue, Some ErrStoreClosed).
Proof. repeat split. Qed.

(** ** The two stores compared *)

(** Calls with turns of the worker and a firing of the timer between
    them, on a durable store whose persistence fails every save: the
    caller sees what the [MemoryStore] alone returns. *)
Lemma durable_refines_while_open_witness :
  let ps := durable_over
              (mockPersistence.setFailSave mockPersistence.newMockPersistence
                 true)
              DefaultPersistentStoreConfig in
  let es := [Call 1 (OpSet Background "k" "v1"); WorkerTurn 2;
             Call 3 (OpGet Background "k"); TimerFires; WorkerTurn 4;
             Call 5 (OpCAS Background "k" 1 "v2");
             Call 6 (OpDelete Background "missing");
             Call 7 (OpSet Background EmptyString "v")] in
  (durable_run ps es).2
  = (run MemoryStore.NewMemoryStore (calls_of es)).2.
Proof.
  intros ps es.
  exact (proj1 (durable_refines_while_open ps es eq_refl eq_refl)).
Defined.

(** C4 fails as stated: once closed, the durable store answers a [Set]
    with an invalid key with [ErrStoreClosed] where the [MemoryStore]
    under it answers [ErrInvalidKey]; and its [Close] returns the error
    of a failed final save where the [MemoryStore]'s returns none. *)
Lemma closed_durable_differs :
  let ps := (PersistentStore.Close
               (fresh_durable DefaultPersistentStoreConfig) 10).1 in
  let failing := durable_over
                   (mockPersistence.setFailSave
                      mockPersistence.newMockPersistence true)
                   DefaultPersistentStoreConfig in
  (call ps 20 (OpSet Background EmptyString "v")).2
  = RError (Some ErrStoreClosed)
  /\ (call (PersistentStore.store ps) 20 (OpSet Background EmptyString "v")).2
     = RError (Some ErrInvalidKey)
  /\ (call failing 10 OpClose).2
     = RError (Some (Errorf "failed to save after %d attempts: %w"
                       (ErrorNew "mock save error")))
  /\ (call (PersistentStore.store failing) 10 OpClose).2 = RError None.
Proof. vm_compute. repeat split. Qed.

(* ===================================================================== *)
(** * Further properties of the in-memory store                           *)
(* ===================================================================== *)

Lemma SetKey_live (ms : MemoryStore.t) (ctx : Context) (now : Time)
    (key : Key) (value : string) :
  Validate key = None ->
  ctx_Err ctx = None ->
  MemoryStore.closed ms = false ->
  exists ms',
    MemoryStore.SetKey ms ctx now key value = (ms', None)
    /\ MemoryStore.closed ms' = false
    /\ MemoryStore.data ms'
       = <[key := set_value now value (MemoryStore.data ms !! key)]>
           (MemoryStore.data ms).
Proof.
  intros Hvalid Hctx Hopen. unfold MemoryStore.SetKey.
  rewrite Hvalid, Hctx, Hopen. eexists. split; [reflexivity|].
  cbn. split; [done|]. by destruct (MemoryStore.data ms !! key).
Qed.

(** X1. A [Set] on an open store with a valid key and a live context
    succeeds; a following [Get] of the key returns the data just set;
    every other key holds what it held; and the number of keys grows by
    one exactly when the key was not stored. *)
Theorem Set_then_Get (ms : MemoryStore.t) (ctx : Context) (now : Time)
    (key : Key) (value : string) :
  Validate key = None ->
  ctx_Err ctx = None ->
  MemoryStore.closed ms = false ->
  let ms1 := (MemoryStore.SetKey ms ctx now key value).1 in
  (MemoryStore.SetKey ms ctx now key value).2 = None
  /\ (MemoryStore.Get ms1 Background key).2 = None
  /\ Data (MemoryStore.Get ms1 Background key).1.2 = value
  /\ (forall k, k <> key ->
        MemoryStore.data ms1 !! k = MemoryStore.data ms !! k)
  /\ size (MemoryStore.data ms1)
     = match MemoryStore.data ms !! key with
       | Some _ => size (MemoryStore.data ms)
       | None => Datatypes.S (size (MemoryStore.data ms))
       end.
Proof.
  intros Hvalid Hctx Hopen ms1.
  destruct (SetKey_live ms ctx now key value Hvalid Hctx Hopen)
    as (m1 & HS & Hc & Hd).
  assert (ms1 = m1) as -> by (subst ms1; by rewrite HS).
  rewrite HS. split; [done|].
  assert (Hl : MemoryStore.data m1 !! key
               = Some (set_value now value (MemoryStore.data ms !! key)))
    by (rewrite Hd; apply lookup_insert_eq).
  destruct (Get_stored m1 key _ Hvalid Hc Hl) as (g & HG & _).
  rewrite HG. cbn [fst snd]. split; [done|]. split.
  { by destruct (MemoryStore.data ms !! key). }
  split.
  - intros k Hne. rewrite Hd. by apply lookup_insert_ne.
  - rewrite Hd. destruct (MemoryStore.data ms !! key) as [old|] eqn:Hold.
    + by apply map_size_insert_Some.
    + by apply map_size_insert_None.
Qed.

Lemma Set_then_Get_witness :
  let ms := (MemoryStore.SetKey MemoryStore.NewMemoryStore Background 1
               "a" "x").1 in
  let ms1 := (MemoryStore.SetKey ms Background 2 "b" "y").1 in
  (MemoryStore.Get ms1 Background "b").2 = None
  /\ Data (MemoryStore.Get ms1 Background "b").1.2 = "y"
  /\ size (MemoryStore.data ms1) = 2%nat.
Proof.
  intros ms ms1.
  destruct (Set_then_Get ms Background 2 "b" "y" eq_refl eq_refl eq_refl)
    as (_ & HG & HD & _ & Hsize).
  split; [exact HG|]. split; [exact HD|]. exact Hsize.
Defined.

(** X2. [Delete] of a stored key (valid key, live context, open store)
    returns the stored value and no error, removes the key and no
    other, and a following [Get] returns [ErrKeyNotFound]; [Delete] of a
    key that is not stored returns [ErrKeyNotFound] and leaves the map
    as it was. *)
Theorem Delete_removes (ms : MemoryStore.t) (ctx : Context) (key : Key) :
  Validate key = None ->
  ctx_Err ctx = None ->
  MemoryStore.closed ms = false ->
  let r := MemoryStore.Delete ms ctx key in
  match MemoryStore.data ms !! key with
  | Some v =>
      r.2 = None /\ r.1.2 = v
      /\ MemoryStore.data r.1.1 = delete key (MemoryStore.data ms)
      /\ size (MemoryStore.data r.1.1) = pred (size (MemoryStore.data ms))
      /\ MemoryStore.Get r.1.1 Background key
         = (MemoryStore.incrementStat r.1.1 MemoryStore.StatGet, zeroValue,
            Some ErrKeyNotFound)
  | None =>
      r.2 = Some ErrKeyNotFound /\ r.1.2 = zeroValue
      /\ MemoryStore.data r.1.1 = MemoryStore.data ms
  end.
Proof.
  intros Hvalid Hctx Hopen r. subst r. unfold MemoryStore.Delete.
  rewrite Hvalid, Hctx, Hopen. cbn.
  destruct (MemoryStore.data ms !! key) as [v|] eqn:Hv; cbn; [|done].
  repeat split.
  - by apply map_size_delete_Some.
  - unfold MemoryStore.Get. rewrite Hvalid. cbn. rewrite Hopen. cbn.
    by rewrite lookup_delete_eq.
Qed.

Lemma Delete_removes_witness :
  let ms := (MemoryStore.SetKey MemoryStore.NewMemoryStore Background 1
               "a" "x").1 in
  let r := MemoryStore.Delete ms Background "a" in
  r.2 = None /\ Data r.1.2 = "x"
  /\ (MemoryStore.Get r.1.1 Background "a").2 = Some ErrKeyNotFound.
Proof.
  intros ms r.
  pose proof (Delete_removes ms Background "a" eq_refl eq_refl eq_refl)
    as (He & Hv & _ & _ & HG).
  split; [exact He|]. split; [exact (f_equal Data Hv)|].
  exact (f_equal snd HG).
Defined.

(** X3. On an open store under a live context, [List], [ListEntries] and
    [Size] describe the same map: [List] returns each stored key once
    and nothing else, [ListEntries] returns exactly the stored
    key-value pairs, both have [Size] elements, and none of the three
    changes the store. On an empty store the lists are empty, not an
    error. *)
Theorem listing_agrees (ms : MemoryStore.t) (ctx : Context) :
  ctx_Err ctx = None ->
  MemoryStore.closed ms = false ->
  exists keys entries,
    MemoryStore.List ms ctx = (ms, Some keys, None)
    /\ MemoryStore.ListEntries ms ctx = (ms, Some entries, None)
    /\ MemoryStore.Size ms ctx = (ms, Z.of_nat (length keys), None)
    /\ length entries = length keys
    /\ NoDup keys
    /\ (forall k, k ∈ keys <-> is_Some (MemoryStore.data ms !! k))
    /\ (forall k v,
          {| EKey := k; EValue := v |} ∈ entries
          <-> MemoryStore.data ms !! k = Some v)
    /\ (MemoryStore.data ms = ∅ -> keys = [] /\ entries = []).
Proof.
  intros Hctx Hopen.
  unfold MemoryStore.List, MemoryStore.ListEntries, MemoryStore.Size.
  rewrite Hctx, Hopen. eexists _, _.
  split; [reflexivity|]. split; [reflexivity|].
  split; [by rewrite length_fmap, length_map_to_list|].
  split; [by rewrite length_map, length_fmap|].
  split; [apply NoDup_fst_map_to_list|].
  split; [|split].
  - intros k. rewrite list_elem_of_fmap. split.
    + intros ([k' v] & -> & Hin). apply elem_of_map_to_list in Hin. eauto.
    + intros [v Hv]. exists (k, v). split; [done|].
      by apply elem_of_map_to_list.
  - intros k v. rewrite list_elem_of_In, in_map_iff. split.
    + intros ([k' v'] & [= -> ->] & Hin).
      by apply list_elem_of_In, elem_of_map_to_list in Hin.
    + intros Hv. exists (k, v). split; [done|].
      by apply list_elem_of_In, elem_of_map_to_list.
  - intros ->. by rewrite map_to_list_empty.
Qed.

Lemma listing_agrees_witness :
  MemoryStore.List MemoryStore.NewMemoryStore Background
  = (MemoryStore.NewMemoryStore, Some [], None)
  /\ MemoryStore.Size MemoryStore.NewMemoryStore Background
     = (MemoryStore.NewMemoryStore, 0, None).
Proof.
  destruct (listing_agrees MemoryStore.NewMemoryStore Background
              eq_refl eq_refl)
    as (keys & entries & HL & _ & HS & _ & _ & _ & _ & Hempty).
  destruct (Hempty eq_refl) as [-> _]. split; [exact HL | exact HS].
Defined.

(** X4. [Clear] on an open store under a live context succeeds and
    leaves no key: the map is empty, the key count of the statistics is
    0, [Size] returns 0 and every [Get] returns [ErrKeyNotFound]; the
    request counters are not touched and the store stays open. *)
Theorem Clear_empties (ms : MemoryStore.t) (ctx : Context) :
  ctx_Err ctx = None ->
  MemoryStore.closed ms = false ->
  let r := MemoryStore.Clear ms ctx in
  r.2 = None
  /\ MemoryStore.data r.1 = ∅
  /\ MemoryStore.closed r.1 = false
  /\ TotalKeys (MemoryStore.stats r.1) = 0
  /\ TotalRequests (MemoryStore.stats r.1) = TotalRequests (MemoryStore.stats ms)
  /\ MemoryStore.Size r.1 Background = (r.1, 0, None)
  /\ (forall key, Validate key = None ->
        (MemoryStore.Get r.1 Background key).2 = Some ErrKeyNotFound).
Proof.
  intros Hctx Hopen r. subst r. unfold MemoryStore.Clear.
  rewrite Hctx, Hopen. cbn. repeat split.
  - intros key Hvalid. unfold MemoryStore.Get. rewrite Hvalid. cbn.
    by rewrite lookup_empty.
Qed.

Lemma Clear_empties_witness :
  let ms := (MemoryStore.SetKey MemoryStore.NewMemoryStore Background 1
               "a" "x").1 in
  let r := MemoryStore.Clear ms Background in
  r.2 = None /\ MemoryStore.data r.1 = ∅
  /\ (MemoryStore.Get r.1 Background "a").2 = Some ErrKeyNotFound.
Proof.
  intros ms r.
  pose proof (Clear_empties ms Background eq_refl eq_refl)
    as (He & Hd & _ & _ & _ & _ & HG).
  split; [exact He|]. split; [exact Hd|]. exact (HG "a" eq_refl).
Defined.

(** X5. [Exists] answers what [Get] would find: on an open store, with
    a valid key and a live context, it returns [true] exactly when [Get]
    returns no error and [false] exactly when [Get] returns
    [ErrKeyNotFound]; unlike [Get] it leaves the store, counters
    included, as it was. *)
Theorem Exists_agrees_with_Get (ms : MemoryStore.t) (ctx : Context)
    (key : Key) :
  Validate key = None ->
  ctx_Err ctx = None ->
  MemoryStore.closed ms = false ->
  exists b,
    MemoryStore.Exists ms ctx key = (ms, b, None)
    /\ (b = true <-> (MemoryStore.Get ms ctx key).2 = None)
    /\ (b = false <-> (MemoryStore.Get ms ctx key).2 = Some ErrKeyNotFound)
    /\ GetRequests (MemoryStore.stats (MemoryStore.Get ms ctx key).1.1)
       = wrap64 (GetRequests (MemoryStore.stats ms) + 1).
Proof.
  intros Hvalid Hctx Hopen.
  unfold MemoryStore.Exists, MemoryStore.Get.
  rewrite Hvalid, Hctx, Hopen. cbn.
  destruct (MemoryStore.data ms !! key) as [v|] eqn:Hv; cbn;
    eexists; (split; [reflexivity|]); by repeat split.
Qed.

Lemma Exists_agrees_with_Get_witness :
  let ms := (MemoryStore.SetKey MemoryStore.NewMemoryStore Background 1
               "a" "x").1 in
  MemoryStore.Exists ms Background "a" = (ms, true, None)
  /\ MemoryStore.Exists ms Background "b" = (ms, false, None).
Proof.
  intros ms.
  destruct (Exists_agrees_with_Get ms Background "a" eq_refl eq_refl eq_refl)
    as (b1 & H1 & [_ Hb1] & _).
  destruct (Exists_agrees_with_Get ms Background "b" eq_refl eq_refl eq_refl)
    as (b2 & H2 & _ & [_ Hb2] & _).
  rewrite (Hb1 eq_refl) in H1. rewrite (Hb2 eq_refl) in H2.
  split; [exact H1 | exact H2].
Defined.

(** X6. A call whose key is invalid or whose context is cancelled or
    past its deadline has no effect: every method but [Close] returns
    the error of that check (the key's first, then the context's) and
    leaves the store, counters included, as it was, whether it is open
    or closed. *)
Theorem failed_precheck_no_effect (ms : MemoryStore.t) (now : Time) (o : op)
    (e : error) :
  op_precheck o = Some e ->
  (call ms now o).1 = ms /\ result_err (call ms now o).2 = Some e.
Proof.
  destruct o as [ctx k|ctx k value|ctx k|ctx|ctx|ctx|ctx|ctx k|ctx k ev nv|];
    cbn;
    unfold MemoryStore.Get, MemoryStore.SetKey, MemoryStore.Delete,
      MemoryStore.List, MemoryStore.ListEntries, MemoryStore.Size,
      MemoryStore.Clear, MemoryStore.Exists, MemoryStore.CompareAndSwap;
    try destruct (Validate k); try (by intros [= ->]);
    try (destruct (ctx_Err ctx); by intros [= ->]).
Qed.

Lemma failed_precheck_no_effect_witness :
  let ms := (MemoryStore.SetKey MemoryStore.NewMemoryStore Background 1
               "a" "x").1 in
  call ms 2 (OpSet CtxDeadlineExceeded "a" "y")
  = (ms, RError (Some DeadlineExceeded))
  /\ call ms 3 (OpDelete CtxCanceled "a") = (ms, RValue zeroValue (Some Canceled)).
Proof.
  intros ms.
  destruct (failed_precheck_no_effect ms 2 (OpSet CtxDeadlineExceeded "a" "y")
              DeadlineExceeded eq_refl) as [H1 H2].
  split; reflexivity.
Defined.

Lemma stats_ok_step (ms ms' : MemoryStore.t) (n : Z) (now : Time) (o : op)
    (r : result) :
  stats_ok n ms -> 0 <= n < max_int64 ->
  call ms now o = (ms', r) ->
  stats_ok (n + 1) ms'.
Proof.
  intros (Hk & Hg & Hs & Hd & Ht & Hn) Hb.
  assert (Hw : forall z, 0 <= z <= n -> wrap64 (z + 1) = z + 1).
  { intros z Hz. apply wrap64_succ. unfold min_int64, max_int64 in *. lia. }
  assert (Hsame : stats_ok (n + 1) ms) by (unfold stats_ok; cbv zeta; lia).
  destruct o as [ctx k|ctx k value|ctx k|ctx|ctx|ctx|ctx|ctx k|ctx k ev nv|];
    cbn;
    unfold MemoryStore.Get, MemoryStore.SetKey, MemoryStore.Delete,
      MemoryStore.List, MemoryStore.ListEntries, MemoryStore.Size,
      MemoryStore.Clear, MemoryStore.Exists, MemoryStore.CompareAndSwap,
      MemoryStore.Close;
    try (destruct (Validate k); [by intros [= <- <-]|]);
    try (destruct (ctx_Err ctx); [by intros [= <- <-]|]);
    try (destruct (MemoryStore.closed ms) eqn:Hc; [by intros [= <- <-]|]).
  - cbn. destruct (MemoryStore.data ms !! k); intros [= <- <-];
      unfold stats_ok; cbn; rewrite !Hw by lia; lia.
  - intros [= <- <-]. unfold stats_ok. cbn. rewrite !Hw by lia. lia.
  - cbn. destruct (MemoryStore.data ms !! k); intros [= <- <-];
      unfold stats_ok; cbn; rewrite !Hw by lia; lia.
  - by intros [= <- <-].
  - by intros [= <- <-].
  - by intros [= <- <-].
  - intros [= <- <-]. unfold stats_ok. cbn. rewrite map_size_empty. lia.
  - by intros [= <- <-].
  - destruct (MemoryStore.data ms !! k) as [cur|] eqn:Hcur;
      [|by intros [= <- <-]].
    destruct (negb (Version cur =? ev)); intros [= <- <-]; [done|].
    unfold stats_ok. cbn. rewrite map_size_insert_Some by eauto. lia.
  - intros [= <- <-]. unfold stats_ok in *. cbn. lia.
Qed.

(** X7. The statistics of a [MemoryStore] stay consistent: in every
    state reached from [NewMemoryStore] by fewer than 2^63 calls,
    [TotalKeys] is the number of stored keys, [TotalRequests] is the sum
    of the three per-operation counters and is at most the number of
    calls made, and [GetStats] reports exactly these. *)
Theorem stats_consistent (calls : list (Time * op)) :
  Z.of_nat (length calls) <= max_int64 ->
  let ms := (run MemoryStore.NewMemoryStore calls).1 in
  let st := MemoryStore.GetStats ms in
  TotalKeys st = Z.of_nat (size (MemoryStore.data ms))
  /\ TotalRequests st = GetRequests st + SetRequests st + DeleteRequests st
  /\ 0 <= TotalRequests st <= Z.of_nat (length calls).
Proof.
  intros Hlen ms st.
  assert (Hgen : forall calls (m : MemoryStore.t) n,
             stats_ok n m -> 0 <= n ->
             n + Z.of_nat (length calls) <= max_int64 ->
             stats_ok (n + Z.of_nat (length calls)) (run m calls).1).
  { clear. induction calls as [|[now o] rest IH]; intros m n Hok Hn Hb.
    - cbn. by rewrite Z.add_0_r.
    - cbn [run]. destruct (call m now o) as [m1 r] eqn:Hcall.
      destruct (run m1 rest) as [m2 rs] eqn:Hrun. cbn [fst length] in *.
      replace (n + Z.of_nat (Datatypes.S (length rest)))
        with ((n + 1) + Z.of_nat (length rest)) by lia.
      replace m2 with (run m1 rest).1 by (by rewrite Hrun).
      apply IH; [|lia|lia].
      eapply stats_ok_step; [exact Hok | lia | exact Hcall]. }
  destruct (Hgen calls MemoryStore.NewMemoryStore 0) as (Hk & Hg & Hs & Hd & Ht & Hn).
  - unfold stats_ok. cbn. rewrite map_size_empty. lia.
  - lia.
  - lia.
  - subst st ms. unfold MemoryStore.GetStats. cbn [TotalKeys TotalRequests
      GetRequests SetRequests DeleteRequests]. lia.
Qed.

Lemma stats_consistent_witness :
  let calls := [(1, OpSet Background "a" "x"); (2, OpGet Background "a");
                (3, OpGet Background "zz"); (4, OpExists Background "a");
                (5, OpDelete Background "a"); (6, OpSize Background)] in
  MemoryStore.GetStats (run MemoryStore.NewMemoryStore calls).1
  = {| TotalKeys := 0; TotalRequests := 4; GetRequests := 2;
       SetRequests := 1; DeleteRequests := 1 |}
  /\ 0 <= 4 <= 6.
Proof.
  intros calls. split; [reflexivity|].
  pose proof (stats_consistent calls
                ltac:(unfold max_int64; simpl; lia)) as (_ & _ & H).
  exact H.
Defined.

(** X8. Only valid keys are ever stored: in every state reached from
    [NewMemoryStore], each stored key passes [Key.Validate]. *)
Theorem stored_keys_valid (calls : list (Time * op)) :
  keys_valid (MemoryStore.data (run MemoryStore.NewMemoryStore calls).1).
Proof.
  assert (Hgen : forall calls (m : MemoryStore.t),
             keys_valid (MemoryStore.data m) ->
             keys_valid (MemoryStore.data (run m calls).1)).
  { clear. induction calls as [|[now o] rest IH]; intros m Hok; [done|].
    cbn [run]. destruct (call m now o) as [m1 r] eqn:Hcall.
    destruct (run m1 rest) as [m2 rs] eqn:Hrun. cbn [fst].
    replace m2 with (run m1 rest).1 by (by rewrite Hrun).
    apply IH. intros k v.
    destruct (call_data_change _ _ _ _ _ Hcall)
      as [Hd | ctx k' value -> _ Hv Hd | ctx k' ev nv cur -> _ Hcur _ Hd
          | ctx k' -> Hd | ctx -> Hd]; rewrite Hd.
    - apply Hok.
    - destruct (decide (k' = k)) as [->|Hne]; [done|].
      rewrite lookup_insert_ne by done. apply Hok.
    - destruct (decide (k' = k)) as [->|Hne]; [intros _; by eapply Hok|].
      rewrite lookup_insert_ne by done. apply Hok.
    - destruct (decide (k' = k)) as [->|Hne];
        [by rewrite lookup_delete_eq|].
      rewrite lookup_delete_ne by done. apply Hok.
    - by rewrite lookup_empty. }
  apply Hgen. intros k v Hl. exact (False_ind _ (lookup_empty_Some k v Hl)).
Qed.

Lemma CompareAndSwap_live (ms : MemoryStore.t) (now : Time) (key : Key)
    (expectedVersion : Z) (newValue : string) (cur : Value) :
  Validate key = None ->
  MemoryStore.closed ms = false ->
  MemoryStore.data ms !! key = Some cur ->
  MemoryStore.CompareAndSwap ms Background now key expectedVersion newValue
  = if Version cur =? expectedVersion
    then (MemoryStore.store_key ms key (cas_value now newValue cur),
          cas_value now newValue cur, None)
    else (ms, cur, Some ErrConcurrentModification).
Proof.
  intros Hvalid Hopen Hcur. unfold MemoryStore.CompareAndSwap.
  rewrite Hvalid, Hopen, Hcur. cbn.
  by destruct (Version cur =? expectedVersion).
Qed.

(** X9. The optimistic update loop works as intended. On an open store
    holding [key] at a version below the largest [int64]: a
    [CompareAndSwap] with the version a [Get] has just returned
    succeeds; a second [CompareAndSwap] with that same, now stale,
    version fails with [ErrConcurrentModification], changes nothing and
    returns the value the first one stored; and retrying with the
    version of that returned value succeeds. *)
Theorem Get_then_CompareAndSwap (ms : MemoryStore.t) (now1 now2 now3 : Time)
    (key : Key) (d1 d2 : string) (cur : Value) :
  Validate key = None ->
  MemoryStore.closed ms = false ->
  MemoryStore.data ms !! key = Some cur ->
  min_int64 <= Version cur < max_int64 - 1 ->
  let g := MemoryStore.Get ms Background key in
  let r1 := MemoryStore.CompareAndSwap g.1.1 Background now1 key
              (Version g.1.2) d1 in
  let r2 := MemoryStore.CompareAndSwap r1.1.1 Background now2 key
              (Version g.1.2) d2 in
  let r3 := MemoryStore.CompareAndSwap r2.1.1 Background now3 key
              (Version r2.1.2) d2 in
  g.2 = None /\ g.1.2 = cur
  /\ r1.2 = None /\ Data r1.1.2 = d1 /\ Version r1.1.2 = Version cur + 1
  /\ r2.2 = Some ErrConcurrentModification /\ r2.1.2 = r1.1.2
  /\ r2.1.1 = r1.1.1
  /\ r3.2 = None /\ Data r3.1.2 = d2 /\ Version r3.1.2 = Version cur + 2
  /\ MemoryStore.data r3.1.1 !! key = Some r3.1.2.
Proof.
  intros Hvalid Hopen Hcur Hrange g r1 r2 r3.
  destruct (Get_stored ms key cur Hvalid Hopen Hcur) as (m0 & HG & Hd0).
  assert (Hc0 : MemoryStore.closed m0 = false).
  { revert HG. unfold MemoryStore.Get. rewrite Hvalid, Hopen. cbn.
    rewrite Hcur. by intros [= <-]. }
  assert (Hg : g = (m0, cur, None)) by exact HG.
  assert (Hcur0 : MemoryStore.data m0 !! key = Some cur) by (by rewrite Hd0).
  assert (Hv1 : wrap64 (Version cur + 1) = Version cur + 1)
    by (apply wrap64_succ; lia).
  assert (Hr1 : r1 = (MemoryStore.store_key m0 key (cas_value now1 d1 cur),
                      cas_value now1 d1 cur, None)).
  { subst r1. rewrite Hg. cbn [fst snd].
    rewrite (CompareAndSwap_live m0 now1 key _ d1 cur Hvalid Hc0 Hcur0).
    by rewrite Z.eqb_refl. }
  set (m1 := MemoryStore.store_key m0 key (cas_value now1 d1 cur)) in *.
  set (v1 := cas_value now1 d1 cur) in *.
  assert (Hcur1 : MemoryStore.data m1 !! key = Some v1)
    by (subst m1; cbn; apply lookup_insert_eq).
  assert (Hver1 : Version v1 = Version cur + 1) by (subst v1; cbn; lia).
  assert (Hr2 : r2 = (m1, v1, Some ErrConcurrentModification)).
  { subst r2. rewrite Hr1, Hg. cbn [fst snd].
    rewrite (CompareAndSwap_live m1 now2 key _ d2 v1 Hvalid Hc0 Hcur1).
    assert ((Version v1 =? Version cur) = false) as ->
      by (apply Z.eqb_neq; lia). done. }
  assert (Hr3 : r3 = (MemoryStore.store_key m1 key (cas_value now3 d2 v1),
                      cas_value now3 d2 v1, None)).
  { subst r3. rewrite Hr2. cbn [fst snd].
    rewrite (CompareAndSwap_live m1 now3 key _ d2 v1 Hvalid Hc0 Hcur1).
    by rewrite Z.eqb_refl. }
  assert (Hver3 : Version (cas_value now3 d2 v1) = Version cur + 2).
  { change (Version (cas_value now3 d2 v1)) with (wrap64 (Version v1 + 1)).
    rewrite Hver1, wrap64_succ by lia. lia. }
  assert (Hcur3 : MemoryStore.data
                    (MemoryStore.store_key m1 key (cas_value now3 d2 v1))
                  !! key = Some (cas_value now3 d2 v1))
    by (cbn; apply lookup_insert_eq).
  rewrite Hg, Hr1, Hr2, Hr3. cbn [fst snd].
  repeat split; done.
Qed.

Lemma Get_then_CompareAndSwap_witness :
  let ms := (MemoryStore.SetKey MemoryStore.NewMemoryStore Background 1
               "k" "v0").1 in
  let m0 := (MemoryStore.Get ms Background "k").1.1 in
  let r1 := MemoryStore.CompareAndSwap m0 Background 2 "k" 1 "mine" in
  let r2 := MemoryStore.CompareAndSwap r1.1.1 Background 3 "k" 1 "theirs" in
  r1.2 = None /\ r2.2 = Some ErrConcurrentModification
  /\ Data r2.1.2 = "mine" /\ Version r2.1.2 = 2.
Proof.
  intros ms m0 r1 r2.
  pose proof (Get_then_CompareAndSwap ms 2 3 4 "k" "mine" "theirs"
                {| Data := "v0"; CreatedAt := 1; UpdatedAt := 1; Version := 1 |}
                eq_refl eq_refl eq_refl
                ltac:(unfold min_int64, max_int64; cbn [Version]; lia))
    as (_ & _ & H1 & _ & _ & H2 & _).
  split; [exact H1|]. split; [exact H2|]. split; reflexivity.
Defined.

(** X10. Nothing has any effect on a closed [MemoryStore]: whatever
    calls follow, the store (data, counters and flag) stays exactly as
    it was, and every call other than [Close] returns an error. *)
Theorem closed_store_frozen (ms : MemoryStore.t) (calls : list (Time * op)) :
  MemoryStore.closed ms = true ->
  (run ms calls).1 = ms
  /\ Forall2 (fun c r => is_close c.2 = false -> result_err r <> None)
             calls (run ms calls).2.
Proof.
  intros Hclosed. induction calls as [|[now o] rest [IHs IHr]].
  - split; [done | constructor].
  - cbn [run].
    assert (Hcall : (call ms now o).1 = ms
                    /\ (is_close o = false -> result_err (call ms now o).2 <> None)).
    { destruct (is_close o) eqn:Hc.
      - destruct o; try discriminate. split; [|done].
        cbn. destruct ms. cbn in *. by subst.
      - destruct (MemoryStore_closed_call ms now o Hclosed Hc) as [Hs Hr].
        split; [done|]. intros _. rewrite Hr. by destruct (op_precheck o). }
    destruct (call ms now o) as [m1 r]. cbn [fst snd] in Hcall.
    destruct Hcall as [-> Hr].
    destruct (run ms rest) as [m2 rs]. cbn [fst snd] in *.
    split; [done|]. by constructor.
Qed.

Lemma closed_store_frozen_witness :
  let ms := (MemoryStore.Close
               (MemoryStore.SetKey MemoryStore.NewMemoryStore Background 1
                  "a" "x").1).1 in
  (run ms [(2, OpSet Background "a" "y"); (3, OpClear Background);
           (4, OpDelete Background "a"); (5, OpClose)]).1 = ms.
Proof.
  intros ms.
  exact (proj1 (closed_store_frozen ms _ eq_refl)).
Defined.

(** X11. [IsEmpty] tells a miss from a hit. It holds of the zero [Value]
    and of no other; and in every state reached from [NewMemoryStore]
    (fewer than 2^63 calls, clock not going back) the value [Get]
    returns is empty exactly when [Get] returns an error. *)
Theorem IsEmpty_iff_miss (t0 : Time) (calls : list (Time * op))
    (ctx : Context) (key : Key) :
  clock_monotone t0 calls ->
  Z.of_nat (length calls) <= max_int64 ->
  let ms := (run MemoryStore.NewMemoryStore calls).1 in
  (forall v, IsEmpty v = true <-> v = zeroValue)
  /\ (IsEmpty (MemoryStore.Get ms ctx key).1.2 = true
      <-> (MemoryStore.Get ms ctx key).2 <> None).
Proof.
  intros Hmono Hlen ms. split.
  - intros [d c u n]. unfold IsEmpty, zeroValue. cbn. split.
    + intros Hb. repeat (apply andb_true_iff in Hb as [Hb ?]).
      apply String.eqb_eq in Hb. f_equal; [done|lia|lia|lia].
    + by intros [= -> -> -> ->].
  - pose proof (values_ok_run calls MemoryStore.NewMemoryStore t0 0
                  ltac:(intros k0 v0 Hl;
                        exact (False_ind _ (lookup_empty_Some k0 v0 Hl)))
                  ltac:(lia) ltac:(lia) Hmono) as Hok.
    fold ms in Hok. unfold MemoryStore.Get.
    destruct (Validate key); [done|].
    destruct (ctx_Err ctx); [done|].
    destruct (MemoryStore.closed ms); [done|]. cbn.
    destruct (MemoryStore.data ms !! key) as [v|] eqn:Hv; cbn; [|done].
    destruct (Hok key v Hv) as (_ & _ & Hver & _).
    split; [|done]. unfold IsEmpty. intros Hb.
    repeat (apply andb_true_iff in Hb as [Hb ?]). lia.
Qed.

Lemma IsEmpty_iff_miss_witness :
  let ms := (run MemoryStore.NewMemoryStore
               [(1, OpSet Background "a" EmptyString)]).1 in
  IsEmpty (MemoryStore.Get ms Background "a").1.2 = false
  /\ IsEmpty (MemoryStore.Get ms Background "b").1.2 = true.
Proof.
  intros ms.
  pose proof (IsEmpty_iff_miss 0 [(1, OpSet Background "a" EmptyString)]
                Background "b" ltac:(simpl; lia)
                ltac:(unfold max_int64; simpl; lia)) as [_ [_ H]].
  split; [reflexivity|]. apply H. discriminate.
Defined.

(* ===================================================================== *)
(** * Further properties of the JSON file persistence                     *)
(* ===================================================================== *)

Lemma cleanup_lookup_ne (env : OSEnv) (tempFile path : string)
    (d : gmap string string) :
  path <> tempFile ->
  JSONFilePersistence.cleanup env tempFile d !! path = d !! path.
Proof.
  intros Hne. unfold JSONFilePersistence.cleanup.
  destruct (d !! tempFile); [|done].
  destruct (Remove_err env); [done|]. by rewrite lookup_delete_ne.
Qed.

Lemma cleanup_removes (env : OSEnv) (tempFile : string)
    (d : gmap string string) :
  Remove_err env = None ->
  JSONFilePersistence.cleanup env tempFile d !! tempFile = None.
Proof.
  intros Hrm. unfold JSONFilePersistence.cleanup.
  destruct (d !! tempFile) eqn:Hd; [|done].
  rewrite Hrm. apply lookup_delete_eq.
Qed.

Section FilePersistenceMore.
Context `{JSON}.

(** What [Save] does to the target file. *)
Lemma Save_effect (j : JSONFilePersistence.t) (ctx : Context)
    (snapshot : option StoreSnapshot) :
  let r := JSONFilePersistence.Save j ctx snapshot in
  JSONFilePersistence.filePath r.1 = JSONFilePersistence.filePath j
  /\ JSONFilePersistence.os r.1 = JSONFilePersistence.os j
  /\ match r.2 with
     | Some _ =>
         JSONFilePersistence.disk r.1 !! JSONFilePersistence.filePath j
         = JSONFilePersistence.disk j !! JSONFilePersistence.filePath j
     | None =>
         exists snap bytes,
           snapshot = Some snap /\ accepted snap
           /\ MarshalIndent snap = inr bytes
           /\ JSONFilePersistence.disk r.1 !! JSONFilePersistence.filePath j
              = Some bytes
     end.
Proof.
  intros r. subst r. unfold JSONFilePersistence.Save.
  destruct snapshot as [snap|]; [|done].
  destruct (ValidateSnapshot (Some snap)) eqn:Hval; [done|].
  destruct (MarshalIndent snap) as [e|bytes] eqn:Hm; [done|].
  destruct (if negb _ && negb _ then _ else _); [done|].
  destruct (JSONFilePersistence.generateTempFileName j)
    as [e|tempFile] eqn:Htmp; [done|].
  pose proof (tempFile_fresh _ _ Htmp) as Hfresh.
  assert (Hfresh' : JSONFilePersistence.filePath j <> tempFile) by done.
  destruct (WriteFile_fault (JSONFilePersistence.os j)) as [[e partial]|].
  { cbn. repeat split. rewrite cleanup_lookup_ne by done.
    destruct partial; [by rewrite lookup_insert_ne|done]. }
  destruct (Rename_err (JSONFilePersistence.os j)).
  { cbn. repeat split. rewrite cleanup_lookup_ne by done.
    by rewrite lookup_insert_ne. }
  cbn. repeat split. exists snap, bytes.
  split; [done|]. split; [by apply accepted_validates|]. split; [done|].
  rewrite cleanup_lookup_ne by done. apply lookup_insert_eq.
Qed.

(** X12. [Save] is atomic on the target file, whatever fails: it never
    changes its path or its view of the operating system; when it
    returns an error the target file holds what it held before (or is
    still absent); when it returns none, the snapshot was accepted and
    the target file holds exactly its serialization. *)
Theorem Save_atomic (j : JSONFilePersistence.t) (ctx : Context)
    (snapshot : option StoreSnapshot) :
  let r := JSONFilePersistence.Save j ctx snapshot in
  JSONFilePersistence.filePath r.1 = JSONFilePersistence.filePath j
  /\ JSONFilePersistence.os r.1 = JSONFilePersistence.os j
  /\ match r.2 with
     | Some _ =>
         JSONFilePersistence.disk r.1 !! JSONFilePersistence.filePath j
         = JSONFilePersistence.disk j !! JSONFilePersistence.filePath j
     | None =>
         exists snap bytes,
           snapshot = Some snap /\ accepted snap
           /\ MarshalIndent snap = inr bytes
           /\ JSONFilePersistence.disk r.1 !! JSONFilePersistence.filePath j
              = Some bytes
     end.
Proof. apply Save_effect. Qed.

(** X13. [Save] touches two files at most, the target and its temporary
    file, and does not leave the temporary file behind: every other
    file is as it was, and if [os.Remove] works then after [Save],
    whatever its outcome, either the disk is unchanged or the temporary
    file does not exist. *)
Theorem Save_footprint (j : JSONFilePersistence.t) (ctx : Context)
    (snapshot : option StoreSnapshot) (tempFile : string) :
  JSONFilePersistence.generateTempFileName j = inr tempFile ->
  let r := JSONFilePersistence.Save j ctx snapshot in
  (forall path,
     path <> JSONFilePersistence.filePath j -> path <> tempFile ->
     JSONFilePersistence.disk r.1 !! path = JSONFilePersistence.disk j !! path)
  /\ (Remove_err (JSONFilePersistence.os j) = None ->
      r.1 = j \/ JSONFilePersistence.disk r.1 !! tempFile = None).
Proof.
  intros Htmp r. subst r. unfold JSONFilePersistence.Save.
  destruct snapshot as [snap|]; [|by split; auto].
  destruct (ValidateSnapshot (Some snap)); [by split; auto|].
  destruct (MarshalIndent snap) as [e|bytes]; [by split; auto|].
  destruct (if negb _ && negb _ then _ else _); [by split; auto|].
  rewrite Htmp.
  destruct (WriteFile_fault (JSONFilePersistence.os j)) as [[e partial]|].
  { cbn. split.
    - intros path Hp Ht. rewrite cleanup_lookup_ne by done.
      destruct partial; [by rewrite lookup_insert_ne|done].
    - intros Hrm. right. by apply cleanup_removes. }
  destruct (Rename_err (JSONFilePersistence.os j)).
  { cbn. split.
    - intros path Hp Ht. rewrite cleanup_lookup_ne by done.
      by rewrite lookup_insert_ne.
    - intros Hrm. right. by apply cleanup_removes. }
  cbn. split.
  - intros path Hp Ht. rewrite cleanup_lookup_ne by done.
    rewrite lookup_insert_ne by done. rewrite lookup_delete_ne by done.
    by rewrite lookup_insert_ne.
  - intros Hrm. right. by apply cleanup_removes.
Qed.

(** X14. [Load] returns only what is on disk and valid: if it returns
    a snapshot, the file exists, is not empty, deserializes to that
    snapshot, and the snapshot passes [ValidateSnapshot]. [Load] never
    changes the persistence. *)
Theorem Load_sound (j j' : JSONFilePersistence.t) (ctx : Context)
    (snap : StoreSnapshot) :
  JSONFilePersistence.Load j ctx = (j', inr snap) ->
  j' = j
  /\ accepted snap
  /\ exists content,
       JSONFilePersistence.disk j !! JSONFilePersistence.filePath j
       = Some content
       /\ content <> EmptyString
       /\ Unmarshal content = inr snap.
Proof.
  unfold JSONFilePersistence.Load.
  destruct (JSONFilePersistence.disk j !! JSONFilePersistence.filePath j)
    as [content|]; [|discriminate].
  destruct (ReadFile_err (JSONFilePersistence.os j)); [discriminate|].
  destruct (Nat.eqb_spec (String.length content) 0) as [Hz|Hnz];
    [discriminate|].
  destruct (Unmarshal content) as [e|s] eqn:Hu; [discriminate|].
  destruct (ValidateSnapshot (Some s)) eqn:Hv; [discriminate|].
  intros [= <- <-]. split; [done|]. split; [by apply accepted_validates|].
  exists content. repeat split; [|done]. intros ->. by apply Hnz.
Qed.

Lemma Load_depends (j1 j2 : JSONFilePersistence.t) (ctx ctx' : Context) :
  JSONFilePersistence.filePath j1 = JSONFilePersistence.filePath j2 ->
  JSONFilePersistence.os j1 = JSONFilePersistence.os j2 ->
  JSONFilePersistence.disk j1 !! JSONFilePersistence.filePath j1
  = JSONFilePersistence.disk j2 !! JSONFilePersistence.filePath j2 ->
  (JSONFilePersistence.Load j1 ctx).2 = (JSONFilePersistence.Load j2 ctx').2.
Proof.
  intros Hp Ho Hd. unfold JSONFilePersistence.Load. rewrite Hd, Ho.
  destruct (JSONFilePersistence.disk j2 !! JSONFilePersistence.filePath j2)
    as [content|]; [|done].
  destruct (ReadFile_err _); [done|].
  destruct (String.length content =? 0)%nat; [done|].
  destruct (Unmarshal content); [done|].
  by destruct (ValidateSnapshot _).
Qed.

(** X15. A failed [Save] loses nothing: whenever [Save] returns an
    error, whatever the reason, a [Load] afterwards returns exactly
    what a [Load] before it would have returned. *)
Theorem failed_Save_keeps_previous (j : JSONFilePersistence.t)
    (ctx ctx' : Context) (snapshot : option StoreSnapshot) :
  (JSONFilePersistence.Save j ctx snapshot).2 <> None ->
  (JSONFilePersistence.Load (JSONFilePersistence.Save j ctx snapshot).1 ctx').2
  = (JSONFilePersistence.Load j ctx').2.
Proof.
  intros Hfail.
  destruct (Save_effect j ctx snapshot) as (Hp & Ho & Hd).
  destruct ((JSONFilePersistence.Save j ctx snapshot).2); [|done].
  apply Load_depends; [done | done | by rewrite Hp].
Qed.

End FilePersistenceMore.

Lemma Load_sound_witness :
  let j := JSONFilePersistence.NewJSONFilePersistence
             "snapshot.json" ∅ quiet_os in
  let j1 := (@JSONFilePersistence.Save AsciiJSON_JSON j Background
               (Some scenarioC)).1 in
  exists snap,
    @JSONFilePersistence.Load AsciiJSON_JSON j1 Background = (j1, inr snap)
    /\ accepted snap.
Proof.
  intros j j1.
  assert (HL : exists snap,
             @JSONFilePersistence.Load AsciiJSON_JSON j1 Background
             = (j1, inr snap)) by (eexists; vm_compute; reflexivity).
  destruct HL as [snap HL]. exists snap. split; [exact HL|].
  exact (proj1 (proj2 (@Load_sound AsciiJSON_JSON j1 j1 Background snap HL))).
Defined.

Lemma Save_footprint_witness :
  let j := JSONFilePersistence.NewJSONFilePersistence
             "snapshot.json" {[ "other.txt" := "keep" ]} rename_fails_os in
  let r := @JSONFilePersistence.Save AsciiJSON_JSON j Background
             (Some scenarioC) in
  r.2 <> None
  /\ JSONFilePersistence.disk r.1 !! "other.txt" = Some "keep"
  /\ JSONFilePersistence.disk r.1 !! "snapshot.json.tmp.6162636465666768"
     = None.
Proof.
  intros j r.
  destruct (@Save_footprint AsciiJSON_JSON j Background (Some scenarioC)
              "snapshot.json.tmp.6162636465666768" eq_refl) as [Hother Htemp].
  split; [vm_compute; discriminate|]. split.
  - rewrite Hother; [reflexivity | discriminate | discriminate].
  - destruct (Htemp eq_refl) as [Hsame | Hgone]; [|exact Hgone].
    vm_compute. reflexivity.
Defined.

(** A good save, then a save of other data on which [os.Rename] fails:
    the first snapshot is still the one loaded. *)
Lemma failed_Save_keeps_previous_witness :
  let j := JSONFilePersistence.NewJSONFilePersistence
             "snapshot.json" ∅ quiet_os in
  let j1 := (@JSONFilePersistence.Save AsciiJSON_JSON j Background
               (Some scenarioC)).1 in
  let j2 := JSONFilePersistence.mk "snapshot.json"
              (JSONFilePersistence.disk j1) rename_fails_os in
  let r := @JSONFilePersistence.Save AsciiJSON_JSON j2 Background
             (Some scenarioD) in
  r.2 <> None
  /\ (SnapData <$> sum_rect (fun _ => option StoreSnapshot)
                     (fun _ => None) Some
                     (@JSONFilePersistence.Load AsciiJSON_JSON r.1 Background).2)
     = Some (Some {[ "a" := "1"; "b" := "2" ]}).
Proof.
  intros j j1 j2 r.
  assert (Hfail : r.2 <> None) by (vm_compute; discriminate).
  split; [exact Hfail|].
  pose proof (@failed_Save_keeps_previous AsciiJSON_JSON j2 Background
                Background (Some scenarioD) Hfail) as Hkeep.
  subst r. rewrite Hkeep. vm_compute. reflexivity.
Defined.

(* ===================================================================== *)
(** * Further properties of the durable store                             *)
(* ===================================================================== *)

Section DurableMore.
Context {P : Type} `{Persistence P}.

Lemma createSnapshot_closed (ps : PersistentStore.t MemoryStore.t P)
    (now : Time) :
  MemoryStore.closed (PersistentStore.store ps) = true ->
  PersistentStore.createSnapshot ps now
  = (ps, inl (Errorf "failed to list entries: %w" ErrStoreClosed)).
Proof.
  intros Hc. unfold PersistentStore.createSnapshot.
  cbn [ListEntries MemoryStore_Store].
  unfold MemoryStore.ListEntries. cbn [ctx_Err]. rewrite Hc.
  by rewrite with_store_same.
Qed.

(** X16. The snapshot [createSnapshot] builds of a [MemoryStore]: when
    the store is closed it fails with an error wrapping
    [ErrStoreClosed]; otherwise it maps each stored key to the data of
    its value, counts the keys in its statistics, is empty exactly when
    the store is, and passes [ValidateSnapshot] exactly when the clock
    is past the Unix epoch. The durable store is left as it was. *)
Theorem createSnapshot_faithful (ps : PersistentStore.t MemoryStore.t P)
    (now : Time) :
  if MemoryStore.closed (PersistentStore.store ps)
  then PersistentStore.createSnapshot ps now
       = (ps, inl (Errorf "failed to list entries: %w" ErrStoreClosed))
  else exists snap,
      PersistentStore.createSnapshot ps now = (ps, inr snap)
      /\ (forall k,
            (SnapData snap ≫= (fun m => m !! k))
            = Data <$> MemoryStore.data (PersistentStore.store ps) !! k)
      /\ SnapshotSize snap
         = Z.of_nat (size (MemoryStore.data (PersistentStore.store ps)))
      /\ TotalKeys (SnapStats snap) = SnapshotSize snap
      /\ (SnapshotIsEmpty snap = true
          <-> MemoryStore.data (PersistentStore.store ps) = ∅)
      /\ (ValidateSnapshot (Some snap) = None
          <-> 0 < PersistentStore.Unix now).
Proof.
  destruct (MemoryStore.closed (PersistentStore.store ps)) eqn:Hc.
  - by apply createSnapshot_closed.
  - eexists. split; [by apply createSnapshot_open|].
    unfold SnapshotIsEmpty, SnapshotSize, snapshot_data. cbn [SnapData
      SnapStats TotalKeys SnapVersion SnapTimestamp].
    rewrite map_size_fmap. repeat split.
    + intros k. cbn. by rewrite lookup_fmap.
    + intros Hz. apply Z.eqb_eq in Hz. apply map_size_empty_inv. lia.
    + intros ->. by rewrite map_size_empty.
    + unfold ValidateSnapshot. cbn.
      destruct (Z.leb_spec (PersistentStore.Unix now) 0); [done | lia].
    + intros Hpos. unfold ValidateSnapshot. cbn.
      destruct (Z.leb_spec (PersistentStore.Unix now) 0); [lia | done].
Qed.

Lemma initialise_store {S : Type} `{Store S} (s : S) (p : P)
    (cfg : PersistentStoreConfig) (nows : string -> Time) :
  let cfg' :=
    {| AutoSave := AutoSave cfg;
       SaveInterval :=
         if SaveInterval cfg =? 0 then 30 * second else SaveInterval cfg;
       SaveOnShutdown := SaveOnShutdown cfg;
       RetryAttempts :=
         if RetryAttempts cfg =? 0 then 3 else RetryAttempts cfg;
       RetryDelay :=
         if RetryDelay cfg =? 0 then 1 * second else RetryDelay cfg |} in
  let ps0 := PersistentStore.mk s p cfg' (make_chan 100) None false false
               false in
  let ps := PersistentStore.initialise s p cfg nows in
  PersistentStore.store ps
  = PersistentStore.store (PersistentStore.loadData ps0 nows).1
  /\ PersistentStore.persistence ps
     = PersistentStore.persistence (PersistentStore.loadData ps0 nows).1
  /\ PersistentStore.config ps = cfg'
  /\ PersistentStore.saveChannel ps = make_chan 100
  /\ PersistentStore.closed ps = false
  /\ PersistentStore.shutdownOnce ps = false
  /\ PersistentStore.worker ps = true
  /\ PersistentStore.periodicSaveTimer ps
     = if 0 <? SaveInterval cfg' then Some true else None.
Proof.
  intros cfg' ps0 ps. subst ps. unfold PersistentStore.initialise.
  fold cfg'. fold ps0.
  destruct (loadData_control ps0 nows) as (Hcfg & Hch & Htm & Hso & Hcl & _).
  destruct (0 <? SaveInterval cfg'); unfold PersistentStore.startPeriodicSave;
    cbn; rewrite ?Hcl; cbn; rewrite ?Hcfg, ?Hch, ?Htm, ?Hso, ?Hcl; done.
Qed.

(** X17. [NewPersistentStore] refuses a [nil] store and a [nil]
    persistence, and otherwise always returns a store, whatever [Load]
    does. The store it returns is open, has an empty signal queue, a
    running worker, and the given configuration with a zero
    [SaveInterval], [RetryAttempts] or [RetryDelay] replaced by 30 s, 3
    and 1 s (so none of the three is ever zero, and retries cannot be
    switched off with 0); the timer is armed exactly when the interval
    is positive. *)
Theorem NewPersistentStore_defaults {S : Type} `{Store S} (s : S) (p : P)
    (cfg : PersistentStoreConfig) (nows : string -> Time) :
  PersistentStore.NewPersistentStore (S := S) (P := P) None (Some p) cfg nows
  = (None, Some (ErrorNew "store cannot be nil"))
  /\ PersistentStore.NewPersistentStore (P := P) (Some s) None cfg nows
     = (None, Some (ErrorNew "persistence cannot be nil"))
  /\ exists ps,
       PersistentStore.NewPersistentStore (Some s) (Some p) cfg nows
       = (Some ps, None)
       /\ PersistentStore.closed ps = false
       /\ PersistentStore.worker ps = true
       /\ chan_len (PersistentStore.saveChannel ps) = 0%nat
       /\ AutoSave (PersistentStore.config ps) = AutoSave cfg
       /\ SaveOnShutdown (PersistentStore.config ps) = SaveOnShutdown cfg
       /\ SaveInterval (PersistentStore.config ps)
          = (if SaveInterval cfg =? 0 then 30 * second else SaveInterval cfg)
       /\ RetryAttempts (PersistentStore.config ps)
          = (if RetryAttempts cfg =? 0 then 3 else RetryAttempts cfg)
       /\ RetryDelay (PersistentStore.config ps)
          = (if RetryDelay cfg =? 0 then 1 * second else RetryDelay cfg)
       /\ SaveInterval (PersistentStore.config ps) <> 0
       /\ RetryAttempts (PersistentStore.config ps) <> 0
       /\ RetryDelay (PersistentStore.config ps) <> 0
       /\ (PersistentStore.periodicSaveTimer ps = Some true
           <-> 0 < SaveInterval (PersistentStore.config ps)).
Proof.
  split; [done|]. split; [done|].
  eexists. split; [reflexivity|].
  destruct (initialise_store s p cfg nows)
    as (_ & _ & Hcfg & Hch & Hcl & _ & Hw & Htm).
  rewrite Hcfg, Hch, Hcl, Hw, Htm. cbn [AutoSave SaveOnShutdown SaveInterval
    RetryAttempts RetryDelay chan_len make_chan].
  repeat split; try done.
  - destruct (Z.eqb_spec (SaveInterval cfg) 0); [unfold second; lia | done].
  - destruct (Z.eqb_spec (RetryAttempts cfg) 0); [lia | done].
  - destruct (Z.eqb_spec (RetryDelay cfg) 0); [unfold second; lia | done].
  - destruct (Z.ltb_spec 0 (if SaveInterval cfg =? 0 then 30 * second
                            else SaveInterval cfg)); [done | discriminate].
  - intros Hpos. apply Z.ltb_lt in Hpos. by rewrite Hpos.
Qed.

Lemma loadData_fold (s : MemoryStore.t) (nows : string -> Time)
    (m : gmap string string) :
  MemoryStore.closed s = false ->
  let s' := map_fold (fun key value s =>
                        (SetKey s Background (nows key) key value).1) s m in
  MemoryStore.closed s' = false
  /\ forall k, MemoryStore.data s' !! k
               = loaded_value nows m (MemoryStore.data s) k.
Proof.
  intros Hopen. cbv zeta.
  apply (map_fold_weak_ind
           (fun (r : MemoryStore.t) (m : gmap string string) =>
              MemoryStore.closed r = false
              /\ forall k, MemoryStore.data r !! k
                           = loaded_value nows m (MemoryStore.data s) k)).
  - split; [done|]. intros k. unfold loaded_value. by rewrite lookup_empty.
  - intros i x m' r Hi [Hc Hr]. cbn [SetKey MemoryStore_Store].
    assert (Hri : MemoryStore.data r !! i = MemoryStore.data s !! i).
    { rewrite Hr. unfold loaded_value. by rewrite Hi. }
    destruct (Validate i) as [e|] eqn:Hv.
    + assert (MemoryStore.SetKey r Background (nows i) i x = (r, Some e)) as ->
        by (unfold MemoryStore.SetKey; by rewrite Hv).
      cbn [fst]. split; [done|]. intros k. rewrite Hr. unfold loaded_value.
      destruct (decide (i = k)) as [->|Hne].
      * by rewrite lookup_insert_eq, Hi, Hv.
      * by rewrite lookup_insert_ne.
    + destruct (SetKey_live r Background (nows i) i x Hv eq_refl Hc)
        as (r' & -> & Hc' & Hd').
      cbn [fst]. split; [done|]. intros k. rewrite Hd'. unfold loaded_value.
      destruct (decide (i = k)) as [->|Hne].
      * by rewrite !lookup_insert_eq, Hv, Hri.
      * rewrite !lookup_insert_ne by done. rewrite Hr. done.
Qed.

Lemma initialise_after_load (s : MemoryStore.t) (p p' : P)
    (cfg : PersistentStoreConfig) (nows : string -> Time)
    (snap : StoreSnapshot) :
  Load p Background = (p', inr snap) ->
  MemoryStore.closed s = false ->
  let ps := PersistentStore.initialise s p cfg nows in
  PersistentStore.persistence ps = p'
  /\ MemoryStore.closed (PersistentStore.store ps) = false
  /\ forall k,
       MemoryStore.data (PersistentStore.store ps) !! k
       = loaded_value nows (default ∅ (SnapData snap)) (MemoryStore.data s) k.
Proof.
  intros HL Hopen ps.
  destruct (initialise_store s p cfg nows) as (Hs & Hp & _).
  fold ps in Hs, Hp. rewrite Hs, Hp.
  unfold PersistentStore.loadData.
  cbn [PersistentStore.persistence PersistentStore.store]. rewrite HL.
  cbn [fst PersistentStore.store PersistentStore.persistence
       PersistentStore.with_store PersistentStore.with_persistence].
  split; [done|]. by apply loadData_fold.
Qed.

(** X18. Loading at start-up. When [Load] returns a snapshot,
    [NewPersistentStore] over an open [MemoryStore] performs one [Set]
    per entry of the snapshot's data: every valid key of the snapshot
    is then stored with the snapshot's data (at version 1 if the store
    did not hold the key), an entry whose key is invalid is skipped,
    and keys not in the snapshot are as they were. *)
Theorem load_on_startup (s : MemoryStore.t) (p p' : P)
    (cfg : PersistentStoreConfig) (nows : string -> Time)
    (snap : StoreSnapshot) :
  Load p Background = (p', inr snap) ->
  MemoryStore.closed s = false ->
  let ps := PersistentStore.initialise s p cfg nows in
  PersistentStore.persistence ps = p'
  /\ MemoryStore.closed (PersistentStore.store ps) = false
  /\ forall k,
       MemoryStore.data (PersistentStore.store ps) !! k
       = loaded_value nows (default ∅ (SnapData snap)) (MemoryStore.data s) k.
Proof. apply initialise_after_load. Qed.

(** X19. A failed [Load] at start-up is swallowed: the store under the
    new durable store is the one given, untouched, and [loadData]
    reports no error exactly when the error [Load] returned is
    [ErrNoSnapshotFound] itself. *)
Theorem load_failure_swallowed {S : Type} `{Store S} (s : S) (p p' : P)
    (cfg : PersistentStoreConfig) (nows : string -> Time) (e : error) :
  Load p Background = (p', inl e) ->
  PersistentStore.store (PersistentStore.initialise s p cfg nows) = s
  /\ PersistentStore.closed (PersistentStore.initialise s p cfg nows) = false
  /\ forall ps : PersistentStore.t S P,
       PersistentStore.persistence ps = p ->
       PersistentStore.store (PersistentStore.loadData ps nows).1
       = PersistentStore.store ps
       /\ (PersistentStore.loadData ps nows).2
          = if decide (e = ErrNoSnapshotFound) then None
            else Some (Errorf "failed to load snapshot: %w" e).
Proof.
  intros HL.
  assert (Hgen : forall ps : PersistentStore.t S P,
             PersistentStore.persistence ps = p ->
             PersistentStore.store (PersistentStore.loadData ps nows).1
             = PersistentStore.store ps
             /\ (PersistentStore.loadData ps nows).2
                = if decide (e = ErrNoSnapshotFound) then None
                  else Some (Errorf "failed to load snapshot: %w" e)).
  { intros ps Hp. unfold PersistentStore.loadData. rewrite Hp, HL.
    by destruct (decide (e = ErrNoSnapshotFound)). }
  destruct (initialise_store s p cfg nows) as (Hs & _ & _ & _ & Hc & _).
  rewrite Hs, Hc. split; [|done]. by apply Hgen.
Qed.

End DurableMore.

Lemma load_on_startup_witness :
  let p := (mockPersistence.Save mockPersistence.newMockPersistence
              Background (Some scenarioC)).1 in
  let ps := PersistentStore.initialise MemoryStore.NewMemoryStore p
              DefaultPersistentStoreConfig (fun _ => 7) in
  MemoryStore.data (PersistentStore.store ps) !! "a"
  = Some {| Data := "1"; CreatedAt := 7; UpdatedAt := 7; Version := 1 |}
  /\ MemoryStore.data (PersistentStore.store ps) !! "zz" = None.
Proof.
  intros p ps.
  assert (HL : Load p Background
               = ((mockPersistence.Load p Background).1, inr scenarioC))
    by reflexivity.
  destruct (load_on_startup MemoryStore.NewMemoryStore p
              (mockPersistence.Load p Background).1
              DefaultPersistentStoreConfig (fun _ => 7) scenarioC
              HL eq_refl) as (_ & _ & Hdata).
  split; [exact (Hdata "a") | exact (Hdata "zz")].
Defined.

(** With the file persistence a missing file is such a failure: its
    error wraps [ErrNoSnapshotFound] and is not the sentinel itself. *)
Lemma load_failure_swallowed_witness :
  let j := JSONFilePersistence.NewJSONFilePersistence
             "snapshot.json" ∅ quiet_os in
  let ps := @PersistentStore.mk MemoryStore.t JSONFilePersistence.t
              MemoryStore.NewMemoryStore j DefaultPersistentStoreConfig
              (make_chan 100) None false false false in
  (@PersistentStore.loadData _ _ _ (@JSONFilePersistence_Persistence
                                      AsciiJSON_JSON) ps (fun _ => 0)).2
  = Some (Errorf "failed to load snapshot: %w"
            (NewPersistenceError "load" ErrNoSnapshotFound))
  /\ PersistentStore.store
       (@PersistentStore.initialise _ _ _
          (@JSONFilePersistence_Persistence AsciiJSON_JSON)
          MemoryStore.NewMemoryStore j DefaultPersistentStoreConfig
          (fun _ => 0))
     = MemoryStore.NewMemoryStore.
Proof.
  intros j ps.
  destruct (@load_failure_swallowed _
              (@JSONFilePersistence_Persistence AsciiJSON_JSON)
              MemoryStore.t _ MemoryStore.NewMemoryStore j j
              DefaultPersistentStoreConfig (fun _ => 0)
              (NewPersistenceError "load" ErrNoSnapshotFound) eq_refl)
    as (Hs & _ & Hld).
  split; [exact (proj2 (Hld ps eq_refl)) | exact Hs].
Defined.

Section MissingFile.
Context `{JSON} {S : Type} `{Store S}.


End MissingFile.


Section Retry.
Context {S : Type} `{Store S}.

Lemma save_attempts_failing (n : nat) :
  forall (m : mockPersistence.t) (snap : StoreSnapshot) (last : option error),
    mockPersistence.shouldFailSave m = true ->
    0 <= mockPersistence.saveCount m ->
    mockPersistence.saveCount m + Z.of_nat n <= max_int64 ->
    let r := PersistentStore.save_attempts n m snap last in
    mockPersistence.saveCount r.1 = mockPersistence.saveCount m + Z.of_nat n
    /\ mockPersistence.snapshot r.1 = mockPersistence.snapshot m
    /\ mockPersistence.shouldFailSave r.1 = true
    /\ r.2 = Some (match n with
                   | O => last
                   | _ => Some (ErrorNew "mock save error")
                   end).
Proof.
  induction n as [|n IH]; intros m snap last Hfail Hc Hb.
  - cbn. repeat split; [lia | done].
  - cbn [PersistentStore.save_attempts Save mockPersistence_Persistence].
    unfold mockPersistence.Save. rewrite Hfail.
    set (m1 := mockPersistence.mk _ _ _ _ _ _).
    assert (Hc1 : mockPersistence.saveCount m1 = mockPersistence.saveCount m + 1).
    { subst m1. cbn. apply wrap64_succ. unfold min_int64, max_int64 in *. lia. }
    destruct (IH m1 snap (Some (ErrorNew "mock save error")))
      as (Hcount & Hsnap & Hf & Hr).
    + by subst m1.
    + lia.
    + lia.
    + cbv zeta in *. rewrite Hcount, Hsnap, Hf, Hr, Hc1.
      repeat split; [lia|]. by destruct n.
Qed.

(** X21. The retry loop is bounded by the configuration. Against a
    persistence that fails every save (the mock of the tests),
    [saveWithRetry] calls [Save] exactly [RetryAttempts + 1] times and
    returns an error wrapping the last failure; against one that works
    it calls [Save] once and returns [nil]. With a negative
    [RetryAttempts] it never calls [Save] and still returns an error.
    The store under the durable store is not touched in any case. *)
Theorem saveWithRetry_bounded (ps : PersistentStore.t S mockPersistence.t)
    (snap : StoreSnapshot) :
  let m := PersistentStore.persistence ps in
  let n := RetryAttempts (PersistentStore.config ps) in
  0 <= mockPersistence.saveCount m ->
  mockPersistence.saveCount m + Z.max 0 (n + 1) <= max_int64 ->
  let r := PersistentStore.saveWithRetry ps snap in
  let m' := PersistentStore.persistence r.1 in
  PersistentStore.store r.1 = PersistentStore.store ps
  /\ (n < 0 ->
      r.2 = Some (ErrorNew "failed to save after %d attempts: %w")
      /\ m' = m)
  /\ (0 <= n -> mockPersistence.shouldFailSave m = true ->
      r.2 = Some (Errorf "failed to save after %d attempts: %w"
                    (ErrorNew "mock save error"))
      /\ mockPersistence.saveCount m' = mockPersistence.saveCount m + n + 1
      /\ mockPersistence.snapshot m' = mockPersistence.snapshot m)
  /\ (0 <= n -> mockPersistence.shouldFailSave m = false ->
      r.2 = None
      /\ mockPersistence.saveCount m' = mockPersistence.saveCount m + 1
      /\ mockPersistence.snapshot m' = Some snap).
Proof.
  intros m n Hc Hb r m'.
  destruct (saveWithRetry_fields ps snap) as (_ & Hstore).
  split; [exact Hstore|]. subst r m'.
  unfold PersistentStore.saveWithRetry. fold m n. split; [|split].
  - intros Hneg. replace (Z.to_nat (n + 1)) with 0%nat by lia. cbn.
    split; [done|]. subst m. by destruct ps.
  - intros Hpos Hfail.
    destruct (save_attempts_failing (Z.to_nat (n + 1)) m snap None Hfail Hc
                ltac:(lia)) as (Hcount & Hsnap & _ & Hr).
    destruct (PersistentStore.save_attempts (Z.to_nat (n + 1)) m snap None)
      as [p res]. cbn [fst snd] in *. subst res.
    destruct (Z.to_nat (n + 1)) eqn:Hn; [lia|]. cbn.
    split; [done|]. split; [lia | done].
  - intros Hpos Hok.
    destruct (Z.to_nat (n + 1)) as [|k] eqn:Hn; [lia|].
    cbn [PersistentStore.save_attempts Save mockPersistence_Persistence].
    unfold mockPersistence.Save. rewrite Hok. cbn.
    split; [done|]. split; [|done].
    apply wrap64_succ. unfold min_int64, max_int64 in *. lia.
Qed.

End Retry.

Lemma saveWithRetry_bounded_witness :
  let ps := durable_over
              (mockPersistence.setFailSave mockPersistence.newMockPersistence
                 true)
              DefaultPersistentStoreConfig in
  let r := PersistentStore.saveWithRetry ps scenarioC in
  r.2 = Some (Errorf "failed to save after %d attempts: %w"
                (ErrorNew "mock save error"))
  /\ mockPersistence.saveCount (PersistentStore.persistence r.1) = 4.
Proof.
  intros ps r.
  destruct (saveWithRetry_bounded ps scenarioC
              ltac:(vm_compute; discriminate)
              ltac:(vm_compute; discriminate))
    as (_ & _ & Hfail & _).
  destruct (Hfail ltac:(vm_compute; discriminate) eq_refl) as (He & Hc & _).
  split; [exact He | exact Hc].
Defined.

Section WorkerTurn.
Context {P : Type} `{Persistence P}.

(** X22. One turn of the flush worker on an open durable store over an
    open [MemoryStore]. With no signal pending it waits and nothing
    changes. With a signal pending it takes exactly one signal and runs
    the retry loop once on a snapshot of the data the store holds at
    that moment; whether the save succeeds or fails, the store
    underneath is untouched, the durable store stays open and the
    worker keeps running. *)
Theorem worker_turn_flushes (ps : PersistentStore.t MemoryStore.t P)
    (now : Time) :
  PersistentStore.worker ps = true ->
  PersistentStore.closed ps = false ->
  MemoryStore.closed (PersistentStore.store ps) = false ->
  let r := PersistentStore.saveProcessor_recv ps now in
  match chan_len (PersistentStore.saveChannel ps) with
  | O =>
      chan_closed (PersistentStore.saveChannel ps) = false ->
      r = (ps, PersistentStore.Idle)
  | Datatypes.S k =>
      exists snap err,
        r.2 = PersistentStore.Flushed err
        /\ SnapData snap = Some (snapshot_data (PersistentStore.store ps))
        /\ SnapTimestamp snap = PersistentStore.Unix now
        /\ PersistentStore.persistence r.1
           = (PersistentStore.save_attempts
                (Z.to_nat (RetryAttempts (PersistentStore.config ps) + 1))
                (PersistentStore.persistence ps) snap None).1
        /\ PersistentStore.store r.1 = PersistentStore.store ps
        /\ chan_len (PersistentStore.saveChannel r.1) = k
        /\ PersistentStore.closed r.1 = false
        /\ PersistentStore.worker r.1 = true
  end.
Proof.
  intros Hw Hopen Hms r. subst r. unfold PersistentStore.saveProcessor_recv.
  rewrite Hw. cbn [negb]. unfold range_recv.
  destruct (chan_len (PersistentStore.saveChannel ps)) as [|k] eqn:Hlen.
  - intros Hch. rewrite Hch. by rewrite with_saveChannel_same.
  - set (ps0 := PersistentStore.with_saveChannel ps _).
    assert (Hc0 : PersistentStore.closed ps0 = false) by (by subst ps0).
    rewrite Hc0.
    assert (Hms0 : MemoryStore.closed (PersistentStore.store ps0) = false)
      by (by subst ps0).
    rewrite (createSnapshot_open ps0 now Hms0).
    pose proof (saveWithRetry_fields ps0) as Hf.
    pose proof (saveWithRetry_persistence ps0) as Hp.
    match goal with
    | |- context [PersistentStore.saveWithRetry ps0 ?s] =>
        specialize (Hf s); specialize (Hp s);
        destruct (PersistentStore.saveWithRetry ps0 s) as [ps2 err];
        exists s, err
    end.
    cbn [fst snd] in *.
    destruct Hf as ((_ & Hch & _ & _ & Hcl & Hwk) & Hst).
    rewrite Hp, Hst, Hch, Hcl, Hwk. subst ps0. cbn. by repeat split.
Qed.

End WorkerTurn.

Lemma worker_turn_flushes_witness :
  let ps := (PersistentStore.SetKey
               (fresh_durable DefaultPersistentStoreConfig)
               Background 5 "k" "v").1 in
  let r := PersistentStore.saveProcessor_recv ps 6000000000 in
  r.2 = PersistentStore.Flushed None
  /\ chan_len (PersistentStore.saveChannel r.1) = 0%nat
  /\ (SnapData <$> mockPersistence.snapshot (PersistentStore.persistence r.1))
     = Some (Some {[ "k" := "v" ]}).
Proof.
  intros ps r.
  pose proof (worker_turn_flushes ps 6000000000 eq_refl eq_refl eq_refl)
    as (snap & err & _ & _ & _ & _ & _ & Hlen & _).
  split; [reflexivity|]. split; [exact Hlen | reflexivity].
Defined.

Section ControlInvariant.
Context {S P : Type} `{Store S} `{Persistence P}.



Lemma same_control_ok (ps ps' : PersistentStore.t S P) :
  same_control ps ps' -> control_ok ps -> control_ok ps'.
Proof.
  intros (_ & Hch & _ & Hso & Hcl & _). unfold control_ok.
  by rewrite Hch, Hso, Hcl.
Qed.

Lemma saveProcessor_recv_channel (ps : PersistentStore.t S P) (now : Time) :
  let ch := PersistentStore.saveChannel ps in
  let ch' := PersistentStore.saveChannel
               (PersistentStore.saveProcessor_recv ps now).1 in
  chan_cap ch' = chan_cap ch
  /\ (chan_len ch' <= chan_len ch)%nat
  /\ chan_closed ch' = chan_closed ch.
Proof.
  unfold PersistentStore.saveProcessor_recv.
  destruct (PersistentStore.worker ps); cbn [negb]; [|by cbn].
  unfold range_recv.
  destruct (chan_len (PersistentStore.saveChannel ps)) as [|k] eqn:Hlen.
  { destruct (chan_closed (PersistentStore.saveChannel ps)) eqn:Hcc; cbn;
      rewrite ?Hlen, ?Hcc; repeat split; try done; lia. }
  set (ps0 := PersistentStore.with_saveChannel ps _).
  destruct (PersistentStore.closed ps0);
    [subst ps0; cbn; repeat split; try done; lia|].
  pose proof (createSnapshot_fields ps0 now) as ((_ & Hch & _) & _).
  destruct (PersistentStore.createSnapshot ps0 now) as [ps1 [e|snap]];
    cbn [fst snd] in *.
  { rewrite Hch. subst ps0. cbn. repeat split; try done; lia. }
  pose proof (saveWithRetry_fields ps1 snap) as ((_ & Hch' & _) & _).
  destruct (PersistentStore.saveWithRetry ps1 snap) as [ps2 err].
  cbn [fst snd] in *. rewrite Hch', Hch. subst ps0. cbn.
  repeat split; try done; lia.
Qed.






End ControlInvariant.

Section AfterClose.
Context {S P : Type} `{Store S} `{Persistence P}.

Lemma saveProcessor_recv_exits (ps : PersistentStore.t S P) (now : Time) :
  PersistentStore.closed ps = true ->
  chan_closed (PersistentStore.saveChannel ps) = true ->
  let ps' := (PersistentStore.saveProcessor_recv ps now).1 in
  PersistentStore.worker ps' = false
  /\ PersistentStore.periodicSaveTimer ps' = PersistentStore.periodicSaveTimer ps.
Proof.
  intros Hc Hch. unfold PersistentStore.saveProcessor_recv.
  destruct (PersistentStore.worker ps) eqn:Hw; cbn [negb]; [|by cbn].
  unfold range_recv.
  destruct (chan_len (PersistentStore.saveChannel ps)) as [|k].
  - by rewrite Hch.
  - cbn. by rewrite Hc.
Qed.

(** When the body of [Close] is done the worker has returned, the timer
    is not armed and the channel is closed. *)
Lemma shutdown_quiescent (ps : PersistentStore.t S P) (now : Time) :
  let ps' := (PersistentStore.shutdown ps now).1 in
  PersistentStore.worker ps' = false
  /\ PersistentStore.periodicSaveTimer ps' <> Some true
  /\ chan_closed (PersistentStore.saveChannel ps') = true.
Proof.
  unfold PersistentStore.shutdown.
  pose proof (final_save_fields (PersistentStore.mark_closed ps) now)
    as ((_ & _ & Htm & _ & Hcl & _) & _).
  destruct (PersistentStore.final_save (PersistentStore.mark_closed ps) now)
    as [ps2 closeErr]. cbn [fst] in *.
  set (ps3 := PersistentStore.with_saveChannel ps2 _).
  assert (Hc3 : PersistentStore.closed ps3 = true) by (by subst ps3; cbn).
  assert (Hch3 : chan_closed (PersistentStore.saveChannel ps3) = true)
    by (by subst ps3).
  destruct (saveProcessor_recv_exits ps3 now Hc3 Hch3) as (Hw & Htm').
  destruct (saveProcessor_recv_channel ps3 now) as (_ & _ & Hcc).
  destruct (Close (PersistentStore.store
                     (PersistentStore.saveProcessor_recv ps3 now).1) now)
    as [s err].
  cbn. rewrite Hw, Htm', Hcc, Hch3. subst ps3. cbn. rewrite Htm. cbn.
  repeat split. by destruct (PersistentStore.periodicSaveTimer ps).
Qed.

(** X24. After [Close] a durable store is inert: whatever follows
    (calls, further [Close]s, turns of the worker, firings of the
    timer), its whole state stays as [Close] left it. In particular the
    persistence is never called again and the timer does not re-arm. *)
Theorem inert_after_Close (ps : PersistentStore.t S P) (now : Time)
    (es : list event) :
  PersistentStore.shutdownOnce ps = false ->
  let ps1 := (PersistentStore.Close ps now).1 in
  (durable_run ps1 es).1 = ps1
  /\ PersistentStore.worker ps1 = false
  /\ PersistentStore.periodicSaveTimer ps1 <> Some true.
Proof.
  intros Honce ps1.
  assert (Hps1 : ps1 = (PersistentStore.shutdown ps now).1)
    by (subst ps1; unfold PersistentStore.Close; by rewrite Honce).
  destruct (shutdown_flags ps now) as (Hclosed & Hdone).
  destruct (shutdown_quiescent ps now) as (Hw & Htm & _).
  rewrite <- Hps1 in Hclosed, Hdone, Hw, Htm.
  split; [|done]. clear Hps1.
  induction es as [|e rest IH]; [done|]. cbn [durable_run].
  assert (Hstep : (durable_step ps1 e).1 = ps1).
  { destruct e as [t o|t|]; unfold durable_step.
    - destruct (is_close o) eqn:Hc.
      + destruct o; try discriminate. cbn. unfold PersistentStore.Close.
        by rewrite Hdone.
      + destruct (durable_closed_call ps1 t o Hclosed Hc) as [Hs _].
        by destruct (call ps1 t o).
    - unfold PersistentStore.saveProcessor_recv. by rewrite Hw.
    - unfold PersistentStore.timer_fire.
      by destruct (PersistentStore.periodicSaveTimer ps1) as [[|]|]. }
  destruct (durable_step ps1 e) as [ps2 r]. cbn [fst] in Hstep. subst ps2.
  by destruct (durable_run ps1 rest) as [ps3 rs].
Qed.

End AfterClose.

Lemma inert_after_Close_witness :
  let ps := (PersistentStore.SetKey
               (fresh_durable DefaultPersistentStoreConfig)
               Background 5 "k" "v").1 in
  let ps1 := (PersistentStore.Close ps 6000000000).1 in
  let es := [TimerFires; WorkerTurn 7000000000;
             Call 8000000000 (OpSet Background "k" "w");
             Call 9000000000 OpClose; WorkerTurn 10000000000] in
  mockPersistence.saveCount
    (PersistentStore.persistence (durable_run ps1 es).1)
  = mockPersistence.saveCount (PersistentStore.persistence ps1).
Proof.
  intros ps ps1 es.
  exact (f_equal (fun x => mockPersistence.saveCount
                             (PersistentStore.persistence x))
           (proj1 (inert_after_Close ps 6000000000 es eq_refl))).
Defined.

Section CloseResult.
Context {P : Type} `{Persistence P}.

(** X25. [Close] always completes. The first [Close] of a durable store
    over a [MemoryStore] returns the error of the final save and
    nothing else ([nil] without [SaveOnShutdown], and [nil] when the
    snapshot cannot be built because the store underneath is already
    closed); and even when that save fails, the channel is closed, the
    worker has stopped, and the store underneath is closed. *)
Theorem Close_completes (ps : PersistentStore.t MemoryStore.t P)
    (now : Time) :
  PersistentStore.shutdownOnce ps = false ->
  let r := PersistentStore.Close ps now in
  chan_closed (PersistentStore.saveChannel r.1) = true
  /\ PersistentStore.worker r.1 = false
  /\ PersistentStore.closed r.1 = true
  /\ MemoryStore.closed (PersistentStore.store r.1) = true
  /\ (SaveOnShutdown (PersistentStore.config ps) = false -> r.2 = None)
  /\ (MemoryStore.closed (PersistentStore.store ps) = true -> r.2 = None)
  /\ (SaveOnShutdown (PersistentStore.config ps) = true ->
      MemoryStore.closed (PersistentStore.store ps) = false ->
      exists snap,
        SnapData snap = Some (snapshot_data (PersistentStore.store ps))
        /\ r.2 = (PersistentStore.saveWithRetry
                    (PersistentStore.mark_closed ps) snap).2).
Proof.
  intros Honce r.
  assert (Hr : r = PersistentStore.shutdown ps now)
    by (subst r; unfold PersistentStore.Close; by rewrite Honce).
  destruct (shutdown_flags ps now) as (Hclosed & _).
  destruct (shutdown_quiescent ps now) as (Hw & _ & Hch).
  destruct (shutdown_effects ps now) as (Hms & _).
  rewrite <- Hr in Hclosed, Hw, Hch, Hms.
  split; [done|]. split; [done|]. split; [done|]. split; [done|].
  assert (Herr : r.2 = (PersistentStore.final_save
                          (PersistentStore.mark_closed ps) now).2).
  { rewrite Hr. unfold PersistentStore.shutdown.
    destruct (PersistentStore.final_save (PersistentStore.mark_closed ps) now)
      as [ps2 closeErr]. cbn [snd]. cbn. by destruct closeErr. }
  rewrite Herr. unfold PersistentStore.final_save.
  cbn [PersistentStore.config PersistentStore.mark_closed].
  split; [by intros ->|]. split.
  - intros Hmc. destruct (SaveOnShutdown _); [|done].
    by rewrite (createSnapshot_closed (PersistentStore.mark_closed ps) now Hmc).
  - intros -> Hopen. rewrite createSnapshot_open by done.
    eexists. split; [|reflexivity]. reflexivity.
Qed.

End CloseResult.

(** A final save that fails: [Close] reports it and still shuts
    everything down. *)
Lemma Close_completes_witness :
  let ps := durable_over
              (mockPersistence.setFailSave mockPersistence.newMockPersistence
                 true)
              DefaultPersistentStoreConfig in
  let r := PersistentStore.Close ps 6000000000 in
  r.2 = Some (Errorf "failed to save after %d attempts: %w"
                (ErrorNew "mock save error"))
  /\ chan_closed (PersistentStore.saveChannel r.1) = true
  /\ PersistentStore.worker r.1 = false
  /\ MemoryStore.closed (PersistentStore.store r.1) = true.
Proof.
  intros ps r.
  destruct (Close_completes ps 6000000000 eq_refl)
    as (Hch & Hw & _ & Hms & _).
  split; [reflexivity|]. split; [exact Hch|]. split; [exact Hw | exact Hms].
Defined.


Section Restart.
Context {P : Type} `{Persistence P}.

(** X26. Restart. A durable store over an open [MemoryStore], configured
    with [SaveOnShutdown] and a non-negative [RetryAttempts], is closed;
    the persistence accepts the final snapshot and gives its data back
    on the next [Load]. Then [Close] returns no error, and a new durable
    store built by [NewPersistentStore] over a fresh [MemoryStore] and
    that persistence holds exactly the keys the old one held, each with
    the same data; the history of a value does not survive: its version
    is 1 again and both its times are the clock reading of the
    reload. *)
Theorem restart_restores_data (ps : PersistentStore.t MemoryStore.t P)
    (now : Time) (cfg' : PersistentStoreConfig) (nows : string -> Time) :
  PersistentStore.shutdownOnce ps = false ->
  SaveOnShutdown (PersistentStore.config ps) = true ->
  0 <= RetryAttempts (PersistentStore.config ps) ->
  MemoryStore.closed (PersistentStore.store ps) = false ->
  keys_valid (MemoryStore.data (PersistentStore.store ps)) ->
  (forall snap,
     SnapData snap = Some (snapshot_data (PersistentStore.store ps)) ->
     SnapVersion snap = "1.0" ->
     SnapTimestamp snap = PersistentStore.Unix now ->
     exists p1 p2 snap',
       Save (PersistentStore.persistence ps) Background (Some snap)
       = (p1, None)
       /\ Load p1 Background = (p2, inr snap')
       /\ SnapData snap' = SnapData snap) ->
  let r := PersistentStore.Close ps now in
  let ps' := PersistentStore.initialise MemoryStore.NewMemoryStore
               (PersistentStore.persistence r.1) cfg' nows in
  r.2 = None
  /\ MemoryStore.closed (PersistentStore.store ps') = false
  /\ forall k,
       MemoryStore.data (PersistentStore.store ps') !! k
       = (fun v => {| Data := Data v; CreatedAt := nows k;
                      UpdatedAt := nows k; Version := 1 |})
         <$> MemoryStore.data (PersistentStore.store ps) !! k.
Proof.
  intros Honce Hyes Hretry Hopen Hkeys Hlaw r ps'.
  assert (Hr : r = PersistentStore.shutdown ps now)
    by (subst r; unfold PersistentStore.Close; by rewrite Honce).
  destruct (shutdown_effects ps now) as (_ & Hpers).
  rewrite <- Hr in Hpers.
  assert (Herr : r.2 = (PersistentStore.final_save
                          (PersistentStore.mark_closed ps) now).2).
  { rewrite Hr. unfold PersistentStore.shutdown.
    destruct (PersistentStore.final_save (PersistentStore.mark_closed ps) now)
      as [ps2 closeErr]. cbn [snd]. cbn. by destruct closeErr. }
  revert Hpers Herr. unfold PersistentStore.final_save.
  cbn [PersistentStore.config PersistentStore.mark_closed]. rewrite Hyes.
  rewrite createSnapshot_open by done.
  cbn [PersistentStore.store PersistentStore.mark_closed].
  set (snap := {| SnapData := _ |}).
  destruct (Hlaw snap eq_refl eq_refl eq_refl) as (p1 & p2 & snap' & HS & HL & HD).
  rewrite saveWithRetry_persistence. unfold PersistentStore.saveWithRetry.
  cbn [PersistentStore.config PersistentStore.persistence
       PersistentStore.mark_closed].
  destruct (Z.to_nat (RetryAttempts (PersistentStore.config ps) + 1))
    as [|n] eqn:Hn; [lia|].
  cbn [PersistentStore.save_attempts]. rewrite HS. cbn [fst snd].
  intros Hpers Herr. split; [done|].
  subst ps'. rewrite Hpers.
  destruct (initialise_after_load MemoryStore.NewMemoryStore p1 p2 cfg' nows
              snap' HL eq_refl) as (_ & Hop & Hdata).
  split; [done|]. intros k. rewrite Hdata, HD. subst snap.
  cbn [SnapData default]. unfold id, loaded_value, snapshot_data.
  rewrite lookup_fmap.
  destruct (MemoryStore.data (PersistentStore.store ps) !! k) as [v|] eqn:Hk;
    cbn.
  - by rewrite (Hkeys k v Hk).
  - done.
Qed.

End Restart.

(** One key written, the store closed, a new store opened over the same
    mock persistence: the key is back, at version 1. *)
Lemma restart_restores_data_witness :
  let ps := (PersistentStore.SetKey
               (fresh_durable DefaultPersistentStoreConfig)
               Background 1000 "a" "1").1 in
  let ps := (PersistentStore.SetKey ps Background 2000 "a" "2").1 in
  let r := PersistentStore.Close ps 6000000000 in
  let ps' := PersistentStore.initialise MemoryStore.NewMemoryStore
               (PersistentStore.persistence r.1)
               DefaultPersistentStoreConfig (fun _ => 7000000000) in
  (MemoryStore.data (PersistentStore.store ps) !! "a"
   = Some {| Data := "2"; CreatedAt := 1000; UpdatedAt := 2000;
             Version := 2 |})
  /\ r.2 = None
  /\ MemoryStore.data (PersistentStore.store ps') !! "a"
     = Some {| Data := "2"; CreatedAt := 7000000000;
               UpdatedAt := 7000000000; Version := 1 |}.
Proof.
  intros ps0 ps r ps'.
  assert (Hd : MemoryStore.data (PersistentStore.store ps)
               = {[ "a" := {| Data := "2"; CreatedAt := 1000;
                              UpdatedAt := 2000; Version := 2 |} ]})
    by (vm_compute; reflexivity).
  assert (Hkeys : keys_valid (MemoryStore.data (PersistentStore.store ps))).
  { intros k v. rewrite Hd. intros [<- _]%lookup_singleton_Some.
    reflexivity. }
  assert (Hlaw : forall snap,
     SnapData snap = Some (snapshot_data (PersistentStore.store ps)) ->
     SnapVersion snap = "1.0" ->
     SnapTimestamp snap = PersistentStore.Unix 6000000000 ->
     exists p1 p2 snap',
       Save (PersistentStore.persistence ps) Background (Some snap)
       = (p1, None)
       /\ Load p1 Background = (p2, inr snap')
       /\ SnapData snap' = SnapData snap).
  { intros snap _ _ _. eexists _, _, _.
    split; [reflexivity|]. split; reflexivity. }
  destruct (restart_restores_data ps 6000000000 DefaultPersistentStoreConfig
              (fun _ => 7000000000) eq_refl eq_refl
              ltac:(vm_compute; discriminate) eq_refl Hkeys Hlaw)
    as (Herr & _ & Hdata).
  split; [by rewrite Hd, lookup_singleton_eq|].
  split; [exact Herr|].
  etransitivity; [exact (Hdata "a")|].
  rewrite Hd, lookup_singleton_eq. reflexivity.
Defined.



(** ** The HTTP API *)

Lemma HasPrefix_append (p k : string) : strings_HasPrefix (p +:+ k) p = true.
Proof.
  induction p as [|c p IH]; [done|].
  change (String c p +:+ k) with (String c (p +:+ k)).
  cbn [strings_HasPrefix]. by rewrite Ascii.eqb_refl, IH.
Qed.

Lemma slice_from_append (p k : string) :
  slice_from (p +:+ k) (String.length p) = k.
Proof. induction p as [|c p IH]; [done|]. exact IH. Qed.

Lemma HasPrefix_split (s p : string) :
  strings_HasPrefix s p = true -> s = p +:+ slice_from s (String.length p).
Proof.
  revert s. induction p as [|c p IH]; intros s; [done|].
  destruct s as [|d s]; [done|]. cbn [strings_HasPrefix].
  intros [Hc Hp]%andb_prop. apply Ascii.eqb_eq in Hc as ->.
  cbn [String.length slice_from].
  change (String c p +:+ slice_from s (String.length p))
    with (String c (p +:+ slice_from s (String.length p))).
  by rewrite <- (IH s Hp).
Qed.

Lemma extractKey_path (k : string) : api.extractKey ("/api/kv/" +:+ k) = k.
Proof.
  unfold api.extractKey, strings_TrimPrefix.
  rewrite HasPrefix_append. apply slice_from_append.
Qed.

(** A path under ["/api/kv/"] with no key is that prefix itself. *)
Lemma extractKey_empty (path : string) :
  strings_HasPrefix path "/api/kv/" = true ->
  api.extractKey path = EmptyString ->
  path = "/api/kv/".
Proof.
  intros Hp. unfold api.extractKey, strings_TrimPrefix. rewrite Hp.
  intros Hk. rewrite (HasPrefix_split _ _ Hp). by rewrite Hk.
Qed.

Lemma writeJSON_once (w : api.ResponseWriter) (status : Z)
    (data : api.payload) :
  status ∈ api_statuses -> written_once w (api.writeJSON w status data).
Proof.
  intros Hs. split; [exact Hs|]. split; [by cbn; rewrite lookup_insert_eq|].
  split; [|by eexists].
  intros h Hh. cbn. by rewrite lookup_insert_ne.
Qed.

Lemma status_listed :
  api.StatusOK ∈ api_statuses /\ api.StatusCreated ∈ api_statuses
  /\ api.StatusBadRequest ∈ api_statuses /\ api.StatusNotFound ∈ api_statuses
  /\ api.StatusMethodNotAllowed ∈ api_statuses
  /\ api.StatusInternalServerError ∈ api_statuses.
Proof. unfold api_statuses. repeat split; set_solver. Qed.

Lemma cors_headers_set (w : api.ResponseWriter) :
  api.Header (cors_headers w) !! "Access-Control-Allow-Origin" = Some "*"
  /\ api.Header (cors_headers w) !! "Access-Control-Allow-Methods"
     = Some "GET, POST, PUT, DELETE, OPTIONS"
  /\ api.Header (cors_headers w) !! "Access-Control-Allow-Headers"
     = Some "Content-Type, Authorization"
  /\ api.Code (cors_headers w) = api.Code w
  /\ api.Written (cors_headers w) = api.Written w.
Proof.
  unfold cors_headers, api.Header_Set. cbn [api.Header api.Code api.Written].
  split; [|split; [|split; [|done]]].
  - by rewrite lookup_insert_ne, lookup_insert_ne, lookup_insert_eq.
  - by rewrite lookup_insert_ne, lookup_insert_eq.
  - by rewrite lookup_insert_eq.
Qed.

Ltac written :=
  apply writeJSON_once; unfold api.StatusOK, api.StatusCreated,
    api.StatusBadRequest, api.StatusNotFound, api.StatusMethodNotAllowed,
    api.StatusInternalServerError, api_statuses; set_solver.

Section Routing.
Context {S : Type} `{Store S}.
Variable Decode : string -> error + api.SetRequest.

Lemma GetKey_once (s : S) (w : api.ResponseWriter) (r : api.Request) :
  written_once w (api.GetKey s w r).2.
Proof.
  unfold api.GetKey. repeat case_match; cbn [snd]; unfold api.writeError;
    written.
Qed.

Lemma SetKey_once (s : S) (w : api.ResponseWriter) (r : api.Request)
    (now : Time) :
  written_once w (api.SetKey Decode s w r now).2.
Proof.
  unfold api.SetKey. repeat case_match; cbn [snd]; unfold api.writeError;
    written.
Qed.

Lemma DeleteKey_once (s : S) (w : api.ResponseWriter) (r : api.Request) :
  written_once w (api.DeleteKey s w r).2.
Proof.
  unfold api.DeleteKey. repeat case_match; cbn [snd]; unfold api.writeError;
    written.
Qed.

Lemma ListKeys_once (s : S) (w : api.ResponseWriter) (r : api.Request) :
  written_once w (api.ListKeys s w r).2.
Proof.
  unfold api.ListKeys. repeat case_match; cbn [snd]; unfold api.writeError;
    written.
Qed.

Lemma routeRequest_once (s : S) (w : api.ResponseWriter) (r : api.Request)
    (now : Time) :
  written_once w (api.routeRequest Decode s w r now).2.
Proof.
  unfold api.routeRequest, api.handleKVRoutes.
  repeat case_match; cbn [snd];
    first [ apply GetKey_once | apply SetKey_once | apply DeleteKey_once
          | apply ListKeys_once | unfold api.writeError; written ].
Qed.

(** A request other than a preflight goes to [routeRequest] with the
    CORS headers set. *)
Lemma ServeHTTP_routes (s : S) (w : api.ResponseWriter) (r : api.Request)
    (now : Time) :
  api.ServeHTTP Decode s w r now
  = if String.eqb (api.Method r) api.MethodOptions
    then (s, api.WriteHeader (cors_headers w) api.StatusOK)
    else api.routeRequest Decode s (cors_headers w) r now.
Proof. reflexivity. Qed.

(** The route of a path that names a key. *)
Lemma routeRequest_key (s : S) (w : api.ResponseWriter) (r : api.Request)
    (now : Time) (k : string) :
  k <> EmptyString ->
  api.URLPath r = "/api/kv/" +:+ k ->
  api.routeRequest Decode s w r now
  = if String.eqb (api.Method r) api.MethodGet then api.GetKey s w r
    else if String.eqb (api.Method r) api.MethodPost
            || String.eqb (api.Method r) api.MethodPut
         then api.SetKey Decode s w r now
    else if String.eqb (api.Method r) api.MethodDelete
         then api.DeleteKey s w r
    else (s, api.writeError w api.StatusMethodNotAllowed "method not allowed").
Proof.
  intros Hk Hpath. unfold api.routeRequest, api.handleKVRoutes.
  rewrite Hpath, extractKey_path.
  change (strings_HasPrefix ("/api/kv/" +:+ k) "/api/kv") with true.
  change (("/api/kv/" +:+ k =? "/api/kv")%string) with false.
  change (strings_HasPrefix ("/api/kv/" +:+ k) "/api/kv/") with true.
  change (("/api/kv/" +:+ k =? "/api/kv/")%string)
    with ((k =? EmptyString)%string).
  apply String.eqb_neq in Hk. by rewrite Hk.
Qed.

(** X27. The routing table of [Router.ServeHTTP], over any store. Every
    response carries the three CORS headers and one of the statuses 200,
    201, 400, 404, 405, 500. An [OPTIONS] request is answered 200 with
    no body and never reaches the store; every other request gets
    exactly one JSON value and the JSON content type. A method other
    than [GET], [POST], [PUT], [DELETE] never reaches the store and,
    preflight apart, is answered 405 on ["/api/kv"] and below
    ["/api/kv/"] and 404 elsewhere; a path outside ["/api/kv"] is
    answered 404 without touching the store. *)
Theorem ServeHTTP_routing (s : S) (w : api.ResponseWriter)
    (r : api.Request) (now : Time) :
  let res := api.ServeHTTP Decode s w r now in
  (api.Header res.2 !! "Access-Control-Allow-Origin" = Some "*"
   /\ api.Header res.2 !! "Access-Control-Allow-Methods"
      = Some "GET, POST, PUT, DELETE, OPTIONS"
   /\ api.Header res.2 !! "Access-Control-Allow-Headers"
      = Some "Content-Type, Authorization")
  /\ api.Code res.2 ∈ api_statuses
  /\ (api.Method r = "OPTIONS" ->
      res.1 = s /\ api.Code res.2 = 200
      /\ api.Written res.2 = api.Written w)
  /\ (api.Method r <> "OPTIONS" ->
      api.Header res.2 !! "Content-Type" = Some "application/json"
      /\ exists data, api.Written res.2 = api.Written w ++ [data])
  /\ (api.Method r ∉ ["GET"; "POST"; "PUT"; "DELETE"] ->
      res.1 = s
      /\ (api.Method r <> "OPTIONS" ->
          api.Code res.2
          = if String.eqb (api.URLPath r) "/api/kv"
               || strings_HasPrefix (api.URLPath r) "/api/kv/"
            then 405 else 404))
  /\ (strings_HasPrefix (api.URLPath r) "/api/kv" = false ->
      res.1 = s /\ (api.Method r <> "OPTIONS" -> api.Code res.2 = 404)).
Proof.
  intros res. subst res. rewrite ServeHTTP_routes.
  destruct (cors_headers_set w) as (Hao & Ham & Hah & _ & Hcw).
  destruct (String.eqb_spec (api.Method r) api.MethodOptions) as [Ho|Ho].
  - cbn [fst snd api.WriteHeader api.Header api.Code api.Written].
    split; [done|]. split; [unfold api_statuses, api.StatusOK; set_solver|].
    split; [done|]. split; [done|]. split; [by intros _|]. by intros _.
  - pose proof (routeRequest_once s (cors_headers w) r now)
      as (Hcode & Hct & Hh & data & Hdata).
    rewrite Hcw in Hdata.
    split; [by rewrite !Hh by done|].
    split; [done|]. split; [done|]. split; [intros _; split; [done|by eexists]|].
    split.
    + intros Hm.
      apply not_elem_of_cons in Hm as [HG Hm].
      apply not_elem_of_cons in Hm as [HP Hm].
      apply not_elem_of_cons in Hm as [HU Hm].
      apply not_elem_of_cons in Hm as [HD _].
      apply String.eqb_neq in HG, HP, HU, HD.
      unfold api.routeRequest, api.handleKVRoutes, api.MethodGet,
        api.MethodPost, api.MethodPut, api.MethodDelete.
      rewrite HG, HP, HU, HD. cbn [orb].
      destruct (String.eqb_spec (api.URLPath r) "/api/kv") as [Hp|Hp].
      { rewrite Hp. by cbn. }
      destruct (strings_HasPrefix (api.URLPath r) "/api/kv") eqn:H7.
      * destruct (String.eqb_spec (api.URLPath r) "/api/kv/") as [Hp'|Hp'].
        { rewrite Hp'. by cbn. }
        destruct (strings_HasPrefix (api.URLPath r) "/api/kv/") eqn:H8;
          [|by cbn].
        destruct (String.eqb_spec (api.extractKey (api.URLPath r)) EmptyString)
          as [Hk|Hk]; [|by cbn].
        by destruct (Hp' (extractKey_empty _ H8 Hk)).
      * assert (H8 : strings_HasPrefix (api.URLPath r) "/api/kv/" = false).
        { destruct (strings_HasPrefix (api.URLPath r) "/api/kv/") eqn:H8;
            [|done].
          rewrite (HasPrefix_split _ _ H8) in H7. by cbn in H7. }
        rewrite H8. by cbn.
    + intros H7. unfold api.routeRequest. rewrite H7. by cbn.
Qed.

End Routing.

Lemma valid_nonempty (k : string) : Validate k = None -> k <> EmptyString.
Proof. by intros Hv ->. Qed.

Lemma live_Background (ctx : Context) : ctx_Err ctx = None -> ctx = Background.
Proof. by destruct ctx. Qed.

Section ApiMemory.
Variable Decode : string -> error + api.SetRequest.

(** [GET /api/kv/{key}] on an open [MemoryStore]. *)
Lemma serve_GET (ms : MemoryStore.t) (w : api.ResponseWriter)
    (r : api.Request) (now : Time) (k : string) :
  Validate k = None ->
  api.URLPath r = "/api/kv/" +:+ k ->
  api.Method r = "GET" ->
  ctx_Err (api.ctx_at r 0) = None ->
  MemoryStore.closed ms = false ->
  api.ServeHTTP Decode ms w r now
  = (MemoryStore.incrementStat ms MemoryStore.StatGet,
     match MemoryStore.data ms !! k with
     | Some v => api.writeJSON (cors_headers w) 200 (api.GetResponse k v)
     | None =>
         api.writeJSON (cors_headers w) 404
           (api.ErrorResponse "key not found" EmptyString)
     end).
Proof.
  intros Hv Hpath Hm Hctx Hopen.
  rewrite ServeHTTP_routes,
    (routeRequest_key Decode _ _ _ _ k (valid_nonempty _ Hv) Hpath), Hm.
  change (String.eqb "GET" api.MethodOptions) with false.
  change (String.eqb "GET" api.MethodGet) with true. cbv iota.
  unfold api.GetKey. rewrite Hpath, extractKey_path.
  rewrite (proj2 (String.eqb_neq _ _) (valid_nonempty _ Hv)), Hv.
  cbn [Get MemoryStore_Store]. unfold MemoryStore.Get.
  rewrite Hv, Hctx, Hopen. cbn [MemoryStore.data MemoryStore.incrementStat].
  by destruct (MemoryStore.data ms !! k).
Qed.

(** [DELETE /api/kv/{key}] on an open [MemoryStore]. *)
Lemma serve_DELETE (ms : MemoryStore.t) (w : api.ResponseWriter)
    (r : api.Request) (now : Time) (k : string) :
  Validate k = None ->
  api.URLPath r = "/api/kv/" +:+ k ->
  api.Method r = "DELETE" ->
  ctx_Err (api.ctx_at r 0) = None ->
  MemoryStore.closed ms = false ->
  let res := api.ServeHTTP Decode ms w r now in
  MemoryStore.data res.1 = delete k (MemoryStore.data ms)
  /\ MemoryStore.closed res.1 = false
  /\ res.2 = match MemoryStore.data ms !! k with
             | Some v =>
                 api.writeJSON (cors_headers w) 200
                   (api.DeleteResponse k v true)
             | None =>
                 api.writeJSON (cors_headers w) 404
                   (api.ErrorResponse "key not found" EmptyString)
             end.
Proof.
  intros Hv Hpath Hm Hctx Hopen res. subst res.
  rewrite ServeHTTP_routes,
    (routeRequest_key Decode _ _ _ _ k (valid_nonempty _ Hv) Hpath), Hm.
  change (String.eqb "DELETE" api.MethodOptions) with false.
  change (String.eqb "DELETE" api.MethodGet) with false.
  change (String.eqb "DELETE" api.MethodPost) with false.
  change (String.eqb "DELETE" api.MethodPut) with false.
  change (String.eqb "DELETE" api.MethodDelete) with true.
  cbv iota. cbn [orb]. cbv iota.
  unfold api.DeleteKey. rewrite Hpath, extractKey_path.
  rewrite (proj2 (String.eqb_neq _ _) (valid_nonempty _ Hv)), Hv.
  cbn [Delete MemoryStore_Store]. unfold MemoryStore.Delete.
  rewrite Hv, Hctx, Hopen. cbn [MemoryStore.data MemoryStore.incrementStat].
  destruct (MemoryStore.data ms !! k) as [v|] eqn:Hk; cbn.
  - done.
  - by rewrite delete_id.
Qed.

(** X28. Reading and deleting through the API, on an open [MemoryStore]
    with a live request context and a path ["/api/kv/" + key] whose key
    is valid. [GET] answers 200 with the key and its stored value when
    the key is stored and 404, key not found, when it is not, and
    changes no data. [DELETE] answers 200 with the value it removed, or
    404 when the key is not stored; either way the key is not stored
    afterwards, the other keys are as they were, and a [GET] of the same
    path is then answered 404. *)
Theorem GET_and_DELETE (ms : MemoryStore.t) (w : api.ResponseWriter)
    (r : api.Request) (now : Time) (k : string) :
  Validate k = None ->
  api.URLPath r = "/api/kv/" +:+ k ->
  ctx_Err (api.ctx_at r 0) = None ->
  MemoryStore.closed ms = false ->
  let res := api.ServeHTTP Decode ms w r now in
  (api.Method r = "GET" ->
   MemoryStore.data res.1 = MemoryStore.data ms
   /\ api.Code res.2
      = match MemoryStore.data ms !! k with Some _ => 200 | None => 404 end
   /\ api.Written res.2
      = api.Written w
        ++ [match MemoryStore.data ms !! k with
            | Some v => api.GetResponse k v
            | None => api.ErrorResponse "key not found" EmptyString
            end])
  /\ (api.Method r = "DELETE" ->
      MemoryStore.data res.1 = delete k (MemoryStore.data ms)
      /\ api.Code res.2
         = match MemoryStore.data ms !! k with Some _ => 200 | None => 404 end
      /\ api.Written res.2
         = api.Written w
           ++ [match MemoryStore.data ms !! k with
               | Some v => api.DeleteResponse k v true
               | None => api.ErrorResponse "key not found" EmptyString
               end]
      /\ forall w' now',
           api.Code
             (api.ServeHTTP Decode res.1 w'
                {| api.Method := "GET"; api.URLPath := api.URLPath r;
                   api.Body := api.Body r; api.ctx_at := api.ctx_at r |}
                now').2
           = 404).
Proof.
  intros Hv Hpath Hctx Hopen res. subst res. split; intros Hm.
  - rewrite (serve_GET ms w r now k) by done. cbn [fst snd].
    split; [done|]. by destruct (MemoryStore.data ms !! k).
  - destruct (serve_DELETE ms w r now k Hv Hpath Hm Hctx Hopen)
      as (Hd & Hcl & Hw).
    split; [done|]. rewrite Hw.
    split; [by destruct (MemoryStore.data ms !! k)|].
    split; [by destruct (MemoryStore.data ms !! k)|].
    intros w' now'.
    rewrite (serve_GET _ w' _ now' k) by done. cbn [snd].
    by rewrite Hd, lookup_delete_eq.
Qed.

(** [POST] or [PUT /api/kv/{key}] on an open [MemoryStore], once the
    body is decoded and its value is not empty. *)
Lemma serve_PUT (ms : MemoryStore.t) (w : api.ResponseWriter)
    (r : api.Request) (now : Time) (k : string) (req : api.SetRequest) :
  Validate k = None ->
  api.URLPath r = "/api/kv/" +:+ k ->
  api.Method r = "POST" \/ api.Method r = "PUT" ->
  MemoryStore.closed ms = false ->
  Decode (api.Body r) = inr req ->
  api.ReqValue req <> EmptyString ->
  ctx_Err (api.ctx_at r 0) = None ->
  let ms1 := (MemoryStore.SetKey ms Background now k (api.ReqValue req)).1 in
  let failed :=
    api.writeJSON (cors_headers w) 500
      (api.ErrorResponse "internal server error" EmptyString) in
  api.ServeHTTP Decode ms w r now
  = match ctx_Err (api.ctx_at r 1) with
    | Some _ => (ms, failed)
    | None =>
        match ctx_Err (api.ctx_at r 2) with
        | Some _ => (ms1, failed)
        | None =>
            (MemoryStore.incrementStat ms1 MemoryStore.StatGet,
             api.writeJSON (cors_headers w)
               (match MemoryStore.data ms !! k with
                | Some _ => 200
                | None => 201
                end)
               (api.SetResponse k
                  (set_value now (api.ReqValue req) (MemoryStore.data ms !! k))
                  (bool_decide (MemoryStore.data ms !! k = None))))
        end
    end.
Proof.
  intros Hv Hpath Hm Hopen Hdec Hne Hctx ms1 failed.
  rewrite ServeHTTP_routes,
    (routeRequest_key Decode _ _ _ _ k (valid_nonempty _ Hv) Hpath).
  assert (Hroute :
    (if String.eqb (api.Method r) api.MethodOptions
     then (ms, api.WriteHeader (cors_headers w) api.StatusOK)
     else if String.eqb (api.Method r) api.MethodGet
          then api.GetKey ms (cors_headers w) r
          else if String.eqb (api.Method r) api.MethodPost
                  || String.eqb (api.Method r) api.MethodPut
               then api.SetKey Decode ms (cors_headers w) r now
               else if String.eqb (api.Method r) api.MethodDelete
                    then api.DeleteKey ms (cors_headers w) r
                    else (ms, api.writeError (cors_headers w)
                                api.StatusMethodNotAllowed
                                "method not allowed"))
    = api.SetKey Decode ms (cors_headers w) r now)
    by (by destruct Hm as [-> | ->]).
  rewrite Hroute. clear Hroute.
  unfold api.SetKey. rewrite Hpath, extractKey_path.
  rewrite (proj2 (String.eqb_neq _ _) (valid_nonempty _ Hv)), Hv, Hdec.
  rewrite (proj2 (String.eqb_neq _ _) Hne).
  cbn [Exists SetKey Get MemoryStore_Store]. unfold MemoryStore.Exists.
  rewrite Hv, Hctx, Hopen.
  destruct (ctx_Err (api.ctx_at r 1)) as [e1|] eqn:H1.
  { unfold MemoryStore.SetKey. by rewrite Hv, H1. }
  rewrite (live_Background _ H1).
  destruct (SetKey_live ms Background now k (api.ReqValue req) Hv eq_refl Hopen)
    as (ms' & HS & Hop' & Hd').
  subst ms1. rewrite HS. cbn [fst].
  unfold MemoryStore.Get. rewrite Hv.
  destruct (ctx_Err (api.ctx_at r 2)) as [e2|] eqn:H2; [done|].
  rewrite Hop'. cbn [MemoryStore.data MemoryStore.incrementStat].
  rewrite Hd', lookup_insert_eq.
  destruct (MemoryStore.data ms !! k) as [v|] eqn:Hk.
  - rewrite bool_decide_eq_true_2 by (by eexists).
    by rewrite bool_decide_eq_false_2.
  - rewrite bool_decide_eq_false_2 by (by intros [? ?]).
    by rewrite bool_decide_eq_true_2.
Qed.

(** X29. Writing through the API: [POST] or [PUT] on ["/api/kv/" + key]
    with a valid key, on an open [MemoryStore], the request context
    staying live. A body that does not decode is refused with 400, and
    so is an empty value (which the store itself would accept); neither
    touches the store. Otherwise the value is stored as [Set] stores it,
    the answer carries the stored value, and it is 201 with
    [created = true] exactly when the key was not stored before, 200
    with [created = false] when it was. *)
Theorem PUT_creates_or_updates (ms : MemoryStore.t) (w : api.ResponseWriter)
    (r : api.Request) (now : Time) (k : string) :
  Validate k = None ->
  api.URLPath r = "/api/kv/" +:+ k ->
  api.Method r = "POST" \/ api.Method r = "PUT" ->
  MemoryStore.closed ms = false ->
  (forall n, ctx_Err (api.ctx_at r n) = None) ->
  let res := api.ServeHTTP Decode ms w r now in
  match Decode (api.Body r) with
  | inl _ =>
      res.1 = ms /\ api.Code res.2 = 400
      /\ api.Written res.2
         = api.Written w ++ [api.ErrorResponse "invalid JSON body" EmptyString]
  | inr req =>
      if String.eqb (api.ReqValue req) EmptyString
      then res.1 = ms /\ api.Code res.2 = 400
           /\ api.Written res.2
              = api.Written w
                ++ [api.ErrorResponse "value cannot be empty" EmptyString]
      else
        let v := set_value now (api.ReqValue req) (MemoryStore.data ms !! k) in
        MemoryStore.data res.1 = <[k := v]> (MemoryStore.data ms)
        /\ api.Code res.2
           = match MemoryStore.data ms !! k with
             | Some _ => 200
             | None => 201
             end
        /\ api.Written res.2
           = api.Written w
             ++ [api.SetResponse k v
                   (bool_decide (MemoryStore.data ms !! k = None))]
  end.
Proof.
  intros Hv Hpath Hm Hopen Hctx res.
  destruct (Decode (api.Body r)) as [e|req] eqn:Hdec;
    [|destruct (String.eqb_spec (api.ReqValue req) EmptyString) as [He|Hne]].
  - subst res. rewrite ServeHTTP_routes,
      (routeRequest_key Decode _ _ _ _ k (valid_nonempty _ Hv) Hpath).
    unfold api.SetKey. rewrite Hpath, extractKey_path.
    rewrite (proj2 (String.eqb_neq _ _) (valid_nonempty _ Hv)), Hv, Hdec.
    by destruct Hm as [-> | ->].
  - subst res. rewrite ServeHTTP_routes,
      (routeRequest_key Decode _ _ _ _ k (valid_nonempty _ Hv) Hpath).
    unfold api.SetKey. rewrite Hpath, extractKey_path.
    rewrite (proj2 (String.eqb_neq _ _) (valid_nonempty _ Hv)), Hv, Hdec, He.
    by destruct Hm as [-> | ->].
  - subst res.
    rewrite (serve_PUT ms w r now k req Hv Hpath Hm Hopen Hdec Hne (Hctx 0%nat)).
    rewrite (Hctx 1%nat), (Hctx 2%nat). cbn [fst snd].
    destruct (SetKey_live ms Background now k (api.ReqValue req) Hv eq_refl
                Hopen) as (ms' & HS & _ & Hd').
    rewrite HS. cbn [fst MemoryStore.incrementStat MemoryStore.data].
    split; [done|]. by destruct (MemoryStore.data ms !! k).
Qed.

(** X30. A write through the API is not all-or-nothing. With a valid
    key, a decoded, non-empty value and an open [MemoryStore], the
    handler makes three store calls, [Exists], [Set] and [Get]. If the
    request context is done by the second call, the answer is 500 and
    the store is untouched; if it is done only by the third, the answer
    is 500 all the same, but the value has been stored. *)
Theorem PUT_interrupted (ms : MemoryStore.t) (w : api.ResponseWriter)
    (r : api.Request) (now : Time) (k : string) (req : api.SetRequest) :
  Validate k = None ->
  api.URLPath r = "/api/kv/" +:+ k ->
  api.Method r = "POST" \/ api.Method r = "PUT" ->
  MemoryStore.closed ms = false ->
  Decode (api.Body r) = inr req ->
  api.ReqValue req <> EmptyString ->
  ctx_Err (api.ctx_at r 0) = None ->
  let res := api.ServeHTTP Decode ms w r now in
  (ctx_Err (api.ctx_at r 1) <> None ->
   res.1 = ms /\ api.Code res.2 = 500)
  /\ (ctx_Err (api.ctx_at r 1) = None ->
      ctx_Err (api.ctx_at r 2) <> None ->
      api.Code res.2 = 500
      /\ api.Written res.2
         = api.Written w
           ++ [api.ErrorResponse "internal server error" EmptyString]
      /\ MemoryStore.data res.1
         = <[k := set_value now (api.ReqValue req) (MemoryStore.data ms !! k)]>
             (MemoryStore.data ms)).
Proof.
  intros Hv Hpath Hm Hopen Hdec Hne Hctx res. subst res.
  rewrite (serve_PUT ms w r now k req Hv Hpath Hm Hopen Hdec Hne Hctx).
  split.
  - intros H1. by destruct (ctx_Err (api.ctx_at r 1)).
  - intros -> H2. destruct (ctx_Err (api.ctx_at r 2)); [|done].
    destruct (SetKey_live ms Background now k (api.ReqValue req) Hv eq_refl
                Hopen) as (ms' & HS & _ & Hd').
    rewrite HS. by cbn.
Qed.

End ApiMemory.

(** A stored key read and then deleted through the API. *)
Lemma GET_and_DELETE_witness :
  let ms := (MemoryStore.SetKey MemoryStore.NewMemoryStore Background 1000
               "a" "1").1 in
  let get := {| api.Method := "GET"; api.URLPath := "/api/kv/a";
                api.Body := EmptyString;
                api.ctx_at := fun _ => Background |} in
  let del := {| api.Method := "DELETE"; api.URLPath := "/api/kv/a";
                api.Body := EmptyString;
                api.ctx_at := fun _ => Background |} in
  let res := api.ServeHTTP plain_decoder ms api.NewRecorder get 2000 in
  let res' := api.ServeHTTP plain_decoder ms api.NewRecorder del 3000 in
  (api.Code res.2 = 200
   /\ api.Written res.2
      = [api.GetResponse "a" {| Data := "1"; CreatedAt := 1000;
                                UpdatedAt := 1000; Version := 1 |}])
  /\ api.Code res'.2 = 200
  /\ MemoryStore.data res'.1 !! "a" = None.
Proof.
  intros ms get del res res'.
  destruct (GET_and_DELETE plain_decoder ms api.NewRecorder get 2000 "a"
              eq_refl eq_refl eq_refl eq_refl) as [HG _].
  destruct (HG eq_refl) as (_ & Hc & Hw).
  destruct (GET_and_DELETE plain_decoder ms api.NewRecorder del 3000 "a"
              eq_refl eq_refl eq_refl eq_refl) as [_ HD].
  destruct (HD eq_refl) as (Hd & Hc' & _).
  split; [split; [exact Hc | exact Hw]|]. split; [exact Hc'|].
  etransitivity; [exact (f_equal (fun m => m !! "a") Hd)|].
  apply lookup_delete_eq.
Defined.

(** A first [PUT] of a key: 201, created. *)
Lemma PUT_creates_or_updates_witness :
  let r := {| api.Method := "PUT"; api.URLPath := "/api/kv/a";
              api.Body := "1"; api.ctx_at := fun _ => Background |} in
  let res := api.ServeHTTP plain_decoder MemoryStore.NewMemoryStore
               api.NewRecorder r 1000 in
  api.Code res.2 = 201
  /\ api.Written res.2
     = [api.SetResponse "a" {| Data := "1"; CreatedAt := 1000;
                               UpdatedAt := 1000; Version := 1 |} true].
Proof.
  intros r res.
  destruct (PUT_creates_or_updates plain_decoder MemoryStore.NewMemoryStore
              api.NewRecorder r 1000 "a" eq_refl eq_refl
              (or_intror eq_refl) eq_refl (fun _ => eq_refl))
    as (_ & Hc & Hw).
  split; [exact Hc | exact Hw].
Defined.

(** The deadline passes between [Set] and [Get]: 500, and the key is
    stored. *)
Lemma PUT_interrupted_witness :
  let r := {| api.Method := "PUT"; api.URLPath := "/api/kv/a";
              api.Body := "1";
              api.ctx_at := fun n => if (n <? 2)%nat then Background
                                     else CtxDeadlineExceeded |} in
  let res := api.ServeHTTP plain_decoder MemoryStore.NewMemoryStore
               api.NewRecorder r 1000 in
  api.Code res.2 = 500
  /\ MemoryStore.data res.1 !! "a"
     = Some {| Data := "1"; CreatedAt := 1000; UpdatedAt := 1000;
               Version := 1 |}.
Proof.
  intros r res.
  destruct (PUT_interrupted plain_decoder MemoryStore.NewMemoryStore
              api.NewRecorder r 1000 "a" {| api.ReqValue := "1" |}
              eq_refl eq_refl (or_intror eq_refl) eq_refl eq_refl
              ltac:(discriminate) eq_refl) as [_ H2].
  destruct (H2 eq_refl ltac:(discriminate)) as (Hc & _ & Hd).
  split; [exact Hc|].
  etransitivity; [exact (f_equal (fun m => m !! "a") Hd)|].
  apply lookup_insert_eq.
Defined.
